(** * Document storage layer: schema, trigger and vector search

    A shallow embedding of the SQL of the document storage migration
    ([documents], [document_entities], the [update_documents_updated_at]
    trigger, the [match_documents] function), of the [processed_episodes]
    deduplication table, and of the [gmail_webhook] handler that uses it.

    Conventions.
    - A nullable SQL value is an [option]; [None] is SQL NULL.
    - A SQL condition is an [option bool] (three-valued logic); a WHERE clause
      keeps a row only when its condition is [Some true].
    - [float] columns and parameters are rationals ([Q]) with exact
      arithmetic: rounding, infinities and NaN are outside the model.
    - [gen_random_uuid()] is a counter kept in the database state; [NOW()] is
      a parameter of the statements that read it.
    - A table is the list of its rows in scan order. *)

From Stdlib Require Import ZArith QArith Qminmax List String Bool Lia.
From Stdlib Require Import Sorting.Sorted Sorting.Permutation.
Import ListNotations.

Local Open Scope Q_scope.

(** ** SQL values *)

Definition uuid : Type := N.
Definition text : Type := string.
Definition timestamptz : Type := Z.
Definition float : Type := Q.
Definition jsonb : Type := string.

(** [vector(1536)]: a list of 1536 components. *)
Definition vector : Type := list Q.
Definition vector_dims : nat := 1536%nat.
Definition well_formed_vector (v : vector) : Prop := List.length v = vector_dims.

Inductive sqlstate : Type :=
| not_null_violation
| foreign_key_violation
| unique_violation
| data_exception
| invalid_row_count_in_limit_clause.

Inductive result (A : Type) : Type :=
| Ok (a : A)
| Err (e : sqlstate).
Arguments Ok {A} a.
Arguments Err {A} e.

Definition bind {A B : Type} (r : result A) (k : A -> result B) : result B :=
  match r with
  | Ok a => k a
  | Err e => Err e
  end.

Notation "x <- r ;; k" := (bind r (fun x => k))
  (at level 61, r at next level, right associativity).

(** ** Three-valued logic *)

Module Sql.

Definition and (a b : option bool) : option bool :=
  match a, b with
  | Some false, _ | _, Some false => Some false
  | Some true, Some true => Some true
  | _, _ => None
  end.

Definition or (a b : option bool) : option bool :=
  match a, b with
  | Some true, _ | _, Some true => Some true
  | Some false, Some false => Some false
  | _, _ => None
  end.

Definition is_null {A : Type} (a : option A) : option bool :=
  match a with
  | None => Some true
  | Some _ => Some false
  end.

Definition eq_text (a b : option text) : option bool :=
  match a, b with
  | Some x, Some y => Some (String.eqb x y)
  | _, _ => None
  end.

(** [a > b] on floats. *)
Definition gt (a b : option float) : option bool :=
  match a, b with
  | Some x, Some y => Some (negb (Qle_bool x y))
  | _, _ => None
  end.

(** [a - b] on floats. *)
Definition sub (a b : option float) : option float :=
  match a, b with
  | Some x, Some y => Some (x - y)
  | _, _ => None
  end.

(** A WHERE clause keeps the row only when the condition is true. *)
Definition holds (c : option bool) : bool :=
  match c with
  | Some true => true
  | _ => false
  end.

(** ORDER BY ... ASC on a nullable float: NULLs sort last. *)
Definition asc_le (a b : option float) : bool :=
  match a, b with
  | Some x, Some y => Qle_bool x y
  | Some _, None => true
  | None, Some _ => false
  | None, None => true
  end.

(** LIMIT n: NULL is no limit, a negative count is an error. *)
Definition limit {A : Type} (n : option Z) (l : list A) : result (list A) :=
  match n with
  | None => Ok l
  | Some z =>
      if (z <? 0)%Z then Err invalid_row_count_in_limit_clause
      else Ok (firstn (Z.to_nat z) l)
  end.

(** The executor's sort, as a stable insertion sort of the scan order.
    SQL leaves the relative order of rows with equal keys unspecified. *)
Section OrderBy.
Context {A : Type} (key : A -> option float).

Fixpoint insert (x : A) (l : list A) : list A :=
  match l with
  | [] => [x]
  | y :: l' => if asc_le (key x) (key y) then x :: l else y :: insert x l'
  end.

Fixpoint order_by (l : list A) : list A :=
  match l with
  | [] => []
  | x :: l' => insert x (order_by l')
  end.
End OrderBy.

End Sql.

(** ** TABLE documents *)

Module Documents.
Record row : Type := mk {
  id : uuid;
  user_id : text;
  source : text;
  source_id : text;
  doc_type : text;
  subject : option text;
  content : text;
  content_preview : option text;
  metadata : option jsonb;
  source_created_at : option timestamptz;
  created_at : option timestamptz;
  updated_at : option timestamptz;
  vector_embedding : option vector
}.

(** The columns of [CONSTRAINT unique_source_document]. *)
Definition unique_source_document (d : row) : text * text * text :=
  (source d, source_id d, user_id d).
End Documents.

(** ** FUNCTION match_documents *)

Module Match.
(** RETURNS TABLE (...) *)
Record row : Type := mk {
  id : uuid;
  user_id : text;
  source : text;
  source_id : text;
  doc_type : text;
  subject : option text;
  content : text;
  content_preview : option text;
  metadata : option jsonb;
  source_created_at : option timestamptz;
  created_at : option timestamptz;
  similarity : option float
}.
End Match.

Section MatchDocuments.

(** pgvector's [<=>] on two non-null vectors. The operator belongs to the
    extension, not to this schema: every result below holds for any
    such function. *)
Variable cosine_distance : vector -> vector -> float.

(** [a <=> b]; NULL when an operand is NULL. *)
Definition distance (a b : option vector) : option float :=
  match a, b with
  | Some x, Some y => Some (cosine_distance x y)
  | _, _ => None
  end.

Section Query.
Variable query_embedding : option vector.
Variable match_threshold : option float.
Variable match_count : option Z.
Variable filter_user_id : option text.
Variable filter_source : option text.

(** [1 - (d.vector_embedding <=> query_embedding)] *)
Definition similarity_of (d : Documents.row) : option float :=
  Sql.sub (Some 1) (distance (Documents.vector_embedding d) query_embedding).

(** The WHERE clause. *)
Definition match_where (d : Documents.row) : option bool :=
  Sql.and
    (Sql.and
       (Sql.or (Sql.is_null filter_user_id)
               (Sql.eq_text (Some (Documents.user_id d)) filter_user_id))
       (Sql.or (Sql.is_null filter_source)
               (Sql.eq_text (Some (Documents.source d)) filter_source)))
    (Sql.gt (similarity_of d) match_threshold).

(** The ORDER BY key: [d.vector_embedding <=> query_embedding]. *)
Definition order_key (d : Documents.row) : option float :=
  distance (Documents.vector_embedding d) query_embedding.

(** The SELECT list. *)
Definition select (d : Documents.row) : Match.row :=
  {| Match.id := Documents.id d;
     Match.user_id := Documents.user_id d;
     Match.source := Documents.source d;
     Match.source_id := Documents.source_id d;
     Match.doc_type := Documents.doc_type d;
     Match.subject := Documents.subject d;
     Match.content := Documents.content d;
     Match.content_preview := Documents.content_preview d;
     Match.metadata := Documents.metadata d;
     Match.source_created_at := Documents.source_created_at d;
     Match.created_at := Documents.created_at d;
     Match.similarity := similarity_of d |}.

Definition matching (documents : list Documents.row) : list Documents.row :=
  filter (fun d => Sql.holds (match_where d)) documents.

Definition match_documents (documents : list Documents.row)
  : result (list Match.row) :=
  Sql.limit match_count
    (map select (Sql.order_by order_key (matching documents))).

End Query.
End MatchDocuments.

Arguments match_documents cosine_distance query_embedding match_threshold
  match_count filter_user_id filter_source documents : assert.

(** ** TABLE document_entities *)

Module DocumentEntities.
Record row : Type := mk {
  id : uuid;
  document_id : uuid;
  entity_uuid : text;
  entity_type : text;
  entity_name : text;
  mention_count : option Z;
  relevance_score : option float;
  created_at : option timestamptz
}.

(** The columns of [CONSTRAINT unique_document_entity]. *)
Definition unique_document_entity (l : row) : uuid * text :=
  (document_id l, entity_uuid l).
End DocumentEntities.

(** ** TABLE processed_episodes *)

Module ProcessedEpisodes.
Record row : Type := mk {
  id : uuid;
  user_id : text;
  source : text;
  source_id : text;
  episode_uuid : option uuid;
  processed_at : option timestamptz
}.

(** The columns of [CONSTRAINT unique_episode]. *)
Definition unique_episode (p : row) : text * text * text :=
  (user_id p, source p, source_id p).
End ProcessedEpisodes.

(** ** The database *)

Record database : Type := mkDatabase {
  documents : list Documents.row;
  document_entities : list DocumentEntities.row;
  processed_episodes : list ProcessedEpisodes.row;
  next_uuid : uuid
}.

Definition empty_database : database :=
  {| documents := []; document_entities := []; processed_episodes := [];
     next_uuid := 0%N |}.

(** ** Column values of an INSERT *)

(** What an INSERT gives for a column that has a DEFAULT: nothing (the
    default applies) or a value, which may be NULL. *)
Inductive column (A : Type) : Type :=
| DEFAULT
| VALUE (v : option A).
Arguments DEFAULT {A}.
Arguments VALUE {A} v.

Definition or_default {A : Type} (c : column A) (d : option A) : option A :=
  match c with
  | DEFAULT => d
  | VALUE v => v
  end.

(** A NOT NULL column. *)
Definition not_null {A : Type} (v : option A) : result A :=
  match v with
  | Some a => Ok a
  | None => Err not_null_violation
  end.

(** The type modifier of [vector(1536)]. *)
Definition check_dims (v : option vector) : result (option vector) :=
  match v with
  | None => Ok None
  | Some x =>
      if Nat.eqb (List.length x) vector_dims then Ok (Some x)
      else Err data_exception
  end.

Definition text3_eqb (a b : text * text * text) : bool :=
  let '(a1, a2, a3) := a in
  let '(b1, b2, b3) := b in
  String.eqb a1 b1 && String.eqb a2 b2 && String.eqb a3 b3.

Definition uuid_text_eqb (a b : uuid * text) : bool :=
  N.eqb (fst a) (fst b) && String.eqb (snd a) (snd b).

Fixpoint distinct {A : Type} (eqb : A -> A -> bool) (l : list A) : bool :=
  match l with
  | [] => true
  | x :: l' => negb (existsb (eqb x) l') && distinct eqb l'
  end.

(** ** INSERT INTO documents *)

Module InsertDocument.
Record values : Type := mk {
  user_id : option text;
  source : option text;
  source_id : option text;
  doc_type : option text;
  subject : option text;
  content : option text;
  content_preview : option text;
  metadata : column jsonb;
  source_created_at : option timestamptz;
  created_at : column timestamptz;
  updated_at : column timestamptz;
  vector_embedding : option vector
}.
End InsertDocument.

Definition insert_document (now : timestamptz) (v : InsertDocument.values)
  (db : database) : result (uuid * database) :=
  embedding <- check_dims (InsertDocument.vector_embedding v) ;;
  user_id <- not_null (InsertDocument.user_id v) ;;
  source <- not_null (InsertDocument.source v) ;;
  source_id <- not_null (InsertDocument.source_id v) ;;
  doc_type <- not_null (InsertDocument.doc_type v) ;;
  content <- not_null (InsertDocument.content v) ;;
  let d :=
    {| Documents.id := next_uuid db;
       Documents.user_id := user_id;
       Documents.source := source;
       Documents.source_id := source_id;
       Documents.doc_type := doc_type;
       Documents.subject := InsertDocument.subject v;
       Documents.content := content;
       Documents.content_preview := InsertDocument.content_preview v;
       Documents.metadata := or_default (InsertDocument.metadata v) (Some "{}"%string);
       Documents.source_created_at := InsertDocument.source_created_at v;
       Documents.created_at := or_default (InsertDocument.created_at v) (Some now);
       Documents.updated_at := or_default (InsertDocument.updated_at v) (Some now);
       Documents.vector_embedding := embedding |} in
  if existsb (fun d' => text3_eqb (Documents.unique_source_document d')
                                  (Documents.unique_source_document d))
       (documents db)
  then Err unique_violation
  else Ok (Documents.id d,
           {| documents := documents db ++ [d];
              document_entities := document_entities db;
              processed_episodes := processed_episodes db;
              next_uuid := N.succ (next_uuid db) |}).

(** ** TRIGGER update_documents_updated_at *)

(** [NEW.updated_at = NOW(); RETURN NEW;] *)
Definition update_updated_at_column (now : timestamptz) (NEW : Documents.row)
  : Documents.row :=
  {| Documents.id := Documents.id NEW;
     Documents.user_id := Documents.user_id NEW;
     Documents.source := Documents.source NEW;
     Documents.source_id := Documents.source_id NEW;
     Documents.doc_type := Documents.doc_type NEW;
     Documents.subject := Documents.subject NEW;
     Documents.content := Documents.content NEW;
     Documents.content_preview := Documents.content_preview NEW;
     Documents.metadata := Documents.metadata NEW;
     Documents.source_created_at := Documents.source_created_at NEW;
     Documents.created_at := Documents.created_at NEW;
     Documents.updated_at := Some now;
     Documents.vector_embedding := Documents.vector_embedding NEW |}.

(** ** UPDATE documents SET ... WHERE ... *)

(** The row stored for [OLD]: a row the WHERE clause selects gets NEW from the
    SET clause, and the BEFORE UPDATE ... FOR EACH ROW trigger then rewrites
    NEW; another row is left alone. *)
Definition update_row (now : timestamptz) (where_ : Documents.row -> bool)
  (set : Documents.row -> Documents.row) (OLD : Documents.row) : Documents.row :=
  if where_ OLD then update_updated_at_column now (set OLD) else OLD.

Definition references_document (docs : list Documents.row)
  (l : DocumentEntities.row) : bool :=
  existsb (fun d => N.eqb (Documents.id d) (DocumentEntities.document_id l)) docs.

(** The constraints are checked on the table the statement leaves. *)
Definition update_documents (now : timestamptz) (where_ : Documents.row -> bool)
  (set : Documents.row -> Documents.row) (db : database) : result database :=
  let docs := map (update_row now where_ set) (documents db) in
  if negb (forallb (fun d =>
             match check_dims (Documents.vector_embedding d) with
             | Ok _ => true
             | Err _ => false
             end) docs)
  then Err data_exception
  else if negb (distinct N.eqb (map Documents.id docs)) then Err unique_violation
  else if negb (distinct text3_eqb (map Documents.unique_source_document docs))
  then Err unique_violation
  else if negb (forallb (references_document docs) (document_entities db))
  then Err foreign_key_violation
  else Ok {| documents := docs;
             document_entities := document_entities db;
             processed_episodes := processed_episodes db;
             next_uuid := next_uuid db |}.

(** ** DELETE FROM documents WHERE ... *)

(** [document_id UUID NOT NULL REFERENCES documents(id) ON DELETE CASCADE]:
    the links of a deleted document go with it. *)
Definition delete_documents (where_ : Documents.row -> bool) (db : database)
  : database :=
  let kept := filter (fun d => negb (where_ d)) (documents db) in
  let deleted := filter where_ (documents db) in
  {| documents := kept;
     document_entities :=
       filter (fun l => negb (references_document deleted l))
         (document_entities db);
     processed_episodes := processed_episodes db;
     next_uuid := next_uuid db |}.

(** ** INSERT INTO document_entities *)

Module InsertDocumentEntity.
Record values : Type := mk {
  document_id : option uuid;
  entity_uuid : option text;
  entity_type : option text;
  entity_name : option text;
  mention_count : column Z;
  relevance_score : column float;
  created_at : column timestamptz
}.
End InsertDocumentEntity.

Definition insert_document_entity (now : timestamptz)
  (v : InsertDocumentEntity.values) (db : database) : result (uuid * database) :=
  document_id <- not_null (InsertDocumentEntity.document_id v) ;;
  entity_uuid <- not_null (InsertDocumentEntity.entity_uuid v) ;;
  entity_type <- not_null (InsertDocumentEntity.entity_type v) ;;
  entity_name <- not_null (InsertDocumentEntity.entity_name v) ;;
  let l :=
    {| DocumentEntities.id := next_uuid db;
       DocumentEntities.document_id := document_id;
       DocumentEntities.entity_uuid := entity_uuid;
       DocumentEntities.entity_type := entity_type;
       DocumentEntities.entity_name := entity_name;
       DocumentEntities.mention_count :=
         or_default (InsertDocumentEntity.mention_count v) (Some 1%Z);
       DocumentEntities.relevance_score :=
         or_default (InsertDocumentEntity.relevance_score v) (Some 1);
       DocumentEntities.created_at :=
         or_default (InsertDocumentEntity.created_at v) (Some now) |} in
  if existsb (fun l' => uuid_text_eqb (DocumentEntities.unique_document_entity l')
                                      (DocumentEntities.unique_document_entity l))
       (document_entities db)
  then Err unique_violation
  else if negb (references_document (documents db) l)
  then Err foreign_key_violation
  else Ok (DocumentEntities.id l,
           {| documents := documents db;
              document_entities := document_entities db ++ [l];
              processed_episodes := processed_episodes db;
              next_uuid := N.succ (next_uuid db) |}).

(** ** INSERT INTO processed_episodes *)

Module InsertProcessedEpisode.
Record values : Type := mk {
  user_id : option text;
  source : option text;
  source_id : option text;
  episode_uuid : option uuid;
  processed_at : column timestamptz
}.
End InsertProcessedEpisode.

Definition insert_processed_episode (now : timestamptz)
  (v : InsertProcessedEpisode.values) (db : database) : result (uuid * database) :=
  user_id <- not_null (InsertProcessedEpisode.user_id v) ;;
  source <- not_null (InsertProcessedEpisode.source v) ;;
  source_id <- not_null (InsertProcessedEpisode.source_id v) ;;
  let p :=
    {| ProcessedEpisodes.id := next_uuid db;
       ProcessedEpisodes.user_id := user_id;
       ProcessedEpisodes.source := source;
       ProcessedEpisodes.source_id := source_id;
       ProcessedEpisodes.episode_uuid := InsertProcessedEpisode.episode_uuid v;
       ProcessedEpisodes.processed_at :=
         or_default (InsertProcessedEpisode.processed_at v) (Some now) |} in
  if existsb (fun p' => text3_eqb (ProcessedEpisodes.unique_episode p')
                                  (ProcessedEpisodes.unique_episode p))
       (processed_episodes db)
  then Err unique_violation
  else Ok (ProcessedEpisodes.id p,
           {| documents := documents db;
              document_entities := document_entities db;
              processed_episodes := processed_episodes db ++ [p];
              next_uuid := N.succ (next_uuid db) |}).

(** ** UPDATE processed_episodes SET ... WHERE ... *)

(** The table has no trigger; its constraints are checked on the table the
    statement leaves. *)
Definition update_processed_episodes (where_ : ProcessedEpisodes.row -> bool)
  (set : ProcessedEpisodes.row -> ProcessedEpisodes.row) (db : database)
  : result database :=
  let ps := map (fun p => if where_ p then set p else p)
              (processed_episodes db) in
  if negb (distinct N.eqb (map ProcessedEpisodes.id ps)) then Err unique_violation
  else if negb (distinct text3_eqb (map ProcessedEpisodes.unique_episode ps))
  then Err unique_violation
  else Ok {| documents := documents db;
             document_entities := document_entities db;
             processed_episodes := ps;
             next_uuid := next_uuid db |}.

(** ** DELETE FROM processed_episodes WHERE ... *)

Definition delete_processed_episodes (where_ : ProcessedEpisodes.row -> bool)
  (db : database) : database :=
  {| documents := documents db;
     document_entities := document_entities db;
     processed_episodes :=
       filter (fun p => negb (where_ p)) (processed_episodes db);
     next_uuid := next_uuid db |}.

(** ** Idempotency ledger *)

(** Modelled from the spec: the body of [has_episode_been_processed]
    (services/graphiti_service.py is not part of the sources at hand), the
    spec's [hasBeenProcessed]: a point lookup of the triple. *)
Definition has_episode_been_processed (source source_id user_id : text)
  (db : database) : bool :=
  existsb (fun p => text3_eqb (ProcessedEpisodes.unique_episode p)
                              (user_id, source, source_id))
    (processed_episodes db).

Inductive mark_result : Type :=
| claimed
| already_claimed
| ledger_error (e : sqlstate).

(** Modelled from the spec: the body of [mark_episode_as_processed]
    (services/graphiti_service.py is not part of the sources at hand), the
    spec's [markProcessed]: one INSERT; a conflict on the unique triple is
    not an error, it signals "already claimed". *)
Definition mark_episode_as_processed (now : timestamptz)
  (source source_id user_id : text) (episode_uuid : option uuid)
  (db : database) : mark_result * database :=
  match insert_processed_episode now
          {| InsertProcessedEpisode.user_id := Some user_id;
             InsertProcessedEpisode.source := Some source;
             InsertProcessedEpisode.source_id := Some source_id;
             InsertProcessedEpisode.episode_uuid := episode_uuid;
             InsertProcessedEpisode.processed_at := DEFAULT |} db with
  | Ok (_, db') => (claimed, db')
  | Err unique_violation => (already_claimed, db)
  | Err e => (ledger_error e, db)
  end.

(** ** Document store *)

Inductive store_result : Type :=
| stored (document_id : uuid)
| DuplicateDocumentError
| store_error (e : sqlstate).

(** Modelled from the spec: the spec's [store(doc)] (services/document_store.py
    is not part of the sources at hand): one INSERT; a violation of the
    uniqueness invariant is reported as [DuplicateDocumentError], which the
    caller treats as a no-op. *)
Definition store (now : timestamptz) (doc : InsertDocument.values)
  (db : database) : store_result * database :=
  match insert_document now doc db with
  | Ok (document_id, db') => (stored document_id, db')
  | Err unique_violation => (DuplicateDocumentError, db)
  | Err e => (store_error e, db)
  end.

(** The SET clause [vector_embedding = e]. *)
Definition set_vector_embedding (e : option vector) (d : Documents.row)
  : Documents.row :=
  {| Documents.id := Documents.id d;
     Documents.user_id := Documents.user_id d;
     Documents.source := Documents.source d;
     Documents.source_id := Documents.source_id d;
     Documents.doc_type := Documents.doc_type d;
     Documents.subject := Documents.subject d;
     Documents.content := Documents.content d;
     Documents.content_preview := Documents.content_preview d;
     Documents.metadata := Documents.metadata d;
     Documents.source_created_at := Documents.source_created_at d;
     Documents.created_at := Documents.created_at d;
     Documents.updated_at := Documents.updated_at d;
     Documents.vector_embedding := e |}.

(** Modelled from the spec: the spec's [backfillEmbedding(documentId, vector)]
    (services/document_store.py is not part of the sources at hand), as
    [UPDATE documents SET vector_embedding = ... WHERE id = ...]. *)
Definition backfillEmbedding (now : timestamptz) (document_id : uuid)
  (v : vector) (db : database) : result database :=
  update_documents now (fun d => N.eqb (Documents.id d) document_id)
    (set_vector_embedding (Some v)) db.

(** ** Entity bridge *)

Definition is_link (document_id : uuid) (entity_uuid : text)
  (l : DocumentEntities.row) : bool :=
  uuid_text_eqb (DocumentEntities.unique_document_entity l)
                (document_id, entity_uuid).

(** [GREATEST(old, new)], which ignores a NULL. *)
Definition greatest_int (old : option Z) (new : Z) : Z :=
  match old with
  | Some o => Z.max o new
  | None => new
  end.

Definition greatest_float (old : option float) (new : float) : float :=
  match old with
  | Some o => Qmax o new
  | None => new
  end.

(** Modelled from the spec: the merge of [link] for a pair that is already
    linked, the maximum of each count taken on its own. *)
Definition merge_link (mention_count : Z) (relevance_score : float)
  (l : DocumentEntities.row) : DocumentEntities.row :=
  {| DocumentEntities.id := DocumentEntities.id l;
     DocumentEntities.document_id := DocumentEntities.document_id l;
     DocumentEntities.entity_uuid := DocumentEntities.entity_uuid l;
     DocumentEntities.entity_type := DocumentEntities.entity_type l;
     DocumentEntities.entity_name := DocumentEntities.entity_name l;
     DocumentEntities.mention_count :=
       Some (greatest_int (DocumentEntities.mention_count l) mention_count);
     DocumentEntities.relevance_score :=
       Some (greatest_float (DocumentEntities.relevance_score l) relevance_score);
     DocumentEntities.created_at := DocumentEntities.created_at l |}.

(** Modelled from the spec: the body of [link_document_to_entity]
    (services/document_store.py is not part of the sources at hand), the
    spec's [link]: an upsert; when the pair is already linked the stored
    counts become the maximum of the stored and the supplied ones. *)
Definition link_document_to_entity (now : timestamptz) (document_id : uuid)
  (entity_uuid entity_type entity_name : text) (mention_count : Z)
  (relevance_score : float) (db : database) : result database :=
  if existsb (is_link document_id entity_uuid) (document_entities db)
  then Ok {| documents := documents db;
             document_entities :=
               map (fun l => if is_link document_id entity_uuid l
                             then merge_link mention_count relevance_score l
                             else l)
                 (document_entities db);
             processed_episodes := processed_episodes db;
             next_uuid := next_uuid db |}
  else
    r <- insert_document_entity now
           {| InsertDocumentEntity.document_id := Some document_id;
              InsertDocumentEntity.entity_uuid := Some entity_uuid;
              InsertDocumentEntity.entity_type := Some entity_type;
              InsertDocumentEntity.entity_name := Some entity_name;
              InsertDocumentEntity.mention_count := VALUE (Some mention_count);
              InsertDocumentEntity.relevance_score := VALUE (Some relevance_score);
              InsertDocumentEntity.created_at := DEFAULT |} db ;;
    Ok (snd r).

(** ** Operations on the store *)

Inductive operation : Type :=
| InsertDocument (v : InsertDocument.values)
| UpdateDocuments (where_ : Documents.row -> bool)
                  (set : Documents.row -> Documents.row)
| DeleteDocuments (where_ : Documents.row -> bool)
| InsertDocumentEntity (v : InsertDocumentEntity.values)
| LinkDocumentToEntity (document_id : uuid)
                       (entity_uuid entity_type entity_name : text)
                       (mention_count : Z) (relevance_score : float)
| InsertProcessedEpisode (v : InsertProcessedEpisode.values)
| UpdateProcessedEpisodes (where_ : ProcessedEpisodes.row -> bool)
                          (set : ProcessedEpisodes.row -> ProcessedEpisodes.row)
| DeleteProcessedEpisodes (where_ : ProcessedEpisodes.row -> bool).

(** The deletions of documents. *)
Definition is_delete (op : operation) : bool :=
  match op with
  | DeleteDocuments _ => true
  | _ => false
  end.

(** A statement that raises leaves the database as it was. *)
Definition or_unchanged (db : database) (r : result database) : database :=
  match r with
  | Ok db' => db'
  | Err _ => db
  end.

Definition exec (now : timestamptz) (op : operation) (db : database)
  : database :=
  match op with
  | InsertDocument v =>
      or_unchanged db (r <- insert_document now v db ;; Ok (snd r))
  | UpdateDocuments where_ set =>
      or_unchanged db (update_documents now where_ set db)
  | DeleteDocuments where_ => delete_documents where_ db
  | InsertDocumentEntity v =>
      or_unchanged db (r <- insert_document_entity now v db ;; Ok (snd r))
  | LinkDocumentToEntity d e t n m r =>
      or_unchanged db (link_document_to_entity now d e t n m r db)
  | InsertProcessedEpisode v =>
      or_unchanged db (r <- insert_processed_episode now v db ;; Ok (snd r))
  | UpdateProcessedEpisodes where_ set =>
      or_unchanged db (update_processed_episodes where_ set db)
  | DeleteProcessedEpisodes where_ => delete_processed_episodes where_ db
  end.

(** A history: the operations in the order they ran, each with its [NOW()]. *)
Fixpoint run (ops : list (timestamptz * operation)) (db : database) : database :=
  match ops with
  | [] => db
  | (now, op) :: ops' => run ops' (exec now op db)
  end.

(** ** The boundary of the Entity Bridge *)

(** [mention_count INT]: the largest value of the type. *)
Definition int4_max : Z := 2147483647%Z.

(** The invariant of a link: a mention count of at least 1 and a relevance
    score in [0,1]. *)
Definition in_range (mention_count : Z) (relevance_score : float) : bool :=
  (1 <=? mention_count)%Z && Qle_bool 0 relevance_score
  && Qle_bool relevance_score 1.

Definition link_invariant (l : DocumentEntities.row) : Prop :=
  exists n r,
    DocumentEntities.mention_count l = Some n /\
    DocumentEntities.relevance_score l = Some r /\
    (1 <= n)%Z /\ 0 <= r /\ r <= 1.

Inductive link_result : Type :=
| linked
| DataInvariantViolation
| link_error (e : sqlstate).

(** Modelled from the spec: the boundary of the spec's [link]
    (services/document_store.py is not part of the sources at hand). A link
    whose relevance score is out of [0,1] or whose mention count is below 1
    violates a data invariant: it is rejected before anything is written.
    Any other link goes to the upsert of [link_document_to_entity]; an error
    of the tables is handed on, the database as it was. *)
Definition link (now : timestamptz) (document_id : uuid)
  (entity_uuid entity_type entity_name : text) (mention_count : Z)
  (relevance_score : float) (db : database) : link_result * database :=
  if in_range mention_count relevance_score
  then
    match link_document_to_entity now document_id entity_uuid entity_type
            entity_name mention_count relevance_score db with
    | Ok db' => (linked, db')
    | Err e => (link_error e, db)
    end
  else (DataInvariantViolation, db).

(** The operations as the boundary serves them: a link goes through [link],
    the statements on the other tables as they are. *)
Definition serve (now : timestamptz) (op : operation) (db : database)
  : database :=
  match op with
  | LinkDocumentToEntity d e t n m r => snd (link now d e t n m r db)
  | _ => exec now op db
  end.

Fixpoint serve_all (ops : list (timestamptz * operation)) (db : database)
  : database :=
  match ops with
  | [] => db
  | (now, op) :: ops' => serve_all ops' (serve now op db)
  end.

(** An INSERT INTO document_entities that is not made by [link]. *)
Definition bypasses_link (op : operation) : bool :=
  match op with
  | InsertDocumentEntity _ => true
  | _ => false
  end.

(** ** The webhook handler *)

Record WebhookEvent : Type := mkWebhookEvent {
  message_id : text;
  event_subject : option text;
  event_body : text
}.

(** The database, the clock behind [NOW()], and the number of calls made to
    the extraction engine so far. *)
Record world : Type := mkWorld {
  db : database;
  clock : timestamptz;
  extraction_calls : nat
}.

Definition tick (w : world) : timestamptz := (clock w + 1)%Z.

(** Modelled from the spec: the body of [process_email] (not part of the
    sources at hand), from the spec's pipeline: the document is stored, a
    duplicate being a no-op, and the text is sent to the extraction engine. *)
Definition process_email (user_id : text) (event : WebhookEvent) (w : world)
  : world :=
  let doc :=
    {| InsertDocument.user_id := Some user_id;
       InsertDocument.source := Some "gmail"%string;
       InsertDocument.source_id := Some (message_id event);
       InsertDocument.doc_type := Some "email"%string;
       InsertDocument.subject := event_subject event;
       InsertDocument.content := Some (event_body event);
       InsertDocument.content_preview := None;
       InsertDocument.metadata := DEFAULT;
       InsertDocument.source_created_at := None;
       InsertDocument.created_at := DEFAULT;
       InsertDocument.updated_at := DEFAULT;
       InsertDocument.vector_embedding := None |} in
  {| db := snd (store (clock w) doc (db w));
     clock := tick w;
     extraction_calls := S (extraction_calls w) |}.

Inductive response : Type :=
| already_processed
| null.

(** Where a running handler stands: before one of its three [await]s, or
    done. Another handler may run between any two of them. *)
Inductive handler : Type :=
| await_has_episode_been_processed
| await_process_email
| await_mark_episode_as_processed
| returned (r : response).

(** One [await] of [gmail_webhook]:
<<
    if await has_episode_been_processed('gmail', event.message_id, user_id):
        return {"status": "already_processed"}
    await process_email(event)
    await mark_episode_as_processed('gmail', event.message_id, user_id)
>> *)
Definition step (user_id : text) (event : WebhookEvent) (h : handler)
  (w : world) : handler * world :=
  match h with
  | await_has_episode_been_processed =>
      if has_episode_been_processed "gmail"%string (message_id event) user_id
           (db w)
      then (returned already_processed, w)
      else (await_process_email, w)
  | await_process_email =>
      (await_mark_episode_as_processed, process_email user_id event w)
  | await_mark_episode_as_processed =>
      (returned null,
       {| db := snd (mark_episode_as_processed (clock w) "gmail"%string
                       (message_id event) user_id None (db w));
          clock := tick w;
          extraction_calls := extraction_calls w |})
  | returned r => (returned r, w)
  end.

(** The handler run from start to end with nothing in between. *)
Definition gmail_webhook (user_id : text) (event : WebhookEvent) (w : world)
  : response * world :=
  let '(h1, w1) := step user_id event await_has_episode_been_processed w in
  let '(h2, w2) := step user_id event h1 w1 in
  let '(h3, w3) := step user_id event h2 w2 in
  match h3 with
  | returned r => (r, w3)
  | _ => (null, w3)
  end.

(** A delivery in flight. *)
Record request : Type := mkRequest {
  request_user_id : text;
  request_event : WebhookEvent;
  at_ : handler
}.

Definition deliver (user_id : text) (event : WebhookEvent) : request :=
  {| request_user_id := user_id; request_event := event;
     at_ := await_has_episode_been_processed |}.

(** The scheduler resumes request [i] up to its next [await]. *)
Fixpoint resume (i : nat) (pool : list request) (w : world)
  : list request * world :=
  match pool with
  | [] => ([], w)
  | r :: pool' =>
      match i with
      | O =>
          let '(h, w') := step (request_user_id r) (request_event r) (at_ r) w in
          ({| request_user_id := request_user_id r;
              request_event := request_event r;
              at_ := h |} :: pool', w')
      | S i' =>
          let '(pool'', w') := resume i' pool' w in
          (r :: pool'', w')
      end
  end.

Fixpoint schedule (order : list nat) (pool : list request) (w : world)
  : list request * world :=
  match order with
  | [] => (pool, w)
  | i :: order' =>
      let '(pool', w') := resume i pool w in
      schedule order' pool' w'
  end.

(** [n] deliveries of one event, each handled before the next arrives. *)
Fixpoint redeliver (n : nat) (user_id : text) (event : WebhookEvent) (w : world)
  : world :=
  match n with
  | O => w
  | S n' => redeliver n' user_id event (snd (gmail_webhook user_id event w))
  end.

Definition new_world : world :=
  {| db := empty_database; clock := 0%Z; extraction_calls := 0 |}.

(** ** A concrete distance for the examples *)

Definition dot (a b : vector) : Q :=
  fold_right Qplus 0 (map (fun p => fst p * snd p) (combine a b)).

(** The square root of a rational whose numerator and denominator are
    perfect squares (rounded down on both otherwise). *)
Definition Qsqrt (x : Q) : Q :=
  let r := Qred x in
  Z.sqrt (Qnum r) # Z.to_pos (Z.sqrt (Zpos (Qden r))).

(** [1 - a.b / (|a| |b|)], exact when both norms are rational. *)
Definition exact_cosine_distance (a b : vector) : float :=
  Qred (1 - dot a b / (Qsqrt (dot a a) * Qsqrt (dot b b))).

(** The [i]-th unit vector of [vector(1536)]. *)
Definition unit_vector (i : nat) : vector :=
  repeat 0 i ++ 1 :: repeat 0 (vector_dims - S i).

Definition email (id : uuid) (user_id source_id : text)
  (source_created_at : timestamptz) (embedding : option vector)
  : Documents.row :=
  {| Documents.id := id;
     Documents.user_id := user_id;
     Documents.source := "gmail"%string;
     Documents.source_id := source_id;
     Documents.doc_type := "email"%string;
     Documents.subject := None;
     Documents.content := "pricing"%string;
     Documents.content_preview := None;
     Documents.metadata := Some "{}"%string;
     Documents.source_created_at := Some source_created_at;
     Documents.created_at := Some 1000%Z;
     Documents.updated_at := Some 1000%Z;
     Documents.vector_embedding := embedding |}.


(** * Specifications *)

(** The order ORDER BY [key] ASC puts rows in. *)
Definition key_le {A : Type} (key : A -> option float) (a b : A) : Prop :=
  Sql.asc_le (key a) (key b) = true.

(** A document that [match_documents] may return: its embedding, the query
    and the threshold are not NULL, its similarity is above the threshold,
    and it passes the filters that are given. *)
Definition qualifies (cosine_distance : vector -> vector -> float)
  (query_embedding : option vector) (match_threshold : option float)
  (filter_user_id filter_source : option text) (d : Documents.row) : Prop :=
  exists e q t,
    Documents.vector_embedding d = Some e /\
    query_embedding = Some q /\
    match_threshold = Some t /\
    t < 1 - cosine_distance e q /\
    (filter_user_id = None \/ filter_user_id = Some (Documents.user_id d)) /\
    (filter_source = None \/ filter_source = Some (Documents.source d)).

(** [r1] is at least as similar as [r2]. *)
Definition similarity_ge (r1 r2 : Match.row) : Prop :=
  exists s1 s2,
    Match.similarity r1 = Some s1 /\ Match.similarity r2 = Some s2 /\ s2 <= s1.

(** The results the query permits. ORDER BY fixes the order of the rows up
    to rows of equal key: any arrangement of the matching rows that ascends in
    the key, cut at the LIMIT, is a result. [match_documents] computes one. *)
Definition permits (cosine_distance : vector -> vector -> float)
  (query_embedding : option vector) (match_threshold : option float)
  (match_count : option Z) (filter_user_id filter_source : option text)
  (documents : list Documents.row) (rows : list Match.row) : Prop :=
  exists l,
    Permutation l (matching cosine_distance query_embedding match_threshold
                     filter_user_id filter_source documents) /\
    StronglySorted (key_le (order_key cosine_distance query_embedding)) l /\
    Sql.limit match_count (map (select cosine_distance query_embedding) l)
    = Ok rows.

(** ** Example data *)

(** Two mails of one user with the same embedding, the second one more
    recent; a mail of another user; a mail whose embedding is still NULL. *)
Definition older_email : Documents.row :=
  email 1%N "alice"%string "msg_1"%string 100%Z (Some (unit_vector 0)).
Definition newer_email : Documents.row :=
  email 2%N "alice"%string "msg_2"%string 200%Z (Some (unit_vector 0)).
Definition bob_email : Documents.row :=
  email 3%N "bob"%string "msg_3"%string 300%Z (Some (unit_vector 0)).
Definition unembedded_email : Documents.row :=
  email 4%N "alice"%string "msg_4"%string 400%Z None.
Definition orthogonal_email : Documents.row :=
  email 5%N "alice"%string "msg_5"%string 500%Z (Some (unit_vector 1)).

(** The query of the examples: the embedding of the first two mails. *)
Definition example_query : option vector := Some (unit_vector 0).

Definition example_select : Documents.row -> Match.row :=
  select exact_cosine_distance example_query.

(** [ROW] is [NEW] with [updated_at] set to [now] and nothing else changed. *)
Definition stamped (now : timestamptz) (NEW ROW : Documents.row) : Prop :=
  Documents.updated_at ROW = Some now /\
  Documents.id ROW = Documents.id NEW /\
  Documents.user_id ROW = Documents.user_id NEW /\
  Documents.source ROW = Documents.source NEW /\
  Documents.source_id ROW = Documents.source_id NEW /\
  Documents.doc_type ROW = Documents.doc_type NEW /\
  Documents.subject ROW = Documents.subject NEW /\
  Documents.content ROW = Documents.content NEW /\
  Documents.content_preview ROW = Documents.content_preview NEW /\
  Documents.metadata ROW = Documents.metadata NEW /\
  Documents.source_created_at ROW = Documents.source_created_at NEW /\
  Documents.created_at ROW = Documents.created_at NEW /\
  Documents.vector_embedding ROW = Documents.vector_embedding NEW.

(** A link of the first example mail to an entity of the graph. *)
Definition acme_link : DocumentEntities.row :=
  {| DocumentEntities.id := 6%N;
     DocumentEntities.document_id := 1%N;
     DocumentEntities.entity_uuid := "entity_acme"%string;
     DocumentEntities.entity_type := "Company"%string;
     DocumentEntities.entity_name := "Acme Corp"%string;
     DocumentEntities.mention_count := Some 1%Z;
     DocumentEntities.relevance_score := Some (9 # 10);
     DocumentEntities.created_at := Some 1000%Z |}.

Definition example_database : database :=
  {| documents := [older_email; unembedded_email];
     document_entities := [acme_link];
     processed_episodes := [];
     next_uuid := 7%N |}.

(** A history at the boundary: a link of the first example mail, a link
    with a relevance score of 2.5, the first link again with higher counts,
    and the deletion of another mail. *)
Definition bridge_history : list (timestamptz * operation) :=
  [(10%Z, LinkDocumentToEntity 1%N "entity_sarah"%string "Contact"%string
            "Sarah Johnson"%string 1%Z (4 # 10));
   (11%Z, LinkDocumentToEntity 1%N "entity_globex"%string "Company"%string
            "Globex"%string 1%Z (5 # 2));
   (12%Z, LinkDocumentToEntity 1%N "entity_sarah"%string "Contact"%string
            "Sarah Johnson"%string 3%Z (9 # 10));
   (13%Z, DeleteDocuments (fun d => N.eqb (Documents.id d) 4%N))].

(** Every link points to a stored document. *)
Definition referential_integrity (db : database) : Prop :=
  forall l, In l (document_entities db) ->
    exists d, In d (documents db) /\
              Documents.id d = DocumentEntities.document_id l.

(** The values [mark_episode_as_processed] inserts. *)
Definition episode_values (source source_id user_id : text)
  (episode_uuid : option uuid) : InsertProcessedEpisode.values :=
  {| InsertProcessedEpisode.user_id := Some user_id;
     InsertProcessedEpisode.source := Some source;
     InsertProcessedEpisode.source_id := Some source_id;
     InsertProcessedEpisode.episode_uuid := episode_uuid;
     InsertProcessedEpisode.processed_at := DEFAULT |}.

(** The rows of [documents] with a given (source, source_id, user_id). *)
Definition documents_of (source source_id user_id : text) (db : database)
  : list Documents.row :=
  filter (fun d => text3_eqb (Documents.unique_source_document d)
                             (source, source_id, user_id))
    (documents db).

(** The rows of [document_entities] with a given (document_id, entity_uuid). *)
Definition links_of (document_id : uuid) (entity_uuid : text) (db : database)
  : list DocumentEntities.row :=
  filter (is_link document_id entity_uuid) (document_entities db).

(** Values an INSERT into [documents] rejects for no reason of their own:
    the embedding, if any, has 1536 components, and [doc_type] and [content]
    are given. *)
Definition acceptable (doc : InsertDocument.values) : Prop :=
  (exists e, check_dims (InsertDocument.vector_embedding doc) = Ok e) /\
  InsertDocument.doc_type doc <> None /\
  InsertDocument.content doc <> None.

Definition pricing_mail : InsertDocument.values :=
  {| InsertDocument.user_id := Some "alice"%string;
     InsertDocument.source := Some "gmail"%string;
     InsertDocument.source_id := Some "msg_1"%string;
     InsertDocument.doc_type := Some "email"%string;
     InsertDocument.subject := Some "Pricing"%string;
     InsertDocument.content := Some "Pricing discussion"%string;
     InsertDocument.content_preview := None;
     InsertDocument.metadata := DEFAULT;
     InsertDocument.source_created_at := Some 100%Z;
     InsertDocument.created_at := DEFAULT;
     InsertDocument.updated_at := DEFAULT;
     InsertDocument.vector_embedding := None |}.

(** The same mail delivered again, with another subject line. *)
Definition pricing_mail_again : InsertDocument.values :=
  {| InsertDocument.user_id := Some "alice"%string;
     InsertDocument.source := Some "gmail"%string;
     InsertDocument.source_id := Some "msg_1"%string;
     InsertDocument.doc_type := Some "email"%string;
     InsertDocument.subject := Some "Re: Pricing"%string;
     InsertDocument.content := Some "Pricing discussion"%string;
     InsertDocument.content_preview := None;
     InsertDocument.metadata := DEFAULT;
     InsertDocument.source_created_at := Some 100%Z;
     InsertDocument.created_at := DEFAULT;
     InsertDocument.updated_at := DEFAULT;
     InsertDocument.vector_embedding := None |}.

(** A link of the first example mail with a relevance score of 2.5 and a
    mention count of 0. *)
Definition out_of_range_link : InsertDocumentEntity.values :=
  {| InsertDocumentEntity.document_id := Some 1%N;
     InsertDocumentEntity.entity_uuid := Some "entity_sarah"%string;
     InsertDocumentEntity.entity_type := Some "Contact"%string;
     InsertDocumentEntity.entity_name := Some "Sarah Johnson"%string;
     InsertDocumentEntity.mention_count := VALUE (Some 0%Z);
     InsertDocumentEntity.relevance_score := VALUE (Some (5 # 2));
     InsertDocumentEntity.created_at := DEFAULT |}.

(** The first example mail linked to an entity twice: one mention with
    relevance 0.4, then three mentions with relevance 0.9. *)
Definition linked_once : database :=
  exec 10%Z (LinkDocumentToEntity 1%N "entity_sarah"%string "Contact"%string
               "Sarah Johnson"%string 1%Z (4 # 10)) example_database.

Definition linked_twice : database :=
  exec 20%Z (LinkDocumentToEntity 1%N "entity_sarah"%string "Contact"%string
               "Sarah Johnson"%string 3%Z (9 # 10)) linked_once.

(** What a run left behind: the numbers of stored documents and of ledger
    rows, and the number of extraction calls. *)
Definition footprint (w : world) : nat * nat * nat :=
  (List.length (documents (db w)),
   List.length (processed_episodes (db w)),
   extraction_calls w).

(** Two deliveries of one event, for instance a webhook and its retry. *)
Definition retry (user_id : text) (event : WebhookEvent) : list request :=
  [deliver user_id event; deliver user_id event].

(** The two handlers take turns at every [await]. *)
Definition alternating : list nat := [0; 1; 0; 1; 0; 1]%nat.

(** The first handler returns before the second starts. *)
Definition one_after_the_other : list nat := [0; 0; 0; 1; 1; 1]%nat.

(** A mail that arrives with its embedding. *)
Definition embedded_mail : InsertDocument.values :=
  {| InsertDocument.user_id := Some "alice"%string;
     InsertDocument.source := Some "gmail"%string;
     InsertDocument.source_id := Some "msg_9"%string;
     InsertDocument.doc_type := Some "email"%string;
     InsertDocument.subject := None;
     InsertDocument.content := Some "Pricing"%string;
     InsertDocument.content_preview := None;
     InsertDocument.metadata := DEFAULT;
     InsertDocument.source_created_at := None;
     InsertDocument.created_at := DEFAULT;
     InsertDocument.updated_at := DEFAULT;
     InsertDocument.vector_embedding := Some (unit_vector 0) |}.

(** * The migration scripts *)

(** ** Migration 004: the embedding column *)

(** [ALTER TABLE documents DROP COLUMN IF EXISTS vector_embedding;
     ALTER TABLE documents ADD COLUMN vector_embedding vector(1536);]
    The new column is NULL in every row. A row trigger does not fire on
    ALTER TABLE. *)
Definition fix_vector_embeddings (db : database) : database :=
  {| documents := map (set_vector_embedding None) (documents db);
     document_entities := document_entities db;
     processed_episodes := processed_episodes db;
     next_uuid := next_uuid db |}.

(** ** The script that regenerates the embeddings *)

(** How the script ends when it does not run to its last line: an
    exception of Python, or the error of a statement the database refused. *)
Inductive script_error : Type :=
| TypeError
| APIError (e : sqlstate).

(** A row of [.select('id, subject, content')]: a NULL subject is [None]. *)
Record selected : Type := mkSelected {
  selected_id : uuid;
  selected_subject : option text;
  selected_content : text
}.

Definition is_null_embedding (d : Documents.row) : bool :=
  match Documents.vector_embedding d with
  | None => true
  | Some _ => false
  end.

(** [table('documents').select('id, subject, content')
      .is_('vector_embedding', 'null').execute()] *)
Definition select_null_embeddings (db : database) : list selected :=
  map (fun d => {| selected_id := Documents.id d;
                   selected_subject := Documents.subject d;
                   selected_content := Documents.content d |})
    (filter is_null_embedding (documents db)).

(** What an f-string prints for a value that may be [None]. *)
Definition format_value (v : option text) : text :=
  match v with
  | Some s => s
  | None => "None"%string
  end.

(** [f"{doc.get('subject', '')} {doc.get('content', '')}"]: both keys are in
    the row, so the defaults of [get] never apply. *)
Definition embedding_text (doc : selected) : text :=
  String.append (format_value (selected_subject doc))
    (String.append " "%string (selected_content doc)).

Section Regenerate.

(** [document_store._generate_embedding], the call to the embedding model,
    taken as a function of the text. *)
Variable _generate_embedding : text -> vector.

(** The loop of [regenerate]: one UPDATE by id per selected row, then the
    line that prints [doc.get('subject', 'Untitled')[:50]], which raises
    [TypeError] when the subject is [None]. Each UPDATE is a statement of its
    own, at a later time than the one before. *)
Fixpoint regenerate_loop (now : timestamptz) (data : list selected)
  (db : database) : option script_error * database :=
  match data with
  | [] => (None, db)
  | doc :: data' =>
      let embedding := _generate_embedding (embedding_text doc) in
      match update_documents now
              (fun d => N.eqb (Documents.id d) (selected_id doc))
              (set_vector_embedding (Some embedding)) db with
      | Err e => (Some (APIError e), db)
      | Ok db' =>
          match selected_subject doc with
          | None => (Some TypeError, db')
          | Some _ => regenerate_loop (now + 1)%Z data' db'
          end
      end
  end.

Definition regenerate (now : timestamptz) (db : database)
  : option script_error * database :=
  regenerate_loop now (select_null_embeddings db) db.

(** The row [regenerate] writes for [OLD]: the embedding of its subject and
    content, stamped by the trigger at some time from [now] on. *)
Definition regenerated (now : timestamptz) (OLD ROW : Documents.row) : Prop :=
  exists t,
    (now <= t)%Z /\
    ROW = update_updated_at_column t
            (set_vector_embedding
               (Some (_generate_embedding
                        (embedding_text
                           {| selected_id := Documents.id OLD;
                              selected_subject := Documents.subject OLD;
                              selected_content := Documents.content OLD |})))
               OLD).

End Regenerate.

(** The constraints the schema declares on [documents] and on the links to
    it: the primary key, [unique_source_document], the foreign key of
    [document_entities], and the type of the embedding column. *)
Definition documents_constraints (db : database) : Prop :=
  NoDup (map Documents.id (documents db)) /\
  NoDup (map Documents.unique_source_document (documents db)) /\
  referential_integrity db /\
  (forall d v, In d (documents db) ->
     Documents.vector_embedding d = Some v -> well_formed_vector v).

(** A generator that returns vectors of the column's type. *)
Definition well_formed_generator (g : text -> vector) : Prop :=
  forall s, well_formed_vector (g s).

(** A generator for the examples: the same vector for every text. *)
Definition constant_generator (_ : text) : vector := unit_vector 0.

Definition null_subject (doc : selected) : bool :=
  match selected_subject doc with
  | None => true
  | Some _ => false
  end.

(** The rows the loop gets to: all of them up to the first with a NULL
    subject, that one included. *)
Fixpoint reached (data : list selected) : list selected :=
  match data with
  | [] => []
  | doc :: data' =>
      doc :: (if null_subject doc then [] else reached data')
  end.

Definition is_reached (data : list selected) (d : Documents.row) : bool :=
  existsb (fun doc => N.eqb (Documents.id d) (selected_id doc)) (reached data).

(** The selected columns of a row. *)
Definition snapshot (d : Documents.row) : selected :=
  {| selected_id := Documents.id d;
     selected_subject := Documents.subject d;
     selected_content := Documents.content d |}.

(** What [regenerate] leaves of a row: a row without embedding is
    regenerated, a row with one is as it was. *)
Definition regenerated_if_null (generate : text -> vector) (now : timestamptz)
  (OLD ROW : Documents.row) : Prop :=
  match Documents.vector_embedding OLD with
  | None => regenerated generate now OLD ROW
  | Some _ => ROW = OLD
  end.

(** A store with one mail that has a subject and no embedding yet. *)
Definition titled_database : database :=
  snd (store 10%Z pricing_mail empty_database).

(** * Documents of an entity *)

(** [SELECT document_id FROM document_entities WHERE entity_uuid = $uuid] *)
Definition linked_document_ids (entity_uuid : text) (db : database)
  : list uuid :=
  map DocumentEntities.document_id
    (filter (fun l => String.eqb (DocumentEntities.entity_uuid l) entity_uuid)
       (document_entities db)).

(** [SELECT * FROM documents WHERE id IN (...)] *)
Definition documents_with_ids (ids : list uuid) (db : database)
  : list Documents.row :=
  filter (fun d => existsb (N.eqb (Documents.id d)) ids) (documents db).

(** The two steps one after the other. *)
Definition documents_of_entity (entity_uuid : text) (db : database)
  : list Documents.row :=
  documents_with_ids (linked_document_ids entity_uuid db) db.

(** [CONSTRAINT unique_document_entity] holds. *)
Definition links_constraint (db : database) : Prop :=
  NoDup (map DocumentEntities.unique_document_entity (document_entities db)).

Definition sarah_link : InsertDocumentEntity.values :=
  {| InsertDocumentEntity.document_id := Some 4%N;
     InsertDocumentEntity.entity_uuid := Some "entity_sarah"%string;
     InsertDocumentEntity.entity_type := Some "Contact"%string;
     InsertDocumentEntity.entity_name := Some "Sarah Johnson"%string;
     InsertDocumentEntity.mention_count := DEFAULT;
     InsertDocumentEntity.relevance_score := DEFAULT;
     InsertDocumentEntity.created_at := DEFAULT |}.

(** * The graph: cleaning duplicate episodes *)

(** An [Episodic] node of the graph. [id] is the node's identity in the
    graph store. *)
Module Episodic.
Record node : Type := mk {
  id : N;
  name : text;
  created_at : Z;
  group_id : text
}.
End Episodic.

(** The episodes and the relationships that start or end at them, each as
    the id of its episode and the entity at its other end. *)
Record graph : Type := mkGraph {
  episodes : list Episodic.node;
  relationships : list (N * text)
}.

Module Cypher.

(** ORDER BY e.created_at DESC, as a stable insertion sort of the order of
    the match. *)
Fixpoint insert_desc (x : Episodic.node) (l : list Episodic.node)
  : list Episodic.node :=
  match l with
  | [] => [x]
  | y :: l' =>
      if (Episodic.created_at y <=? Episodic.created_at x)%Z then x :: l
      else y :: insert_desc x l'
  end.

Fixpoint order_by_created_at_desc (l : list Episodic.node)
  : list Episodic.node :=
  match l with
  | [] => []
  | x :: l' => insert_desc x (order_by_created_at_desc l')
  end.

End Cypher.

Definition has_name (name : text) (e : Episodic.node) : bool :=
  String.eqb (Episodic.name e) name.

(** [MATCH (e:Episodic {name: $name}) WITH e ORDER BY e.created_at DESC] *)
Definition episodes_newest_first (name : text) (g : graph)
  : list Episodic.node :=
  Cypher.order_by_created_at_desc (filter (has_name name) (episodes g)).

(** [... SKIP 1]: all of them but the first. *)
Definition duplicates (name : text) (g : graph) : list Episodic.node :=
  skipn 1 (episodes_newest_first name g).

Definition is_among (l : list Episodic.node) (id : N) : bool :=
  existsb (fun e => N.eqb (Episodic.id e) id) l.

(** [... DETACH DELETE e RETURN count(e) as deleted], and the line
    [deleted = result[0]['deleted'] if result else 0]: the query returns one
    row, the count. The nodes go with the relationships attached to them. *)
Definition delete_duplicates (name : text) (g : graph) : nat * graph :=
  let doomed := duplicates name g in
  (List.length doomed,
   {| episodes :=
        filter (fun e => negb (is_among doomed (Episodic.id e))) (episodes g);
      relationships :=
        filter (fun r => negb (is_among doomed (fst r))) (relationships g) |}).

(** The loop of [clean_duplicates] over the names: the counts it prints and
    the graph it leaves. *)
Fixpoint clean_duplicates (names : list text) (g : graph) : list nat * graph :=
  match names with
  | [] => ([], g)
  | name :: names' =>
      let '(deleted, g') := delete_duplicates name g in
      let '(counts, g'') := clean_duplicates names' g' in
      (deleted :: counts, g'')
  end.

(** The names the script cleans. *)
Definition duplicate_names : list text :=
  ["Email: New Gemini features Better videos presentations & more"%string;
   "Email: 1 new notification since 12 51 pm Oct 7 2025"%string].

(** The graph of the analysis, in small: one episode stored twice, one
    stored once. *)
Definition gemini_first : Episodic.node :=
  Episodic.mk 1%N
    "Email: New Gemini features Better videos presentations & more"%string
    100%Z "8d6126eddfb54fff9d72b84fb0cb889a"%string.
Definition gemini_second : Episodic.node :=
  Episodic.mk 2%N
    "Email: New Gemini features Better videos presentations & more"%string
    200%Z "8d6126eddfb54fff9d72b84fb0cb889a"%string.
Definition initech_episode : Episodic.node :=
  Episodic.mk 3%N "Email: Initech - Trial Conversion Opportunity"%string
    150%Z "8d6126eddfb54fff9d72b84fb0cb889a"%string.

Definition example_graph : graph :=
  {| episodes := [gemini_first; initech_episode; gemini_second];
     relationships :=
       [(1%N, "Gemini App"%string); (2%N, "Gemini App"%string);
        (3%N, "Initech"%string)] |}.

(** [a] is at least as recent as [b]. *)
Definition at_least_as_recent (a b : Episodic.node) : Prop :=
  (Episodic.created_at b <= Episodic.created_at a)%Z.

Definition gemini_name : text :=
  "Email: New Gemini features Better videos presentations & more"%string.

(** ** TABLE processed_webhooks *)

Definition bigint : Type := Z.
Definition bigint_max : bigint := 9223372036854775807%Z.

Module ProcessedWebhooks.
Record row : Type := mk {
  id : bigint;
  message_id : text;
  user_id : text;
  processed_at : option timestamptz
}.

(** The columns of [UNIQUE(message_id, user_id)]. *)
Definition unique_key (w : row) : text * text := (message_id w, user_id w).
End ProcessedWebhooks.

Definition text2_eqb (a b : text * text) : bool :=
  String.eqb (fst a) (fst b) && String.eqb (snd a) (snd b).

(** The table, and the sequence behind its [BIGSERIAL] column as the value
    the next [nextval] returns. *)
Record webhooks : Type := mkWebhooks {
  processed_webhooks : list ProcessedWebhooks.row;
  processed_webhooks_id_seq : bigint
}.

Definition empty_webhooks : webhooks :=
  {| processed_webhooks := []; processed_webhooks_id_seq := 1%Z |}.

(** ** INSERT INTO processed_webhooks *)

Module InsertProcessedWebhook.
Record values : Type := mk {
  message_id : option text;
  user_id : option text;
  processed_at : column timestamptz
}.
End InsertProcessedWebhook.

(** What the statement answers: the id of the new row, an error of the
    table's constraints, or the error of a sequence that has run out. *)
Inductive inserted : Type :=
| Inserted (id : bigint)
| Rejected (e : sqlstate)
| sequence_generator_limit_exceeded.

(** The id is drawn from the sequence when the row is formed, before its
    constraints are checked: a rejected row has used its id, and the
    sequence does not go back. *)
Definition insert_processed_webhook (now : timestamptz)
  (v : InsertProcessedWebhook.values) (t : webhooks) : inserted * webhooks :=
  if (bigint_max <? processed_webhooks_id_seq t)%Z
  then (sequence_generator_limit_exceeded, t)
  else
    let id := processed_webhooks_id_seq t in
    let seq := (processed_webhooks_id_seq t + 1)%Z in
    let rejected e :=
      (Rejected e,
       {| processed_webhooks := processed_webhooks t;
          processed_webhooks_id_seq := seq |}) in
    match InsertProcessedWebhook.message_id v,
          InsertProcessedWebhook.user_id v with
    | None, _ => rejected not_null_violation
    | _, None => rejected not_null_violation
    | Some message_id, Some user_id =>
        let w :=
          {| ProcessedWebhooks.id := id;
             ProcessedWebhooks.message_id := message_id;
             ProcessedWebhooks.user_id := user_id;
             ProcessedWebhooks.processed_at :=
               or_default (InsertProcessedWebhook.processed_at v) (Some now) |} in
        if existsb (fun w' => text2_eqb (ProcessedWebhooks.unique_key w')
                                        (ProcessedWebhooks.unique_key w))
             (processed_webhooks t)
        then rejected unique_violation
        else (Inserted id,
              {| processed_webhooks := processed_webhooks t ++ [w];
                 processed_webhooks_id_seq := seq |})
    end.

(** One INSERT after the other, each at its time. *)
Fixpoint insert_processed_webhooks
  (requests : list (timestamptz * InsertProcessedWebhook.values))
  (t : webhooks) : list inserted * webhooks :=
  match requests with
  | [] => ([], t)
  | (now, v) :: requests' =>
      let '(answer, t') := insert_processed_webhook now v t in
      let '(answers, t'') := insert_processed_webhooks requests' t' in
      (answer :: answers, t'')
  end.

Definition is_inserted (a : inserted) : bool :=
  match a with
  | Inserted _ => true
  | _ => false
  end.

(** The event an INSERT is for, when it names one. *)
Definition requested_event (r : timestamptz * InsertProcessedWebhook.values)
  : option (text * text) :=
  match InsertProcessedWebhook.message_id (snd r),
        InsertProcessedWebhook.user_id (snd r) with
  | Some message_id, Some user_id => Some (message_id, user_id)
  | _, _ => None
  end.

(** PRIMARY KEY (id) and UNIQUE(message_id, user_id), and the ids of the
    rows below the sequence that gave them. *)
Definition webhooks_constraints (t : webhooks) : Prop :=
  NoDup (map ProcessedWebhooks.id (processed_webhooks t)) /\
  NoDup (map ProcessedWebhooks.unique_key (processed_webhooks t)) /\
  Forall (fun w => (ProcessedWebhooks.id w < processed_webhooks_id_seq t)%Z)
    (processed_webhooks t).

(** A webhook of message 18c2 for alice, delivered twice with a malformed
    delivery in between, and the same message for bob. *)
Definition webhook_deliveries
  : list (timestamptz * InsertProcessedWebhook.values) :=
  [(10%Z, InsertProcessedWebhook.mk (Some "18c2"%string) (Some "alice"%string) DEFAULT);
   (11%Z, InsertProcessedWebhook.mk None (Some "alice"%string) DEFAULT);
   (12%Z, InsertProcessedWebhook.mk (Some "18c2"%string) (Some "alice"%string) DEFAULT);
   (13%Z, InsertProcessedWebhook.mk (Some "18c2"%string) (Some "bob"%string) DEFAULT)].

(** ** Deleting the seed emails *)

(** [db_service.client.table('documents').delete().eq('source_id', source_id).execute()] *)
Definition delete_by_source_id (source_id : text) (db : database) : database :=
  delete_documents (fun d => String.eqb (Documents.source_id d) source_id) db.

Definition test_ids : list text :=
  ["test_acme_001"%string; "test_techflow_001"%string;
   "test_globex_001"%string; "test_initech_001"%string].

(** [for source_id in test_ids: ...] *)
Definition delete_seed_emails (ids : list text) (db : database) : database :=
  fold_left (fun db' source_id => delete_by_source_id source_id db') ids db.

(** The source id of the document is one of the list. *)
Definition is_listed (ids : list text) (d : Documents.row) : bool :=
  existsb (String.eqb (Documents.source_id d)) ids.

(** A seed email with a link to its entity, next to a mail from Gmail. *)
Definition seed_email : Documents.row :=
  email 8%N "seed_user"%string "test_acme_001"%string 50%Z None.

Definition seed_link : DocumentEntities.row :=
  {| DocumentEntities.id := 9%N;
     DocumentEntities.document_id := 8%N;
     DocumentEntities.entity_uuid := "entity_acme"%string;
     DocumentEntities.entity_type := "Company"%string;
     DocumentEntities.entity_name := "Acme Corp"%string;
     DocumentEntities.mention_count := Some 1%Z;
     DocumentEntities.relevance_score := Some (9 # 10);
     DocumentEntities.created_at := Some 1000%Z |}.

Definition seeded_database : database :=
  {| documents := [seed_email; older_email];
     document_entities := [seed_link; acme_link];
     processed_episodes := [];
     next_uuid := 10%N |}.
(** * Properties *)

(** ** ORDER BY *)

Lemma Qle_bool_false (x y : Q) : Qle_bool x y = false -> y <= x.
Proof.
  intros E. apply Qlt_le_weak, Qnot_le_lt. intros H.
  apply Qle_bool_iff in H. congruence.
Qed.

Lemma asc_le_total (a b : option float) :
  Sql.asc_le a b = false -> Sql.asc_le b a = true.
Proof.
  destruct a as [x|], b as [y|]; simpl; try congruence.
  intros E. apply Qle_bool_iff, Qle_bool_false, E.
Qed.

Lemma asc_le_trans (a b c : option float) :
  Sql.asc_le a b = true -> Sql.asc_le b c = true -> Sql.asc_le a c = true.
Proof.
  destruct a as [x|], b as [y|], c as [z|]; simpl; try congruence.
  rewrite !Qle_bool_iff. apply Qle_trans.
Qed.

Section OrderByFacts.
Context {A : Type} (key : A -> option float).

Lemma insert_perm (x : A) (l : list A) :
  Permutation (x :: l) (Sql.insert key x l).
Proof.
  induction l as [|y l IH]; simpl.
  - apply Permutation_refl.
  - destruct (Sql.asc_le (key x) (key y)).
    + apply Permutation_refl.
    + eapply perm_trans; [apply perm_swap|]. now apply perm_skip.
Qed.

Lemma order_by_perm (l : list A) : Permutation l (Sql.order_by key l).
Proof.
  induction l as [|x l IH]; simpl.
  - constructor.
  - eapply perm_trans; [apply perm_skip, IH | apply insert_perm].
Qed.

Lemma order_by_In (l : list A) (x : A) : In x (Sql.order_by key l) <-> In x l.
Proof.
  split; apply Permutation_in;
    [apply Permutation_sym|]; apply order_by_perm.
Qed.

Lemma order_by_length (l : list A) :
  List.length (Sql.order_by key l) = List.length l.
Proof. symmetry. apply Permutation_length, order_by_perm. Qed.

Lemma insert_sorted (x : A) (l : list A) :
  StronglySorted (key_le key) l -> StronglySorted (key_le key) (Sql.insert key x l).
Proof.
  induction 1 as [|y l Hl IH Hy]; simpl.
  - repeat constructor.
  - destruct (Sql.asc_le (key x) (key y)) eqn:E.
    + constructor; [now constructor|].
      constructor; [exact E|].
      eapply Forall_impl; [|exact Hy].
      intros z Hz. unfold key_le in *. eapply asc_le_trans; eassumption.
    + constructor; [exact IH|].
      eapply Permutation_Forall; [apply insert_perm|].
      constructor; [|exact Hy].
      apply asc_le_total, E.
Qed.

Lemma order_by_sorted (l : list A) : StronglySorted (key_le key) (Sql.order_by key l).
Proof.
  induction l as [|x l IH]; simpl; [constructor | now apply insert_sorted].
Qed.

End OrderByFacts.

Lemma firstn_In {A : Type} (n : nat) (l : list A) (x : A) :
  In x (firstn n l) -> In x l.
Proof.
  revert l. induction n as [|n IH]; intros [|y l]; simpl; try tauto.
  intros [->|H]; auto.
Qed.

Lemma StronglySorted_firstn {A : Type} (R : A -> A -> Prop) (n : nat) (l : list A) :
  StronglySorted R l -> StronglySorted R (firstn n l).
Proof.
  intros H. revert n. induction H as [|x l Hl IH Hx]; intros [|n]; simpl;
    try constructor.
  - apply IH.
  - rewrite Forall_forall in *. intros y Hy. apply Hx.
    eapply firstn_In. exact Hy.
Qed.

Lemma StronglySorted_map_on {A B : Type} (P : A -> Prop) (R : A -> A -> Prop)
  (R' : B -> B -> Prop) (f : A -> B) (l : list A) :
  (forall a b, P a -> P b -> R a b -> R' (f a) (f b)) ->
  Forall P l -> StronglySorted R l -> StronglySorted R' (map f l).
Proof.
  intros HR HP HS. induction HS as [|x l Hl IH Hx]; simpl; constructor.
  - apply IH. now inversion HP.
  - inversion HP as [|? ? Px Pl]; subst.
    rewrite Forall_forall in *. intros y Hy.
    apply in_map_iff in Hy as (a & <- & Ha). auto.
Qed.

Lemma limit_Ok_inv {A : Type} (n : option Z) (l rows : list A) :
  Sql.limit n l = Ok rows ->
  (n = None /\ rows = l) \/
  (exists z, n = Some z /\ (0 <= z)%Z /\ rows = firstn (Z.to_nat z) l).
Proof.
  unfold Sql.limit. destruct n as [z|].
  - destruct (Z.ltb_spec z 0); [discriminate|].
    intros [= <-]. right. eauto.
  - intros [= <-]. now left.
Qed.

Lemma limit_In {A : Type} (n : option Z) (l rows : list A) (x : A) :
  Sql.limit n l = Ok rows -> In x rows -> In x l.
Proof.
  intros H Hx. apply limit_Ok_inv in H as [[_ ->]|(z & _ & _ & ->)]; auto.
  eapply firstn_In. exact Hx.
Qed.

(** ** match_documents *)

Section MatchDocumentsFacts.
Variable cosine_distance : vector -> vector -> float.
Variable query_embedding : option vector.
Variable match_threshold : option float.
Variable match_count : option Z.
Variable filter_user_id filter_source : option text.

Let qualifies' := qualifies cosine_distance query_embedding match_threshold
                    filter_user_id filter_source.
Let match_where' := match_where cosine_distance query_embedding match_threshold
                      filter_user_id filter_source.
Let select' := select cosine_distance query_embedding.

Lemma holds_true (c : option bool) : Sql.holds c = true <-> c = Some true.
Proof. destruct c as [[|]|]; simpl; split; congruence. Qed.

Lemma holds_and (a b : option bool) :
  Sql.holds (Sql.and a b) = true <-> Sql.holds a = true /\ Sql.holds b = true.
Proof. destruct a as [[|]|], b as [[|]|]; simpl; intuition congruence. Qed.

Lemma filter_text_holds (f : option text) (x : text) :
  Sql.or (Sql.is_null f) (Sql.eq_text (Some x) f) = Some true <->
  (f = None \/ f = Some x).
Proof.
  destruct f as [y|]; simpl.
  - destruct (String.eqb_spec x y) as [->|N]; split; auto; try discriminate.
    intros [H|H]; [discriminate | congruence].
  - split; auto.
Qed.

Lemma gt_holds (a b : option float) :
  Sql.holds (Sql.gt a b) = true <-> exists x y, a = Some x /\ b = Some y /\ y < x.
Proof.
  destruct a as [x|], b as [y|]; simpl;
    try (split; [discriminate | intros (? & ? & ? & ? & _); discriminate]).
  destruct (Qle_bool x y) eqn:E; simpl; split; try discriminate.
  - intros (x' & y' & [= <-] & [= <-] & H).
    apply Qle_bool_iff in E. exfalso. eapply Qlt_not_le; eassumption.
  - intros _. exists x, y. repeat split.
    apply Qnot_le_lt. intros H. apply Qle_bool_iff in H. congruence.
  - reflexivity.
Qed.

Lemma match_where_holds (d : Documents.row) :
  Sql.holds (match_where' d) = true <-> qualifies' d.
Proof.
  unfold match_where', match_where, qualifies', qualifies.
  rewrite !holds_and, gt_holds, !holds_true, !filter_text_holds.
  unfold similarity_of, distance. split.
  - intros ((Hu & Hs) & x & t & Hx & Ht & Hlt).
    destruct (Documents.vector_embedding d) as [e|]; [|discriminate].
    destruct query_embedding as [q|]; [|discriminate].
    simpl in Hx. injection Hx as <-.
    exists e, q, t. repeat split; assumption.
  - intros (e & q & t & -> & -> & Ht & Hlt & Hu & Hs).
    split; [auto|]. simpl. eauto.
Qed.

Lemma matching_In (documents : list Documents.row) (d : Documents.row) :
  In d (matching cosine_distance query_embedding match_threshold
          filter_user_id filter_source documents) <->
  In d documents /\ qualifies' d.
Proof.
  unfold matching. rewrite filter_In.
  split; intros [H1 H2]; split; auto; now apply match_where_holds.
Qed.

Lemma qualifies_similarity (d : Documents.row) :
  qualifies' d ->
  exists e q,
    Documents.vector_embedding d = Some e /\ query_embedding = Some q /\
    Match.similarity (select' d) = Some (1 - cosine_distance e q) /\
    order_key cosine_distance query_embedding d = Some (cosine_distance e q).
Proof.
  intros (e & q & t & He & Hq & _). exists e, q.
  unfold select', select, similarity_of, order_key, distance. simpl.
  rewrite He, Hq. auto.
Qed.

Lemma match_documents_sound (documents : list Documents.row)
  (rows : list Match.row) (r : Match.row) :
  match_documents cosine_distance query_embedding match_threshold match_count
    filter_user_id filter_source documents = Ok rows ->
  In r rows ->
  exists d, In d documents /\ r = select' d /\ qualifies' d.
Proof.
  unfold match_documents. intros H Hr.
  eapply limit_In in Hr; [|exact H].
  apply in_map_iff in Hr as (d & <- & Hd).
  apply order_by_In, matching_In in Hd as [Hd Hq]. eauto.
Qed.

Lemma match_documents_complete (documents : list Documents.row)
  (rows : list Match.row) (d : Documents.row) :
  match_documents cosine_distance query_embedding match_threshold match_count
    filter_user_id filter_source documents = Ok rows ->
  In d documents -> qualifies' d ->
  (match_count = None \/
   exists z, match_count = Some z /\
     (List.length (matching cosine_distance query_embedding match_threshold
                     filter_user_id filter_source documents) <= Z.to_nat z)%nat) ->
  In (select' d) rows.
Proof.
  unfold match_documents. intros H Hd Hq Hk.
  assert (In (select' d)
            (map (select cosine_distance query_embedding)
               (Sql.order_by (order_key cosine_distance query_embedding)
                  (matching cosine_distance query_embedding match_threshold
                     filter_user_id filter_source documents)))) as Hin.
  { apply in_map, order_by_In, matching_In. auto. }
  apply limit_Ok_inv in H as [[_ ->]|(z & Hz & _ & ->)]; [exact Hin|].
  destruct Hk as [Hk|(z' & Hk & Hlen)]; [congruence|].
  assert (z' = z) as -> by congruence.
  rewrite firstn_all2; [exact Hin|].
  now rewrite length_map, order_by_length.
Qed.

Lemma match_documents_length (documents : list Documents.row)
  (rows : list Match.row) (z : Z) :
  match_documents cosine_distance query_embedding match_threshold (Some z)
    filter_user_id filter_source documents = Ok rows ->
  (0 <= z)%Z /\ (Z.of_nat (List.length rows) <= z)%Z.
Proof.
  unfold match_documents. intros H.
  apply limit_Ok_inv in H as [[H _]|(z' & Hz & Hpos & ->)]; [discriminate|].
  injection Hz as <-. split; [exact Hpos|].
  pose proof (firstn_le_length (Z.to_nat z)
    (map (select cosine_distance query_embedding)
       (Sql.order_by (order_key cosine_distance query_embedding)
          (matching cosine_distance query_embedding match_threshold
             filter_user_id filter_source documents)))). lia.
Qed.

Lemma match_documents_permits (documents : list Documents.row)
  (rows : list Match.row) :
  match_documents cosine_distance query_embedding match_threshold match_count
    filter_user_id filter_source documents = Ok rows ->
  permits cosine_distance query_embedding match_threshold match_count
    filter_user_id filter_source documents rows.
Proof.
  intros H. eexists. split; [|split; [|exact H]].
  - apply Permutation_sym, order_by_perm.
  - apply order_by_sorted.
Qed.

Lemma permits_sorted (documents : list Documents.row) (rows : list Match.row) :
  permits cosine_distance query_embedding match_threshold match_count
    filter_user_id filter_source documents rows ->
  StronglySorted similarity_ge rows.
Proof.
  intros (l & Hperm & Hsorted & H).
  assert (StronglySorted similarity_ge
            (map (select cosine_distance query_embedding) l)) as Hs.
  { eapply (StronglySorted_map_on qualifies'
              (key_le (order_key cosine_distance query_embedding))).
    - intros a b Ha Hb Hab.
      apply qualifies_similarity in Ha as (ea & qa & _ & Hqa & Hsa & Hka).
      apply qualifies_similarity in Hb as (eb & qb & _ & Hqb & Hsb & Hkb).
      assert (qb = qa) as -> by congruence.
      unfold key_le in Hab. rewrite Hka, Hkb in Hab. simpl in Hab.
      apply Qle_bool_iff in Hab.
      exists (1 - cosine_distance ea qa), (1 - cosine_distance eb qa).
      repeat split; try assumption.
      unfold Qminus. apply Qplus_le_r, Qopp_le_compat, Hab.
    - apply Forall_forall. intros d Hd.
      eapply Permutation_in in Hd; [|exact Hperm].
      now apply matching_In in Hd.
    - exact Hsorted. }
  apply limit_Ok_inv in H as [[_ ->]|(z & _ & _ & ->)]; [exact Hs|].
  now apply StronglySorted_firstn.
Qed.

Lemma match_documents_sorted (documents : list Documents.row)
  (rows : list Match.row) :
  match_documents cosine_distance query_embedding match_threshold match_count
    filter_user_id filter_source documents = Ok rows ->
  StronglySorted similarity_ge rows.
Proof. intros H. eapply permits_sorted, match_documents_permits, H. Qed.

Lemma match_documents_total (documents : list Documents.row) :
  (match_count = None \/ exists z, match_count = Some z /\ (0 <= z)%Z) ->
  exists rows,
    match_documents cosine_distance query_embedding match_threshold match_count
      filter_user_id filter_source documents = Ok rows.
Proof.
  unfold match_documents, Sql.limit.
  intros [->|(z & -> & Hz)]; [eauto|].
  destruct (Z.ltb_spec z 0); [lia | eauto].
Qed.

End MatchDocumentsFacts.

(** ** Search: order of the results *)

(** The embeddings of the examples are vectors of the column's type. *)
Lemma unit_vector_well_formed :
  well_formed_vector (unit_vector 0) /\ well_formed_vector (unit_vector 1).
Proof. split; vm_compute; reflexivity. Qed.

(** C2, as the function has it: with a count that is NULL or not negative
    the search returns rows; the similarity of a returned row is
    [1 - cosineDistance] of its document's embedding and the query, and the
    rows come in non-increasing order of that similarity, as do the rows of
    every result the query permits. The ORDER BY clause names the distance
    only, so rows of equal similarity are in no order of
    [source_created_at]. *)
Theorem match_documents_similarity_order
  (cosine_distance : vector -> vector -> float)
  (query_embedding : option vector) (match_threshold : option float)
  (match_count : option Z) (filter_user_id filter_source : option text)
  (documents : list Documents.row) :
  (match_count = None \/ exists z, match_count = Some z /\ (0 <= z)%Z) ->
  exists rows,
    match_documents cosine_distance query_embedding match_threshold match_count
      filter_user_id filter_source documents = Ok rows /\
    (forall r, In r rows ->
       exists d e q,
         In d documents /\ r = select cosine_distance query_embedding d /\
         Documents.vector_embedding d = Some e /\ query_embedding = Some q /\
         Match.similarity r = Some (1 - cosine_distance e q)) /\
    StronglySorted similarity_ge rows /\
    (forall rows',
       permits cosine_distance query_embedding match_threshold match_count
         filter_user_id filter_source documents rows' ->
       StronglySorted similarity_ge rows').
Proof.
  intros Hk.
  destruct (match_documents_total cosine_distance query_embedding
              match_threshold match_count filter_user_id filter_source
              documents Hk) as (rows & H).
  exists rows. split; [exact H|]. split; [|split].
  - intros r Hr.
    destruct (match_documents_sound _ _ _ _ _ _ _ _ _ H Hr) as (d & Hd & -> & Hq).
    destruct (qualifies_similarity _ _ _ _ _ _ Hq) as (e & q & He & Hqe & Hs & _).
    exists d, e, q. auto.
  - eapply match_documents_sorted, H.
  - intros rows'. apply permits_sorted.
Qed.

Lemma match_documents_similarity_order_witness :
  exists rows,
    match_documents exact_cosine_distance example_query (Some (-1 # 2))
      (Some 10%Z) None None [orthogonal_email; unembedded_email; newer_email]
    = Ok rows /\
    (forall r, In r rows ->
       exists d e q,
         In d [orthogonal_email; unembedded_email; newer_email] /\
         r = select exact_cosine_distance example_query d /\
         Documents.vector_embedding d = Some e /\ example_query = Some q /\
         Match.similarity r = Some (1 - exact_cosine_distance e q)) /\
    StronglySorted similarity_ge rows /\
    (forall rows',
       permits exact_cosine_distance example_query (Some (-1 # 2))
         (Some 10%Z) None None
         [orthogonal_email; unembedded_email; newer_email] rows' ->
       StronglySorted similarity_ge rows').
Proof.
  apply (match_documents_similarity_order exact_cosine_distance example_query
           (Some (-1 # 2)) (Some 10%Z) None None
           [orthogonal_email; unembedded_email; newer_email]).
  right. exists 10%Z. split; [reflexivity | lia].
Defined.

Lemma match_documents_order_example :
  match_documents exact_cosine_distance example_query (Some (-1 # 2))
    (Some 10%Z) None None [orthogonal_email; unembedded_email; newer_email]
  = Ok [example_select newer_email; example_select orthogonal_email] /\
  map Match.similarity
    [example_select newer_email; example_select orthogonal_email]
  = [Some 1; Some 0].
Proof. vm_compute. split; reflexivity. Qed.

(** C2, as the spec states it, fails: two mails with the same similarity come
    out in scan order, the older one first, and in the other order when the
    table holds them the other way round; the query permits both orders on
    either table. *)
Lemma match_documents_no_tie_break :
  match_documents exact_cosine_distance example_query (Some (1 # 2))
    (Some 10%Z) None None [older_email; newer_email]
  = Ok [example_select older_email; example_select newer_email] /\
  permits exact_cosine_distance example_query (Some (1 # 2))
    (Some 10%Z) None None [newer_email; older_email]
    [example_select older_email; example_select newer_email] /\
  match_documents exact_cosine_distance example_query (Some (1 # 2))
    (Some 10%Z) None None [newer_email; older_email]
  = Ok [example_select newer_email; example_select older_email] /\
  Match.similarity (example_select older_email) = Some 1 /\
  Match.similarity (example_select newer_email) = Some 1 /\
  Match.source_created_at (example_select older_email) = Some 100%Z /\
  Match.source_created_at (example_select newer_email) = Some 200%Z.
Proof.
  split; [vm_compute; reflexivity|]. split.
  - exists [older_email; newer_email]. split; [|split].
    + replace (matching _ _ _ _ _ _) with [newer_email; older_email]
        by (vm_compute; reflexivity).
      apply perm_swap.
    + repeat constructor; vm_compute; reflexivity.
    + vm_compute. reflexivity.
  - vm_compute. repeat split; reflexivity.
Qed.

(** ** Search: threshold and limit *)

(** C3, as the function has it: with a count that is NULL or not negative
    the search returns rows; a returned row is the row of a document whose
    embedding is not NULL, whose similarity is strictly above the threshold
    and which passes the filters given; every such document is returned when
    the limit leaves room for all of them; and no more than [match_count] rows
    are returned. *)
Theorem match_documents_threshold_and_limit
  (cosine_distance : vector -> vector -> float)
  (query_embedding : option vector) (match_threshold : option float)
  (match_count : option Z) (filter_user_id filter_source : option text)
  (documents : list Documents.row) :
  (match_count = None \/ exists z, match_count = Some z /\ (0 <= z)%Z) ->
  exists rows,
    match_documents cosine_distance query_embedding match_threshold match_count
      filter_user_id filter_source documents = Ok rows /\
    (forall r, In r rows ->
       exists d,
         In d documents /\ r = select cosine_distance query_embedding d /\
         qualifies cosine_distance query_embedding match_threshold
           filter_user_id filter_source d) /\
    (forall d,
       In d documents ->
       qualifies cosine_distance query_embedding match_threshold
         filter_user_id filter_source d ->
       (match_count = None \/
        exists z, match_count = Some z /\
          (List.length (matching cosine_distance query_embedding
                          match_threshold filter_user_id filter_source
                          documents)
           <= Z.to_nat z)%nat) ->
       In (select cosine_distance query_embedding d) rows) /\
    (forall z, match_count = Some z ->
       (Z.of_nat (List.length rows) <= z)%Z).
Proof.
  intros Hk.
  destruct (match_documents_total cosine_distance query_embedding
              match_threshold match_count filter_user_id filter_source
              documents Hk) as (rows & H).
  exists rows. split; [exact H|]. repeat split.
  - intros r Hr. eapply match_documents_sound; eassumption.
  - intros d Hd Hq Hk'. eapply match_documents_complete; eassumption.
  - intros z ->. eapply match_documents_length, H.
Qed.

Lemma match_documents_threshold_and_limit_witness :
  exists rows,
    match_documents exact_cosine_distance example_query (Some (1 # 2))
      (Some 1%Z) None None [orthogonal_email; unembedded_email; newer_email]
    = Ok rows /\
    (forall r, In r rows ->
       exists d,
         In d [orthogonal_email; unembedded_email; newer_email] /\
         r = select exact_cosine_distance example_query d /\
         qualifies exact_cosine_distance example_query (Some (1 # 2))
           None None d) /\
    (forall d,
       In d [orthogonal_email; unembedded_email; newer_email] ->
       qualifies exact_cosine_distance example_query (Some (1 # 2))
         None None d ->
       (Some 1%Z = None \/
        exists z, Some 1%Z = Some z /\
          (List.length (matching exact_cosine_distance example_query
                          (Some (1 # 2)) None None
                          [orthogonal_email; unembedded_email; newer_email])
           <= Z.to_nat z)%nat) ->
       In (select exact_cosine_distance example_query d) rows) /\
    (forall z, Some 1%Z = Some z -> (Z.of_nat (List.length rows) <= z)%Z).
Proof.
  apply (match_documents_threshold_and_limit exact_cosine_distance
           example_query (Some (1 # 2)) (Some 1%Z) None None
           [orthogonal_email; unembedded_email; newer_email]).
  right. exists 1%Z. split; [reflexivity | lia].
Defined.

Lemma match_documents_threshold_example :
  match_documents exact_cosine_distance example_query (Some (1 # 2))
    (Some 1%Z) None None [orthogonal_email; unembedded_email; newer_email]
  = Ok [example_select newer_email] /\
  match_documents exact_cosine_distance example_query (Some (-1 # 2))
    (Some 1%Z) None None [orthogonal_email; unembedded_email; newer_email]
  = Ok [example_select newer_email] /\
  match_documents exact_cosine_distance example_query (Some (-1 # 2))
    (Some (-1)%Z) None None [orthogonal_email; unembedded_email; newer_email]
  = Err invalid_row_count_in_limit_clause.
Proof. vm_compute. repeat split; reflexivity. Qed.

(** C3, as the spec states it, fails: a mail whose similarity is exactly the
    threshold is left out. *)
Lemma match_documents_excludes_threshold :
  Documents.vector_embedding newer_email = Some (unit_vector 0) /\
  similarity_of exact_cosine_distance example_query newer_email = Some 1 /\
  match_documents exact_cosine_distance example_query (Some 1) (Some 10%Z)
    None None [newer_email] = Ok [].
Proof. vm_compute. repeat split; reflexivity. Qed.

(** ** Search: the optional filters *)

(** C10: with a count that is NULL or not negative the search returns rows
    whatever the filters; with [filter_user_id] NULL a document of any user is
    returned when it passes the threshold (and the source filter, if one is
    given, and the limit leaves room), and likewise for [filter_source]; a
    filter that is given restricts the rows to that user, or to that source. *)
Theorem match_documents_optional_filters
  (cosine_distance : vector -> vector -> float)
  (q : vector) (t : float) (match_count : option Z)
  (documents : list Documents.row) :
  ((match_count = None \/ exists z, match_count = Some z /\ (0 <= z)%Z) ->
   forall filter_user_id filter_source,
   exists rows,
     match_documents cosine_distance (Some q) (Some t) match_count
       filter_user_id filter_source documents = Ok rows) /\
  (forall filter_source rows d e,
     match_documents cosine_distance (Some q) (Some t) match_count
       None filter_source documents = Ok rows ->
     In d documents ->
     Documents.vector_embedding d = Some e ->
     t < 1 - cosine_distance e q ->
     (filter_source = None \/ filter_source = Some (Documents.source d)) ->
     (match_count = None \/
      exists z, match_count = Some z /\
        (List.length (matching cosine_distance (Some q) (Some t)
                        None filter_source documents) <= Z.to_nat z)%nat) ->
     In (select cosine_distance (Some q) d) rows) /\
  (forall filter_user_id rows d e,
     match_documents cosine_distance (Some q) (Some t) match_count
       filter_user_id None documents = Ok rows ->
     In d documents ->
     Documents.vector_embedding d = Some e ->
     t < 1 - cosine_distance e q ->
     (filter_user_id = None \/ filter_user_id = Some (Documents.user_id d)) ->
     (match_count = None \/
      exists z, match_count = Some z /\
        (List.length (matching cosine_distance (Some q) (Some t)
                        filter_user_id None documents) <= Z.to_nat z)%nat) ->
     In (select cosine_distance (Some q) d) rows) /\
  (forall user_id filter_source rows r,
     match_documents cosine_distance (Some q) (Some t) match_count
       (Some user_id) filter_source documents = Ok rows ->
     In r rows -> Match.user_id r = user_id) /\
  (forall filter_user_id source rows r,
     match_documents cosine_distance (Some q) (Some t) match_count
       filter_user_id (Some source) documents = Ok rows ->
     In r rows -> Match.source r = source).
Proof.
  split; [|repeat split].
  - intros Hk fu fs. now apply match_documents_total.
  - intros fs rows d e H Hd He Hlt Hs Hk.
    eapply match_documents_complete; try eassumption.
    exists e, q, t. auto 10.
  - intros fu rows d e H Hd He Hlt Hu Hk.
    eapply match_documents_complete; try eassumption.
    exists e, q, t. auto 10.
  - intros u fs rows r H Hr.
    destruct (match_documents_sound _ _ _ _ _ _ _ _ _ H Hr)
      as (d & _ & -> & (_ & _ & _ & _ & _ & _ & _ & [Hu|Hu] & _));
      simpl; congruence.
  - intros fu s rows r H Hr.
    destruct (match_documents_sound _ _ _ _ _ _ _ _ _ H Hr)
      as (d & _ & -> & (_ & _ & _ & _ & _ & _ & _ & _ & [Hs|Hs]));
      simpl; congruence.
Qed.

(** Without a user filter the search returns the mails of alice and of bob. *)
Lemma match_documents_optional_filters_witness :
  In (example_select bob_email)
     [example_select older_email; example_select bob_email].
Proof.
  refine (proj1 (proj2 (match_documents_optional_filters exact_cosine_distance
                          (unit_vector 0) (1 # 2) (Some 10%Z)
                          [older_email; bob_email; orthogonal_email]))
            None [example_select older_email; example_select bob_email]
            bob_email (unit_vector 0) _ _ _ _ _ _).
  - vm_compute. reflexivity.
  - simpl. right. left. reflexivity.
  - reflexivity.
  - vm_compute. reflexivity.
  - left. reflexivity.
  - right. exists 10%Z. split; [reflexivity|]. vm_compute. lia.
Defined.

(** With the filter the same search is scoped to alice. *)
Lemma match_documents_user_filter_example :
  match_documents exact_cosine_distance example_query (Some (1 # 2))
    (Some 10%Z) (Some "alice"%string) None
    [older_email; bob_email; orthogonal_email]
  = Ok [example_select older_email] /\
  match_documents exact_cosine_distance example_query (Some (1 # 2))
    (Some 10%Z) None None
    [older_email; bob_email; orthogonal_email]
  = Ok [example_select older_email; example_select bob_email].
Proof. vm_compute. split; reflexivity. Qed.

(** ** The updated_at trigger *)

Lemma update_updated_at_column_stamped (now : timestamptz) (NEW : Documents.row) :
  stamped now NEW (update_updated_at_column now NEW).
Proof. unfold stamped. simpl. tauto. Qed.

Lemma update_documents_Ok (now : timestamptz) (where_ : Documents.row -> bool)
  (set : Documents.row -> Documents.row) (db db' : database) :
  update_documents now where_ set db = Ok db' ->
  documents db' = map (update_row now where_ set) (documents db) /\
  document_entities db' = document_entities db /\
  processed_episodes db' = processed_episodes db /\
  next_uuid db' = next_uuid db /\
  distinct N.eqb (map Documents.id (documents db')) = true /\
  distinct text3_eqb (map Documents.unique_source_document (documents db')) = true /\
  forallb (references_document (documents db')) (document_entities db) = true.
Proof.
  unfold update_documents.
  destruct (forallb _ (map _ _)); simpl; [|discriminate].
  destruct (distinct N.eqb _) eqn:E1; simpl; [|discriminate].
  destruct (distinct text3_eqb _) eqn:E2; simpl; [|discriminate].
  destruct (forallb (references_document _) _) eqn:E3; simpl; [|discriminate].
  intros [= <-]. simpl. auto 10.
Qed.

(** C9: an UPDATE of [documents] that succeeds leaves, for every row its
    WHERE clause selects, the row the SET clause computes with [updated_at]
    set to [NOW()] and no other column touched by the trigger, whatever the
    SET clause assigns; the rows it does not select stay as they were. *)
Theorem update_documents_sets_updated_at (now : timestamptz)
  (where_ : Documents.row -> bool) (set : Documents.row -> Documents.row)
  (db db' : database) :
  update_documents now where_ set db = Ok db' ->
  Forall2 (fun OLD ROW =>
             if where_ OLD then stamped now (set OLD) ROW else ROW = OLD)
    (documents db) (documents db').
Proof.
  intros H. apply update_documents_Ok in H as (-> & _).
  induction (documents db) as [|OLD l IH]; simpl; constructor; [|exact IH].
  unfold update_row. destruct (where_ OLD); [|reflexivity].
  apply update_updated_at_column_stamped.
Qed.

(** An embedding backfill at time 2000 stamps the row it fills. *)
Lemma update_documents_sets_updated_at_witness :
  Forall2 (fun OLD ROW =>
             if N.eqb (Documents.id OLD) 4%N
             then stamped 2000%Z
                    (set_vector_embedding (Some (unit_vector 1)) OLD) ROW
             else ROW = OLD)
    (documents example_database)
    [older_email;
     update_updated_at_column 2000%Z
       (set_vector_embedding (Some (unit_vector 1)) unembedded_email)].
Proof.
  apply (update_documents_sets_updated_at 2000%Z
           (fun d => N.eqb (Documents.id d) 4%N)
           (set_vector_embedding (Some (unit_vector 1)))
           example_database
           {| documents :=
                [older_email;
                 update_updated_at_column 2000%Z
                   (set_vector_embedding (Some (unit_vector 1))
                      unembedded_email)];
              document_entities := [acme_link];
              processed_episodes := [];
              next_uuid := 7%N |}).
  vm_compute. reflexivity.
Defined.

Lemma backfillEmbedding_example :
  option_map (map Documents.updated_at)
    (match backfillEmbedding 2000%Z 4%N (unit_vector 1) example_database with
     | Ok db' => Some (documents db')
     | Err _ => None
     end)
  = Some [Some 1000%Z; Some 2000%Z].
Proof. vm_compute. reflexivity. Qed.

(** ** Keys and constraints *)

Lemma text3_eqb_eq (a b : text * text * text) : text3_eqb a b = true <-> a = b.
Proof.
  destruct a as [[a1 a2] a3], b as [[b1 b2] b3]. unfold text3_eqb.
  rewrite !andb_true_iff, !String.eqb_eq. split.
  - intros [[-> ->] ->]. reflexivity.
  - intros [= -> -> ->]. auto.
Qed.

Lemma uuid_text_eqb_eq (a b : uuid * text) : uuid_text_eqb a b = true <-> a = b.
Proof.
  destruct a as [a1 a2], b as [b1 b2]. unfold uuid_text_eqb. simpl.
  rewrite andb_true_iff, N.eqb_eq, String.eqb_eq. split.
  - intros [-> ->]. reflexivity.
  - intros [= -> ->]. auto.
Qed.

Section Keys.
Context {A K : Type} (eqb : K -> K -> bool) (key : A -> K).
Hypothesis eqb_eq : forall a b, eqb a b = true <-> a = b.

Lemma existsb_key (k : K) (l : list A) :
  existsb (fun x => eqb (key x) k) l = true <-> In k (map key l).
Proof.
  rewrite existsb_exists, in_map_iff. split.
  - intros (x & Hx & E). apply eqb_eq in E. eauto.
  - intros (x & E & Hx). exists x. split; [exact Hx|]. now apply eqb_eq.
Qed.

Lemma existsb_key_false (k : K) (l : list A) :
  existsb (fun x => eqb (key x) k) l = false <-> ~ In k (map key l).
Proof.
  rewrite <- existsb_key. destruct (existsb _ l); split; congruence.
Qed.

Lemma NoDup_snoc (l : list A) (x : A) :
  NoDup (map key l) -> ~ In (key x) (map key l) -> NoDup (map key (l ++ [x])).
Proof.
  intros Hl Hx. rewrite map_app. simpl.
  eapply Permutation_NoDup; [apply Permutation_cons_append|].
  now constructor.
Qed.

Lemma filter_key_absent (k : K) (l : list A) :
  ~ In k (map key l) -> filter (fun x => eqb (key x) k) l = [].
Proof.
  intros H. induction l as [|x l IH]; simpl in *; [reflexivity|].
  destruct (eqb (key x) k) eqn:E.
  - apply eqb_eq in E. tauto.
  - apply IH. tauto.
Qed.

End Keys.

Lemma distinct_NoDup {K : Type} (eqb : K -> K -> bool) (l : list K) :
  (forall a b, eqb a b = true <-> a = b) ->
  distinct eqb l = true -> NoDup l.
Proof.
  intros eqb_eq. induction l as [|x l IH]; simpl; [constructor|].
  rewrite andb_true_iff, negb_true_iff. intros [Hx Hl].
  constructor; [|auto].
  intros Hin. assert (existsb (eqb x) l = true) as E; [|congruence].
  apply existsb_exists. exists x. split; [exact Hin | now apply eqb_eq].
Qed.

Lemma references_document_iff (docs : list Documents.row)
  (l : DocumentEntities.row) :
  references_document docs l = true <->
  exists d, In d docs /\ Documents.id d = DocumentEntities.document_id l.
Proof.
  unfold references_document. rewrite existsb_exists.
  split; intros (d & Hd & E); exists d; split; auto; now apply N.eqb_eq.
Qed.

(** ** What a successful INSERT leaves *)

Lemma insert_document_Ok (now : timestamptz) (v : InsertDocument.values)
  (db db' : database) (id : uuid) :
  insert_document now v db = Ok (id, db') ->
  exists d,
    documents db' = documents db ++ [d] /\
    document_entities db' = document_entities db /\
    processed_episodes db' = processed_episodes db /\
    Documents.id d = id /\
    InsertDocument.user_id v = Some (Documents.user_id d) /\
    InsertDocument.source v = Some (Documents.source d) /\
    InsertDocument.source_id v = Some (Documents.source_id d) /\
    ~ In (Documents.unique_source_document d)
         (map Documents.unique_source_document (documents db)).
Proof.
  unfold insert_document, bind.
  destruct (check_dims _) as [emb|]; [|discriminate].
  destruct (InsertDocument.user_id v) as [u|]; [|discriminate].
  destruct (InsertDocument.source v) as [s|]; [|discriminate].
  destruct (InsertDocument.source_id v) as [i|]; [|discriminate].
  destruct (InsertDocument.doc_type v) as [t|]; [|discriminate].
  destruct (InsertDocument.content v) as [c|]; [|discriminate].
  cbn [not_null].
  match goal with |- context [existsb ?f ?l] => destruct (existsb f l) eqn:E end;
    [discriminate|].
  intros [= <- <-]. eexists. cbn. repeat split; try reflexivity.
  apply (existsb_key_false text3_eqb _ text3_eqb_eq) in E. exact E.
Qed.

Lemma insert_document_entity_Ok (now : timestamptz)
  (v : InsertDocumentEntity.values) (db db' : database) (id : uuid) :
  insert_document_entity now v db = Ok (id, db') ->
  exists l,
    document_entities db' = document_entities db ++ [l] /\
    documents db' = documents db /\
    processed_episodes db' = processed_episodes db /\
    DocumentEntities.id l = id /\
    InsertDocumentEntity.document_id v = Some (DocumentEntities.document_id l) /\
    InsertDocumentEntity.entity_uuid v = Some (DocumentEntities.entity_uuid l) /\
    DocumentEntities.mention_count l =
      or_default (InsertDocumentEntity.mention_count v) (Some 1%Z) /\
    DocumentEntities.relevance_score l =
      or_default (InsertDocumentEntity.relevance_score v) (Some 1) /\
    ~ In (DocumentEntities.unique_document_entity l)
         (map DocumentEntities.unique_document_entity (document_entities db)) /\
    references_document (documents db) l = true.
Proof.
  unfold insert_document_entity, bind.
  destruct (InsertDocumentEntity.document_id v) as [d|]; [|discriminate].
  destruct (InsertDocumentEntity.entity_uuid v) as [e|]; [|discriminate].
  destruct (InsertDocumentEntity.entity_type v) as [t|]; [|discriminate].
  destruct (InsertDocumentEntity.entity_name v) as [n|]; [|discriminate].
  cbn [not_null].
  match goal with |- context [existsb ?f ?l] => destruct (existsb f l) eqn:E end;
    [discriminate|].
  match goal with |- context [references_document ?a ?b] =>
    destruct (references_document a b) eqn:R end; [|discriminate].
  intros [= <- <-]. eexists. cbn. repeat split; try reflexivity.
  - apply (existsb_key_false uuid_text_eqb _ uuid_text_eqb_eq) in E. exact E.
  - exact R.
Qed.

Lemma insert_processed_episode_Ok (now : timestamptz)
  (v : InsertProcessedEpisode.values) (db db' : database) (id : uuid) :
  insert_processed_episode now v db = Ok (id, db') ->
  exists p,
    processed_episodes db' = processed_episodes db ++ [p] /\
    documents db' = documents db /\
    document_entities db' = document_entities db /\
    InsertProcessedEpisode.user_id v = Some (ProcessedEpisodes.user_id p) /\
    InsertProcessedEpisode.source v = Some (ProcessedEpisodes.source p) /\
    InsertProcessedEpisode.source_id v = Some (ProcessedEpisodes.source_id p) /\
    ~ In (ProcessedEpisodes.unique_episode p)
         (map ProcessedEpisodes.unique_episode (processed_episodes db)).
Proof.
  unfold insert_processed_episode, bind.
  destruct (InsertProcessedEpisode.user_id v) as [u|]; [|discriminate].
  destruct (InsertProcessedEpisode.source v) as [s|]; [|discriminate].
  destruct (InsertProcessedEpisode.source_id v) as [i|]; [|discriminate].
  cbn [not_null].
  match goal with |- context [existsb ?f ?l] => destruct (existsb f l) eqn:E end;
    [discriminate|].
  intros [= <- <-]. eexists. cbn. repeat split; try reflexivity.
  apply (existsb_key_false text3_eqb _ text3_eqb_eq) in E. exact E.
Qed.

(** ** The idempotency ledger *)

Lemma link_document_to_entity_Ok (now : timestamptz) (document_id : uuid)
  (entity_uuid entity_type entity_name : text) (mention_count : Z)
  (relevance_score : float) (db db' : database) :
  link_document_to_entity now document_id entity_uuid entity_type entity_name
    mention_count relevance_score db = Ok db' ->
  documents db' = documents db /\
  processed_episodes db' = processed_episodes db /\
  ((existsb (is_link document_id entity_uuid) (document_entities db) = true /\
    document_entities db' =
      map (fun l => if is_link document_id entity_uuid l
                    then merge_link mention_count relevance_score l else l)
        (document_entities db)) \/
   (existsb (is_link document_id entity_uuid) (document_entities db) = false /\
    exists l,
      document_entities db' = document_entities db ++ [l] /\
      DocumentEntities.unique_document_entity l = (document_id, entity_uuid) /\
      DocumentEntities.mention_count l = Some mention_count /\
      DocumentEntities.relevance_score l = Some relevance_score /\
      references_document (documents db) l = true)).
Proof.
  unfold link_document_to_entity.
  destruct (existsb _ _) eqn:E.
  - intros [= <-]. simpl. auto.
  - unfold bind.
    destruct (insert_document_entity _ _ _) as [[id db1]|] eqn:I; [|discriminate].
    intros [= <-].
    apply insert_document_entity_Ok in I
      as (l & Hl & Hd & Hp & _ & Hdoc & Hent & Hm & Hr & _ & Href).
    simpl in *. repeat split; auto.
    right. split; [reflexivity|]. exists l. repeat split; auto.
    unfold DocumentEntities.unique_document_entity. congruence.
Qed.

Lemma update_processed_episodes_Ok (where_ : ProcessedEpisodes.row -> bool)
  (set : ProcessedEpisodes.row -> ProcessedEpisodes.row) (db db' : database) :
  update_processed_episodes where_ set db = Ok db' ->
  documents db' = documents db /\
  document_entities db' = document_entities db /\
  distinct text3_eqb
    (map ProcessedEpisodes.unique_episode (processed_episodes db')) = true.
Proof.
  unfold update_processed_episodes.
  destruct (distinct N.eqb _); simpl; [|discriminate].
  destruct (distinct text3_eqb _) eqn:E; simpl; [|discriminate].
  intros [= <-]. simpl. auto.
Qed.

Lemma NoDup_map_filter {A K : Type} (key : A -> K) (p : A -> bool) (l : list A) :
  NoDup (map key l) -> NoDup (map key (filter p l)).
Proof.
  induction l as [|x l IH]; simpl; intros H; [constructor|].
  inversion H as [|? ? Hx Hl]; subst.
  destruct (p x); simpl; auto.
  constructor; auto.
  rewrite in_map_iff in *. intros (y & E & Hy).
  apply filter_In in Hy as [Hy _]. eauto.
Qed.

Lemma exec_unique_episode (now : timestamptz) (op : operation) (db : database) :
  NoDup (map ProcessedEpisodes.unique_episode (processed_episodes db)) ->
  NoDup (map ProcessedEpisodes.unique_episode
           (processed_episodes (exec now op db))).
Proof.
  intros H.
  destruct op as [v|w s|w|v|d e t n m r|v|w s|w]; simpl; unfold bind.
  - destruct (insert_document now v db) as [[id db']|] eqn:E; simpl; auto.
    apply insert_document_Ok in E as (? & _ & _ & -> & _). exact H.
  - destruct (update_documents now w s db) as [db'|] eqn:E; simpl; auto.
    apply update_documents_Ok in E as (_ & _ & -> & _). exact H.
  - exact H.
  - destruct (insert_document_entity now v db) as [[id db']|] eqn:E; simpl; auto.
    apply insert_document_entity_Ok in E as (? & _ & _ & -> & _). exact H.
  - destruct (link_document_to_entity now d e t n m r db) as [db'|] eqn:E;
      simpl; auto.
    apply link_document_to_entity_Ok in E as (_ & -> & _). exact H.
  - destruct (insert_processed_episode now v db) as [[id db']|] eqn:E; simpl; auto.
    apply insert_processed_episode_Ok in E as (p & -> & _ & _ & _ & _ & _ & Hp).
    now apply NoDup_snoc.
  - destruct (update_processed_episodes w s db) as [db'|] eqn:E; simpl; auto.
    apply update_processed_episodes_Ok in E as (_ & _ & E).
    apply (distinct_NoDup text3_eqb _ text3_eqb_eq E).
  - now apply NoDup_map_filter.
Qed.

Lemma run_unique_episode (ops : list (timestamptz * operation)) (db : database) :
  NoDup (map ProcessedEpisodes.unique_episode (processed_episodes db)) ->
  NoDup (map ProcessedEpisodes.unique_episode (processed_episodes (run ops db))).
Proof.
  revert db. induction ops as [|[now op] ops IH]; intros db H; simpl; [exact H|].
  apply IH, exec_unique_episode, H.
Qed.

Lemma has_episode_been_processed_iff (source source_id user_id : text)
  (db : database) :
  has_episode_been_processed source source_id user_id db = true <->
  In (user_id, source, source_id)
     (map ProcessedEpisodes.unique_episode (processed_episodes db)).
Proof.
  unfold has_episode_been_processed.
  apply (existsb_key text3_eqb _ text3_eqb_eq).
Qed.

Lemma mark_again (now : timestamptz) (source source_id user_id : text)
  (episode_uuid : option uuid) (db : database) :
  has_episode_been_processed source source_id user_id db = true ->
  mark_episode_as_processed now source source_id user_id episode_uuid db
  = (already_claimed, db).
Proof.
  unfold mark_episode_as_processed, insert_processed_episode,
    has_episode_been_processed, ProcessedEpisodes.unique_episode.
  cbn. intros ->. reflexivity.
Qed.

Lemma mark_first (now : timestamptz) (source source_id user_id : text)
  (episode_uuid : option uuid) (db : database) :
  has_episode_been_processed source source_id user_id db = false ->
  exists p,
    mark_episode_as_processed now source source_id user_id episode_uuid db
    = (claimed,
       {| documents := documents db;
          document_entities := document_entities db;
          processed_episodes := processed_episodes db ++ [p];
          next_uuid := N.succ (next_uuid db) |}) /\
    ProcessedEpisodes.unique_episode p = (user_id, source, source_id) /\
    ProcessedEpisodes.episode_uuid p = episode_uuid.
Proof.
  unfold mark_episode_as_processed, insert_processed_episode,
    has_episode_been_processed, ProcessedEpisodes.unique_episode.
  cbn. intros ->. eexists. split; [reflexivity|]. split; reflexivity.
Qed.

(** C4: in every state the operations can reach, no two rows of the ledger
    share (user_id, source, source_id); marking is one of these operations;
    marking a triple that is already there is no error: it answers
    "already claimed" and changes nothing; marking a new triple claims it. *)
Theorem unique_episode_and_already_claimed :
  (forall ops,
     NoDup (map ProcessedEpisodes.unique_episode
              (processed_episodes (run ops empty_database)))) /\
  (forall now source source_id user_id episode_uuid db,
     snd (mark_episode_as_processed now source source_id user_id
            episode_uuid db)
     = exec now (InsertProcessedEpisode
                   (episode_values source source_id user_id episode_uuid)) db) /\
  (forall now source source_id user_id episode_uuid db,
     In (user_id, source, source_id)
        (map ProcessedEpisodes.unique_episode (processed_episodes db)) ->
     mark_episode_as_processed now source source_id user_id episode_uuid db
     = (already_claimed, db)) /\
  (forall now source source_id user_id episode_uuid db,
     ~ In (user_id, source, source_id)
          (map ProcessedEpisodes.unique_episode (processed_episodes db)) ->
     fst (mark_episode_as_processed now source source_id user_id
            episode_uuid db) = claimed /\
     In (user_id, source, source_id)
        (map ProcessedEpisodes.unique_episode
           (processed_episodes
              (snd (mark_episode_as_processed now source source_id user_id
                      episode_uuid db))))).
Proof.
  split; [|split; [|split]].
  - intros ops. apply run_unique_episode. constructor.
  - intros now s i u ep db0.
    unfold mark_episode_as_processed, episode_values. simpl exec. unfold bind.
    destruct (insert_processed_episode now _ db0) as [[id db']|e]; simpl;
      [reflexivity | destruct e; reflexivity].
  - intros now s i u ep db0 H.
    apply mark_again, has_episode_been_processed_iff, H.
  - intros now s i u ep db0 H.
    assert (has_episode_been_processed s i u db0 = false) as E.
    { destruct (has_episode_been_processed s i u db0) eqn:E; [|reflexivity].
      apply has_episode_been_processed_iff in E. tauto. }
    destruct (mark_first now s i u ep db0 E) as (p & -> & Hp & _).
    split; [reflexivity|]. simpl. rewrite map_app, in_app_iff. right.
    simpl. auto.
Qed.

Lemma unique_episode_and_already_claimed_witness :
  mark_episode_as_processed 20%Z "gmail"%string "msg_1"%string
    "alice"%string None
    (snd (mark_episode_as_processed 10%Z "gmail"%string "msg_1"%string
    "alice"%string None
            empty_database))
  = (already_claimed,
     snd (mark_episode_as_processed 10%Z "gmail"%string "msg_1"%string
    "alice"%string None
            empty_database)).
Proof.
  apply (proj1 (proj2 (proj2 unique_episode_and_already_claimed))).
  vm_compute. left. reflexivity.
Defined.

(** ** The document store *)

Lemma store_stored (now : timestamptz) (doc : InsertDocument.values)
  (db db' : database) (id : uuid) :
  store now doc db = (stored id, db') -> insert_document now doc db = Ok (id, db').
Proof.
  unfold store.
  destruct (insert_document now doc db) as [[id' db'']|e].
  - now intros [= -> ->].
  - destruct e; discriminate.
Qed.

Lemma insert_document_duplicate (now : timestamptz) (doc : InsertDocument.values)
  (db : database) (source source_id user_id : text) :
  InsertDocument.source doc = Some source ->
  InsertDocument.source_id doc = Some source_id ->
  InsertDocument.user_id doc = Some user_id ->
  In (source, source_id, user_id)
     (map Documents.unique_source_document (documents db)) ->
  (exists e, insert_document now doc db = Err e) /\
  (acceptable doc -> insert_document now doc db = Err unique_violation).
Proof.
  intros Hs Hi Hu Hin.
  apply (existsb_key text3_eqb _ text3_eqb_eq) in Hin.
  unfold insert_document, bind, acceptable. rewrite Hs, Hi, Hu.
  destruct (check_dims _) as [emb|e0].
  - destruct (InsertDocument.doc_type doc) as [t|];
      destruct (InsertDocument.content doc) as [c|]; cbn;
      unfold Documents.unique_source_document in Hin; cbn in Hin;
      try rewrite Hin; split; eauto; intros (_ & H1 & H2); congruence.
  - split; [eauto|]. intros ((e & He) & _). discriminate.
Qed.

(** C5: when a document has been stored, a second [store] with the same
    (source, source_id, user_id) leaves the table as it was, with the one
    row of that key, the row of the first call; it does not store, and for
    values that are otherwise acceptable it answers [DuplicateDocumentError],
    a result the caller receives, not a failure. *)
Theorem store_twice_one_row (now1 now2 : timestamptz)
  (doc1 doc2 : InsertDocument.values) (db db1 : database) (id1 : uuid) :
  store now1 doc1 db = (stored id1, db1) ->
  InsertDocument.source doc2 = InsertDocument.source doc1 ->
  InsertDocument.source_id doc2 = InsertDocument.source_id doc1 ->
  InsertDocument.user_id doc2 = InsertDocument.user_id doc1 ->
  exists d,
    Documents.id d = id1 /\
    InsertDocument.source doc1 = Some (Documents.source d) /\
    InsertDocument.source_id doc1 = Some (Documents.source_id d) /\
    InsertDocument.user_id doc1 = Some (Documents.user_id d) /\
    documents_of (Documents.source d) (Documents.source_id d)
      (Documents.user_id d) db1 = [d] /\
    snd (store now2 doc2 db1) = db1 /\
    documents_of (Documents.source d) (Documents.source_id d)
      (Documents.user_id d) (snd (store now2 doc2 db1)) = [d] /\
    (forall id2, fst (store now2 doc2 db1) <> stored id2) /\
    (acceptable doc2 -> fst (store now2 doc2 db1) = DuplicateDocumentError).
Proof.
  intros H Hs Hi Hu.
  apply store_stored, insert_document_Ok in H
    as (d & Hdocs & _ & _ & Hid & Hu1 & Hs1 & Hi1 & Hfresh).
  assert (documents_of (Documents.source d) (Documents.source_id d)
            (Documents.user_id d) db1 = [d]) as Hone.
  { unfold documents_of. rewrite Hdocs, filter_app.
    rewrite (filter_key_absent text3_eqb Documents.unique_source_document
               text3_eqb_eq
               (Documents.source d, Documents.source_id d, Documents.user_id d)
               (documents db) Hfresh). cbn [app filter].
    assert (text3_eqb (Documents.unique_source_document d)
              (Documents.source d, Documents.source_id d, Documents.user_id d)
            = true) as -> by now apply text3_eqb_eq.
    reflexivity. }
  assert (In (Documents.source d, Documents.source_id d, Documents.user_id d)
             (map Documents.unique_source_document (documents db1))) as Hin.
  { rewrite Hdocs, map_app, in_app_iff. right. simpl. auto. }
  rewrite Hs1 in Hs. rewrite Hi1 in Hi. rewrite Hu1 in Hu.
  destruct (insert_document_duplicate now2 doc2 db1 _ _ _ Hs Hi Hu Hin)
    as [(e & He) Hacc].
  assert (snd (store now2 doc2 db1) = db1) as Hsame.
  { unfold store. rewrite He. destruct e; reflexivity. }
  exists d. repeat split; auto.
  - now rewrite Hsame.
  - intros id2. unfold store. rewrite He. destruct e; discriminate.
  - intros Ha. unfold store. rewrite (Hacc Ha). reflexivity.
Qed.

Lemma store_twice_one_row_witness :
  exists d,
    Documents.id d = 0%N /\
    InsertDocument.source pricing_mail = Some (Documents.source d) /\
    InsertDocument.source_id pricing_mail = Some (Documents.source_id d) /\
    InsertDocument.user_id pricing_mail = Some (Documents.user_id d) /\
    documents_of (Documents.source d) (Documents.source_id d)
      (Documents.user_id d)
      (snd (store 10%Z pricing_mail empty_database)) = [d] /\
    snd (store 20%Z pricing_mail_again
           (snd (store 10%Z pricing_mail empty_database)))
    = snd (store 10%Z pricing_mail empty_database) /\
    documents_of (Documents.source d) (Documents.source_id d)
      (Documents.user_id d)
      (snd (store 20%Z pricing_mail_again
              (snd (store 10%Z pricing_mail empty_database)))) = [d] /\
    (forall id2,
       fst (store 20%Z pricing_mail_again
              (snd (store 10%Z pricing_mail empty_database))) <> stored id2) /\
    (acceptable pricing_mail_again ->
     fst (store 20%Z pricing_mail_again
            (snd (store 10%Z pricing_mail empty_database)))
     = DuplicateDocumentError).
Proof.
  apply (store_twice_one_row 10%Z 20%Z pricing_mail pricing_mail_again
           empty_database (snd (store 10%Z pricing_mail empty_database)) 0%N);
    reflexivity.
Defined.

Lemma store_twice_example :
  store 20%Z pricing_mail_again (snd (store 10%Z pricing_mail empty_database))
  = (DuplicateDocumentError, snd (store 10%Z pricing_mail empty_database)) /\
  map Documents.subject
    (documents (snd (store 10%Z pricing_mail empty_database)))
  = [Some "Pricing"%string].
Proof. vm_compute. split; reflexivity. Qed.

(** ** The entity bridge *)

Lemma filter_nil_forall {A : Type} (p : A -> bool) (l : list A) :
  filter p l = [] -> forall x, In x l -> p x = false.
Proof.
  induction l as [|y l IH]; simpl; [tauto|].
  destruct (p y) eqn:E; [discriminate|].
  intros H x [<-|Hx]; auto.
Qed.

Lemma map_unless {A : Type} (p : A -> bool) (g : A -> A) (l : list A) :
  (forall x, In x l -> p x = false) ->
  map (fun x => if p x then g x else x) l = l.
Proof.
  induction l as [|y l IH]; simpl; intros H; [reflexivity|].
  rewrite (H y) by auto. f_equal. apply IH. auto.
Qed.

Lemma is_link_merge (document_id : uuid) (entity_uuid : text) (m : Z)
  (r : float) (l : DocumentEntities.row) :
  is_link document_id entity_uuid (merge_link m r l)
  = is_link document_id entity_uuid l.
Proof. reflexivity. Qed.

(** C6: two calls of [link] for one (documentId, entityId) pair that was not
    linked before leave one link of that pair; its mention count is the
    maximum of the two counts given and its relevance score the maximum of
    the two scores given, so neither is below what either call supplied. *)
Theorem link_twice_takes_maximum (now1 now2 : timestamptz) (document_id : uuid)
  (entity_uuid type1 name1 type2 name2 : text) (m1 m2 : Z) (r1 r2 : float)
  (db db1 db2 : database) :
  links_of document_id entity_uuid db = [] ->
  link_document_to_entity now1 document_id entity_uuid type1 name1 m1 r1 db
  = Ok db1 ->
  link_document_to_entity now2 document_id entity_uuid type2 name2 m2 r2 db1
  = Ok db2 ->
  exists l,
    links_of document_id entity_uuid db2 = [l] /\
    DocumentEntities.mention_count l = Some (Z.max m1 m2) /\
    DocumentEntities.relevance_score l = Some (Qmax r1 r2) /\
    (m1 <= Z.max m1 m2)%Z /\ (m2 <= Z.max m1 m2)%Z /\
    r1 <= Qmax r1 r2 /\ r2 <= Qmax r1 r2.
Proof.
  unfold links_of. intros Hnone H1 H2.
  pose proof (filter_nil_forall _ _ Hnone) as Hno.
  assert (existsb (is_link document_id entity_uuid) (document_entities db)
          = false) as E0.
  { destruct (existsb _ _) eqn:E; [|reflexivity].
    apply existsb_exists in E as (x & Hx & Ex). rewrite (Hno x Hx) in Ex.
    discriminate. }
  apply link_document_to_entity_Ok in H1
    as (_ & _ & [[E1 _]|(_ & l1 & Hl1 & Hk1 & Hm1 & Hr1 & _)]); [congruence|].
  assert (is_link document_id entity_uuid l1 = true) as Hlink1.
  { unfold is_link. now apply uuid_text_eqb_eq. }
  apply link_document_to_entity_Ok in H2
    as (_ & _ & [[_ Hl2]|(E2 & _)]).
  - exists (merge_link m2 r2 l1).
    rewrite Hl2, Hl1, map_app, filter_app, (map_unless _ _ _ Hno), Hnone.
    cbn [map app filter]. rewrite Hlink1, is_link_merge, Hlink1.
    split; [reflexivity|].
    cbn [merge_link DocumentEntities.mention_count
         DocumentEntities.relevance_score].
    rewrite Hm1, Hr1. cbn [greatest_int greatest_float].
    repeat split; auto using Z.le_max_l, Z.le_max_r, Q.le_max_l, Q.le_max_r.
  - exfalso. rewrite Hl1, existsb_app in E2. cbn in E2.
    rewrite Hlink1, orb_true_r in E2. discriminate.
Qed.

(** The example of the spec: counts 1 and 3, relevance 0.4 and 0.9. *)
Lemma link_twice_takes_maximum_witness :
  exists l,
    links_of 1%N "entity_sarah"%string linked_twice = [l] /\
    DocumentEntities.mention_count l = Some (Z.max 1 3) /\
    DocumentEntities.relevance_score l = Some (Qmax (4 # 10) (9 # 10)) /\
    (1 <= Z.max 1 3)%Z /\ (3 <= Z.max 1 3)%Z /\
    4 # 10 <= Qmax (4 # 10) (9 # 10) /\ 9 # 10 <= Qmax (4 # 10) (9 # 10).
Proof.
  apply (link_twice_takes_maximum 10%Z 20%Z 1%N "entity_sarah"%string
           "Contact"%string "Sarah Johnson"%string
           "Contact"%string "Sarah Johnson"%string 1%Z 3%Z (4 # 10) (9 # 10)
           example_database linked_once linked_twice);
    vm_compute; reflexivity.
Defined.

Lemma link_twice_example :
  map (fun l => (DocumentEntities.mention_count l,
                 DocumentEntities.relevance_score l))
    (links_of 1%N "entity_sarah"%string linked_twice)
  = [(Some 3%Z, Some (9 # 10))].
Proof. vm_compute. reflexivity. Qed.

(** ** Range of the scores *)

Lemma in_range_iff (m : Z) (r : float) :
  in_range m r = true <-> (1 <= m)%Z /\ 0 <= r /\ r <= 1.
Proof.
  unfold in_range. rewrite !andb_true_iff, Z.leb_le, !Qle_bool_iff. tauto.
Qed.

Lemma in_range_false (m : Z) (r : float) :
  ~ (0 <= r /\ r <= 1) \/ (m < 1)%Z -> in_range m r = false.
Proof.
  intros H. destruct (in_range m r) eqn:E; [|reflexivity].
  apply in_range_iff in E as (Hm & H0 & H1).
  destruct H as [H|H]; [exfalso; apply H; auto | lia].
Qed.

Lemma merge_link_at_least (m : Z) (r : float) (l : DocumentEntities.row) :
  exists n' r',
    DocumentEntities.mention_count (merge_link m r l) = Some n' /\
    DocumentEntities.relevance_score (merge_link m r l) = Some r' /\
    (m <= n')%Z /\ r <= r'.
Proof.
  cbn [merge_link DocumentEntities.mention_count
       DocumentEntities.relevance_score].
  eexists. eexists. split; [reflexivity|]. split; [reflexivity|]. split.
  - destruct (DocumentEntities.mention_count l); cbn [greatest_int];
      [apply Z.le_max_r | lia].
  - destruct (DocumentEntities.relevance_score l); cbn [greatest_float];
      [apply Q.le_max_r | apply Qle_refl].
Qed.

Lemma link_invariant_merge (m : Z) (r : float) (l : DocumentEntities.row) :
  in_range m r = true -> link_invariant l ->
  link_invariant (merge_link m r l).
Proof.
  intros Hin (n0 & r0 & Hn & Hr & Hn1 & Hr0 & Hr1).
  apply in_range_iff in Hin as (Hm & H0 & H1).
  exists (Z.max n0 m), (Qmax r0 r).
  cbn [merge_link DocumentEntities.mention_count
       DocumentEntities.relevance_score].
  rewrite Hn, Hr. cbn [greatest_int greatest_float].
  split; [reflexivity|]. split; [reflexivity|]. split; [lia|]. split.
  - eapply Qle_trans; [exact Hr0 | apply Q.le_max_l].
  - apply Q.max_lub; assumption.
Qed.

Lemma link_keeps_invariant (now : timestamptz) (d : uuid) (e t n : text)
  (m : Z) (r : float) (db : database) :
  Forall link_invariant (document_entities db) ->
  Forall link_invariant (document_entities (snd (link now d e t n m r db))).
Proof.
  intros H. unfold link.
  destruct (in_range m r) eqn:Hin; [|exact H].
  destruct (link_document_to_entity now d e t n m r db) as [db'|err] eqn:E;
    [|exact H].
  cbn [snd].
  apply link_document_to_entity_Ok in E
    as (_ & _ & [[_ ->]|(_ & l & -> & _ & Hm & Hr & _)]).
  - rewrite Forall_forall in *. intros x Hx.
    apply in_map_iff in Hx as (l & <- & Hl).
    destruct (is_link d e l); [|now apply H].
    apply link_invariant_merge; [exact Hin | now apply H].
  - apply Forall_app. split; [exact H|]. constructor; [|constructor].
    apply in_range_iff in Hin as (H1 & H2 & H3).
    exists m, r. auto.
Qed.

Lemma serve_keeps_invariant (now : timestamptz) (op : operation)
  (db : database) :
  bypasses_link op = false ->
  Forall link_invariant (document_entities db) ->
  Forall link_invariant (document_entities (serve now op db)).
Proof.
  intros Hop H.
  destruct op as [v|w s|w|v|d e t n m r|v|w s|w]; cbn [serve exec];
    unfold bind; try discriminate.
  - destruct (insert_document now v db) as [[id db']|] eqn:E; cbn; auto.
    apply insert_document_Ok in E as (? & _ & -> & _). exact H.
  - destruct (update_documents now w s db) as [db'|] eqn:E; cbn; auto.
    apply update_documents_Ok in E as (_ & -> & _). exact H.
  - cbn [delete_documents document_entities].
    rewrite Forall_forall in *. intros l Hl.
    apply filter_In in Hl as [Hl _]. now apply H.
  - now apply link_keeps_invariant.
  - destruct (insert_processed_episode now v db) as [[id db']|] eqn:E; cbn;
      auto.
    apply insert_processed_episode_Ok in E as (? & _ & _ & -> & _). exact H.
  - destruct (update_processed_episodes w s db) as [db'|] eqn:E; cbn; auto.
    apply update_processed_episodes_Ok in E as (_ & -> & _). exact H.
  - exact H.
Qed.

Lemma link_accepts (now : timestamptz) (d : uuid) (e t n : text) (m : Z)
  (r : float) (db : database) :
  in_range m r = true ->
  In d (map Documents.id (documents db)) ->
  fst (link now d e t n m r db) = linked /\
  exists l n' r',
    In l (document_entities (snd (link now d e t n m r db))) /\
    DocumentEntities.unique_document_entity l = (d, e) /\
    DocumentEntities.mention_count l = Some n' /\
    DocumentEntities.relevance_score l = Some r' /\
    (m <= n')%Z /\ r <= r'.
Proof.
  intros Hin Hd. unfold link. rewrite Hin. unfold link_document_to_entity.
  destruct (existsb (is_link d e) (document_entities db)) eqn:E.
  - cbn [fst snd document_entities]. split; [reflexivity|].
    apply existsb_exists in E as (l0 & Hl0 & El0).
    destruct (merge_link_at_least m r l0) as (n' & r' & Hn & Hr & Hle).
    exists (merge_link m r l0), n', r'. split; [|split; [|auto]].
    + apply in_map_iff. exists l0. rewrite El0. auto.
    + unfold is_link in El0. apply uuid_text_eqb_eq in El0. exact El0.
  - unfold insert_document_entity, bind.
    cbn [InsertDocumentEntity.document_id InsertDocumentEntity.entity_uuid
         InsertDocumentEntity.entity_type InsertDocumentEntity.entity_name
         InsertDocumentEntity.mention_count
         InsertDocumentEntity.relevance_score
         InsertDocumentEntity.created_at or_default].
    unfold not_null. cbv beta iota.
    match goal with |- context [existsb ?f ?l] =>
      replace (existsb f l) with false by (symmetry; exact E) end.
    match goal with |- context [references_document ?a ?b] =>
      assert (references_document a b = true) as R end.
    { apply references_document_iff. apply in_map_iff in Hd as (x & Ex & Hx).
      exists x. split; [exact Hx | exact Ex]. }
    rewrite R. cbn [negb fst snd document_entities]. split; [reflexivity|].
    eexists. exists m, r. split; [apply in_app_iff; right; left; reflexivity|].
    split; [reflexivity|]. split; [reflexivity|]. split; [reflexivity|].
    split; [lia | apply Qle_refl].
Qed.

(** C7: every stored link satisfies relevanceScore in [0,1] and
    mentionCount >= 1, and a link out of that range is rejected at the
    boundary with nothing written. When the stored links are in range, they
    are in range after any history of operations served at the boundary
    (links through [link], statements on documents and on the ledger; no
    INSERT into the link table that goes around [link]); a link with a
    relevance score outside [0,1] or a mention count below 1 is answered
    [DataInvariantViolation] with the database as it was; every link that is
    not answered [linked] leaves the database as it was; and a link in range
    to a stored document is answered [linked], the pair then being linked
    with counts at least those given. *)
Theorem links_in_range_and_rejected (ops : list (timestamptz * operation))
  (db : database) :
  Forall link_invariant (document_entities db) ->
  Forall (fun o => bypasses_link (snd o) = false) ops ->
  Forall link_invariant (document_entities (serve_all ops db)) /\
  (forall now d e t n m r db0,
     ~ (0 <= r /\ r <= 1) \/ (m < 1)%Z ->
     link now d e t n m r db0 = (DataInvariantViolation, db0)) /\
  (forall now d e t n m r db0,
     fst (link now d e t n m r db0) <> linked ->
     snd (link now d e t n m r db0) = db0) /\
  (forall now d e t n m r db0,
     (1 <= m <= int4_max)%Z -> 0 <= r -> r <= 1 ->
     In d (map Documents.id (documents db0)) ->
     fst (link now d e t n m r db0) = linked /\
     exists l n' r',
       In l (document_entities (snd (link now d e t n m r db0))) /\
       DocumentEntities.unique_document_entity l = (d, e) /\
       DocumentEntities.mention_count l = Some n' /\
       DocumentEntities.relevance_score l = Some r' /\
       (m <= n')%Z /\ r <= r').
Proof.
  intros Hdb Hops. split; [|split; [|split]].
  - revert db Hdb. induction Hops as [|[now op] ops Hop _ IH]; intros db Hdb;
      [exact Hdb|].
    cbn [serve_all]. apply IH. now apply serve_keeps_invariant.
  - intros now d e t n m r db0 H. unfold link.
    now rewrite (in_range_false m r H).
  - intros now d e t n m r db0. unfold link.
    destruct (in_range m r); [|reflexivity].
    destruct (link_document_to_entity now d e t n m r db0); cbn [fst snd];
      [congruence | reflexivity].
  - intros now d e t n m r db0 Hm H0 H1 Hd.
    apply link_accepts; [|exact Hd].
    apply in_range_iff. split; [lia | split; assumption].
Qed.

Lemma example_database_in_range :
  Forall link_invariant (document_entities example_database).
Proof.
  constructor; [|constructor].
  exists 1%Z, (9 # 10).
  split; [reflexivity|]. split; [reflexivity|]. split; [lia|].
  split; unfold Qle; cbn; lia.
Qed.

Lemma bridge_history_at_boundary :
  Forall (fun o => bypasses_link (snd o) = false) bridge_history.
Proof. repeat constructor. Qed.

Lemma links_in_range_and_rejected_witness :
  Forall link_invariant
    (document_entities (serve_all bridge_history example_database)).
Proof.
  apply (links_in_range_and_rejected bridge_history example_database).
  - exact example_database_in_range.
  - exact bridge_history_at_boundary.
Defined.

Lemma bridge_history_example :
  map (fun l => (DocumentEntities.entity_uuid l,
                 DocumentEntities.mention_count l,
                 DocumentEntities.relevance_score l))
    (document_entities (serve_all bridge_history example_database))
  = [("entity_acme"%string, Some 1%Z, Some (9 # 10));
     ("entity_sarah"%string, Some 3%Z, Some (9 # 10))] /\
  link 11%Z 1%N "entity_globex"%string "Company"%string "Globex"%string 1%Z
    (5 # 2) example_database
  = (DataInvariantViolation, example_database).
Proof. split; vm_compute; reflexivity. Qed.

(** The table itself declares no range for the two columns: an INSERT that
    goes around [link] with a relevance score of 2.5 and a mention count of 0
    is stored. The range is kept by the boundary alone. *)
Lemma document_entities_accepts_out_of_range :
  match insert_document_entity 10%Z out_of_range_link example_database with
  | Ok (_, db') =>
      map (fun l => (DocumentEntities.mention_count l,
                     DocumentEntities.relevance_score l))
        (document_entities db')
      = [(Some 1%Z, Some (9 # 10)); (Some 0%Z, Some (5 # 2))]
  | Err _ => False
  end /\
  ~ (5 # 2 <= 1) /\ ~ (1 <= 0)%Z.
Proof.
  split; [vm_compute; reflexivity|].
  split; [intros H; vm_compute in H; now apply H | lia].
Qed.

(** ** Links and the documents they belong to *)

Lemma delete_documents_links (where_ : Documents.row -> bool) (db : database)
  (l : DocumentEntities.row) :
  In l (document_entities (delete_documents where_ db)) <->
  In l (document_entities db) /\
  forall d, In d (documents db) -> where_ d = true ->
            Documents.id d <> DocumentEntities.document_id l.
Proof.
  unfold delete_documents. cbn [document_entities].
  rewrite filter_In, negb_true_iff. split; intros [Hl H]; split; auto.
  - intros d Hd Hw E.
    assert (references_document (filter where_ (documents db)) l = true)
      as R; [|congruence].
    apply references_document_iff. exists d. rewrite filter_In. auto.
  - destruct (references_document _ l) eqn:R; [|reflexivity].
    apply references_document_iff in R as (d & Hd & E).
    apply filter_In in Hd as [Hd Hw]. exfalso. eapply H; eassumption.
Qed.

Lemma exec_referential_integrity (now : timestamptz) (op : operation)
  (db : database) :
  referential_integrity db -> referential_integrity (exec now op db).
Proof.
  unfold referential_integrity. intros RI.
  destruct op as [v|w s|w|v|d e t n m r|v|w s|w]; simpl; unfold bind.
  - destruct (insert_document now v db) as [[id db']|] eqn:E; simpl; auto.
    apply insert_document_Ok in E as (d & Hd & Hl & _).
    rewrite Hd, Hl. intros l Hl'. destruct (RI l Hl') as (d' & Hd' & E').
    exists d'. rewrite in_app_iff. auto.
  - destruct (update_documents now w s db) as [db'|] eqn:E; simpl; auto.
    apply update_documents_Ok in E as (_ & Hl & _ & _ & _ & _ & R).
    rewrite Hl. intros l Hl'. rewrite forallb_forall in R.
    apply references_document_iff, R, Hl'.
  - intros l Hl. apply delete_documents_links in Hl as [Hl Hkeep].
    destruct (RI l Hl) as (d & Hd & E).
    exists d. split; [|exact E].
    unfold delete_documents. cbn [documents].
    rewrite filter_In, negb_true_iff. split; [exact Hd|].
    destruct (w d) eqn:W; [|reflexivity].
    exfalso. eapply Hkeep; eassumption.
  - destruct (insert_document_entity now v db) as [[id db']|] eqn:E; simpl; auto.
    apply insert_document_entity_Ok in E
      as (l0 & Hl & Hd & _ & _ & _ & _ & _ & _ & _ & R).
    rewrite Hl, Hd. intros l Hl'. apply in_app_iff in Hl' as [Hl'|[<-|[]]]; auto.
    now apply references_document_iff.
  - destruct (link_document_to_entity now d e t n m r db) as [db'|] eqn:E;
      simpl; auto.
    apply link_document_to_entity_Ok in E
      as (Hd & _ & [[_ Hl]|(_ & l0 & Hl & _ & _ & _ & R)]);
      rewrite Hl, Hd; intros l Hl'.
    + apply in_map_iff in Hl' as (l1 & <- & Hl1).
      destruct (RI l1 Hl1) as (d1 & Hd1 & E1). exists d1.
      split; [exact Hd1|]. destruct (is_link d e l1); exact E1.
    + apply in_app_iff in Hl' as [Hl'|[<-|[]]]; auto.
      now apply references_document_iff.
  - destruct (insert_processed_episode now v db) as [[id db']|] eqn:E; simpl;
      auto.
    apply insert_processed_episode_Ok in E as (p & _ & Hd & Hl & _).
    rewrite Hd, Hl. exact RI.
  - destruct (update_processed_episodes w s db) as [db'|] eqn:E; simpl; auto.
    apply update_processed_episodes_Ok in E as (Hd & Hl & _).
    rewrite Hd, Hl. exact RI.
  - exact RI.
Qed.

Lemma run_referential_integrity (ops : list (timestamptz * operation))
  (db : database) :
  referential_integrity db -> referential_integrity (run ops db).
Proof.
  revert db. induction ops as [|[now op] ops IH]; intros db H; simpl; auto.
  apply IH, exec_referential_integrity, H.
Qed.

Lemma exec_keeps_links (now : timestamptz) (op : operation) (db : database)
  (l : DocumentEntities.row) :
  is_delete op = false ->
  In l (document_entities db) ->
  exists l',
    In l' (document_entities (exec now op db)) /\
    DocumentEntities.id l' = DocumentEntities.id l /\
    DocumentEntities.unique_document_entity l'
    = DocumentEntities.unique_document_entity l.
Proof.
  intros Hop Hl.
  destruct op as [v|w s|w|v|d e t n m r|v|w s|w]; simpl in *; unfold bind;
    try discriminate.
  - destruct (insert_document now v db) as [[id db']|] eqn:E; simpl; eauto.
    apply insert_document_Ok in E as (? & _ & -> & _). eauto.
  - destruct (update_documents now w s db) as [db'|] eqn:E; simpl; eauto.
    apply update_documents_Ok in E as (_ & -> & _). eauto.
  - destruct (insert_document_entity now v db) as [[id db']|] eqn:E; simpl; eauto.
    apply insert_document_entity_Ok in E as (l0 & -> & _).
    exists l. rewrite in_app_iff. auto.
  - destruct (link_document_to_entity now d e t n m r db) as [db'|] eqn:E;
      simpl; eauto.
    apply link_document_to_entity_Ok in E
      as (_ & _ & [[_ ->]|(_ & l0 & -> & _)]).
    + exists (if is_link d e l then merge_link m r l else l).
      split; [apply (in_map (fun l => if is_link d e l
                                      then merge_link m r l else l)), Hl|].
      destruct (is_link d e l); auto.
    + exists l. rewrite in_app_iff. auto.
  - destruct (insert_processed_episode now v db) as [[id db']|] eqn:E; simpl;
      eauto.
    apply insert_processed_episode_Ok in E as (p & _ & _ & -> & _). eauto.
  - destruct (update_processed_episodes w s db) as [db'|] eqn:E; simpl; eauto.
    apply update_processed_episodes_Ok in E as (_ & -> & _). eauto.
  - eauto.
Qed.

(** C8: deleting documents deletes the links that reference them; in every
    state the operations can reach, each link references a stored document;
    an operation that is not a deletion of documents keeps every link (an
    upsert may raise its counts), and a deletion keeps the links of the
    documents it leaves. *)
Theorem links_deleted_with_their_document_only :
  (forall where_ db l d,
     In l (document_entities (delete_documents where_ db)) ->
     In d (documents db) -> where_ d = true ->
     DocumentEntities.document_id l <> Documents.id d) /\
  (forall ops, referential_integrity (run ops empty_database)) /\
  (forall now op db l,
     is_delete op = false ->
     In l (document_entities db) ->
     exists l',
       In l' (document_entities (exec now op db)) /\
       DocumentEntities.id l' = DocumentEntities.id l /\
       DocumentEntities.unique_document_entity l'
       = DocumentEntities.unique_document_entity l) /\
  (forall where_ db l,
     In l (document_entities db) ->
     (forall d, In d (documents db) -> where_ d = true ->
                Documents.id d <> DocumentEntities.document_id l) ->
     In l (document_entities (delete_documents where_ db))).
Proof.
  split; [|split; [|split]].
  - intros w db0 l d Hl Hd Hw E.
    apply delete_documents_links in Hl as [_ H].
    apply (H d Hd Hw). auto.
  - intros ops. apply run_referential_integrity. intros l [].
  - intros. now apply exec_keeps_links.
  - intros w db0 l Hl H. apply delete_documents_links. auto.
Qed.

(** Deleting the mail without embedding leaves the link of the first mail,
    which does not reference it. *)
Lemma links_deleted_with_their_document_only_witness :
  DocumentEntities.document_id acme_link <> Documents.id unembedded_email.
Proof.
  refine (proj1 links_deleted_with_their_document_only
            (fun d => N.eqb (Documents.id d) 4%N) example_database
            acme_link unembedded_email _ _ _).
  - vm_compute. left. reflexivity.
  - vm_compute. right. left. reflexivity.
  - reflexivity.
Defined.

Lemma delete_documents_example :
  delete_documents (fun d => N.eqb (Documents.id d) 1%N) example_database
  = {| documents := [unembedded_email];
       document_entities := [];
       processed_episodes := [];
       next_uuid := 7%N |}.
Proof. vm_compute. reflexivity. Qed.

(** ** The webhook handler under redelivery *)

Ltac run_handlers :=
  repeat (cbn;
          unfold store, mark_episode_as_processed, insert_document,
            insert_processed_episode, bind;
          cbn; rewrite ?String.eqb_refl).

Lemma gmail_webhook_already_processed (user_id : text) (event : WebhookEvent)
  (w : world) :
  has_episode_been_processed "gmail"%string (message_id event) user_id (db w)
  = true ->
  gmail_webhook user_id event w = (already_processed, w).
Proof. unfold gmail_webhook, step. intros ->. reflexivity. Qed.

Lemma redeliver_already_processed (n : nat) (user_id : text)
  (event : WebhookEvent) (w : world) :
  has_episode_been_processed "gmail"%string (message_id event) user_id (db w)
  = true ->
  redeliver n user_id event w = w.
Proof.
  intros H. induction n as [|n IH]; simpl; [reflexivity|].
  now rewrite (gmail_webhook_already_processed _ _ _ H).
Qed.

(** Deliveries handled one after the other: one document, one ledger row and
    one extraction call, however often the event comes. *)
Lemma redeliver_footprint (n : nat) (user_id : text) (event : WebhookEvent) :
  footprint (redeliver (S n) user_id event new_world) = (1, 1, 1)%nat.
Proof.
  cbn [redeliver]. rewrite redeliver_already_processed;
    run_handlers; reflexivity.
Qed.

(** C1 on the handler: a webhook and its retry whose handlers take turns both
    pass the check before either has marked the event, and the extraction
    engine is called twice; one document and one ledger row are kept by the
    unique constraints. Handled one after the other, the retry returns
    [already_processed] and there is one call. *)
Theorem gmail_webhook_retry_race (user_id : text) (event : WebhookEvent) :
  (let '(pool, w) := schedule alternating (retry user_id event) new_world in
   map at_ pool = [returned null; returned null] /\
   footprint w = (1, 1, 2)%nat) /\
  (let '(pool, w) := schedule one_after_the_other (retry user_id event)
                       new_world in
   map at_ pool = [returned null; returned already_processed] /\
   footprint w = (1, 1, 1)%nat).
Proof.
  split; run_handlers; split; reflexivity.
Qed.

(** * Further properties of the code *)

(** ** Search keeps the most similar documents *)

Lemma StronglySorted_app_inv {A : Type} (R : A -> A -> Prop) (l1 l2 : list A) :
  StronglySorted R (l1 ++ l2) ->
  forall a b, In a l1 -> In b l2 -> R a b.
Proof.
  induction l1 as [|x l1 IH]; simpl; intros H a b Ha Hb; [tauto|].
  inversion H as [|? ? Hs Hx]; subst.
  destruct Ha as [<-|Ha]; [|now apply IH].
  rewrite Forall_forall in Hx. apply Hx, in_or_app. now right.
Qed.

Lemma limit_firstn_skipn {A : Type} (n : option Z) (l rows : list A) :
  Sql.limit n l = Ok rows ->
  exists m, rows = firstn m l /\ l = rows ++ skipn m l.
Proof.
  intros H. apply limit_Ok_inv in H as [[_ ->]|(z & _ & _ & ->)].
  - exists (List.length l). rewrite firstn_all. split; [reflexivity|].
    now rewrite skipn_all, app_nil_r.
  - exists (Z.to_nat z). split; [reflexivity|]. now rewrite firstn_skipn.
Qed.

(** X1: what the LIMIT cuts off is never more similar than what it keeps.
    The matching documents split into the ones returned, in the order of the
    rows, and the ones dropped, and every returned document is at least as
    similar to the query as every dropped one. *)
Theorem match_documents_keeps_most_similar
  (cosine_distance : vector -> vector -> float)
  (query_embedding : option vector) (match_threshold : option float)
  (match_count : option Z) (filter_user_id filter_source : option text)
  (documents : list Documents.row) (rows : list Match.row) :
  match_documents cosine_distance query_embedding match_threshold match_count
    filter_user_id filter_source documents = Ok rows ->
  exists kept dropped,
    rows = map (select cosine_distance query_embedding) kept /\
    Permutation (kept ++ dropped)
      (matching cosine_distance query_embedding match_threshold
         filter_user_id filter_source documents) /\
    forall a b, In a kept -> In b dropped ->
      exists sa sb,
        similarity_of cosine_distance query_embedding a = Some sa /\
        similarity_of cosine_distance query_embedding b = Some sb /\
        sb <= sa.
Proof.
  unfold match_documents. intros H.
  apply limit_firstn_skipn in H as (m & Hrows & _).
  set (sorted := Sql.order_by (order_key cosine_distance query_embedding)
                   (matching cosine_distance query_embedding match_threshold
                      filter_user_id filter_source documents)) in *.
  exists (firstn m sorted), (skipn m sorted).
  split; [now rewrite Hrows, firstn_map|].
  split; [rewrite firstn_skipn; apply Permutation_sym, order_by_perm|].
  intros a b Ha Hb.
  assert (key_le (order_key cosine_distance query_embedding) a b) as Hab.
  { eapply (StronglySorted_app_inv _ (firstn m sorted) (skipn m sorted));
      try eassumption.
    rewrite firstn_skipn. apply order_by_sorted. }
  assert (forall d, In d sorted ->
            qualifies cosine_distance query_embedding match_threshold
              filter_user_id filter_source d) as Hq.
  { intros d Hd. now apply order_by_In, matching_In in Hd. }
  apply firstn_In in Ha.
  assert (In b sorted) as Hb'.
  { rewrite <- (firstn_skipn m sorted). apply in_or_app. now right. }
  destruct (qualifies_similarity _ _ _ _ _ _ (Hq a Ha))
    as (ea & qa & _ & Hqa & Hsa & Hka).
  destruct (qualifies_similarity _ _ _ _ _ _ (Hq b Hb'))
    as (eb & qb & _ & Hqb & Hsb & Hkb).
  assert (qb = qa) as -> by congruence.
  unfold key_le in Hab. rewrite Hka, Hkb in Hab. simpl in Hab.
  apply Qle_bool_iff in Hab.
  exists (1 - cosine_distance ea qa), (1 - cosine_distance eb qa).
  repeat split; try assumption.
  unfold Qminus. apply Qplus_le_r, Qopp_le_compat, Hab.
Qed.

Lemma match_documents_keeps_most_similar_witness :
  exists kept dropped,
    [example_select newer_email]
    = map (select exact_cosine_distance example_query) kept /\
    Permutation (kept ++ dropped)
      (matching exact_cosine_distance example_query (Some (-1 # 2)) None None
         [orthogonal_email; unembedded_email; newer_email]) /\
    forall a b, In a kept -> In b dropped ->
      exists sa sb,
        similarity_of exact_cosine_distance example_query a = Some sa /\
        similarity_of exact_cosine_distance example_query b = Some sb /\
        sb <= sa.
Proof.
  apply (match_documents_keeps_most_similar exact_cosine_distance example_query
           (Some (-1 # 2)) (Some 1%Z) None None
           [orthogonal_email; unembedded_email; newer_email]).
  vm_compute. reflexivity.
Defined.

(** ** Search is scoped by its filters *)

Lemma filter_filter_implied {A : Type} (f g : A -> bool) (l : list A) :
  (forall x, f x = true -> g x = true) ->
  filter f (filter g l) = filter f l.
Proof.
  intros H. induction l as [|x l IH]; simpl; [reflexivity|].
  destruct (g x) eqn:G; simpl.
  - now rewrite IH.
  - destruct (f x) eqn:F; [|exact IH]. apply H in F. congruence.
Qed.

Lemma matching_restricted (cosine_distance : vector -> vector -> float)
  (query_embedding : option vector) (match_threshold : option float)
  (filter_user_id filter_source : option text) (keep : Documents.row -> bool)
  (documents : list Documents.row) :
  (forall d,
     Sql.holds (match_where cosine_distance query_embedding match_threshold
                  filter_user_id filter_source d) = true ->
     keep d = true) ->
  matching cosine_distance query_embedding match_threshold
    filter_user_id filter_source (filter keep documents)
  = matching cosine_distance query_embedding match_threshold
      filter_user_id filter_source documents.
Proof. intros H. unfold matching. now apply filter_filter_implied. Qed.

Lemma limit_Err_any {A : Type} (n : option Z) (l l' : list A) (e : sqlstate) :
  Sql.limit n l = Err e -> Sql.limit n l' = Err e.
Proof.
  unfold Sql.limit. destruct n as [z|]; [|discriminate].
  destruct (z <? 0)%Z; [auto | discriminate].
Qed.

(** X2: a search with a user filter depends on that user's documents only.
    The results the query permits on the whole table are the results it
    permits on the table restricted to the rows of that user, whatever the
    other rows hold; the same holds for the source filter and the rows of
    that source; and the search is answered by an error on the one table
    exactly when it is on the other. *)
Theorem match_documents_ignores_other_users
  (cosine_distance : vector -> vector -> float)
  (query_embedding : option vector) (match_threshold : option float)
  (match_count : option Z) (documents : list Documents.row) :
  (forall user_id filter_source rows,
     permits cosine_distance query_embedding match_threshold match_count
       (Some user_id) filter_source documents rows <->
     permits cosine_distance query_embedding match_threshold match_count
       (Some user_id) filter_source
       (filter (fun d => String.eqb (Documents.user_id d) user_id) documents)
       rows) /\
  (forall filter_user_id source rows,
     permits cosine_distance query_embedding match_threshold match_count
       filter_user_id (Some source) documents rows <->
     permits cosine_distance query_embedding match_threshold match_count
       filter_user_id (Some source)
       (filter (fun d => String.eqb (Documents.source d) source) documents)
       rows) /\
  (forall filter_user_id filter_source keep e,
     match_documents cosine_distance query_embedding match_threshold
       match_count filter_user_id filter_source documents = Err e <->
     match_documents cosine_distance query_embedding match_threshold
       match_count filter_user_id filter_source (filter keep documents)
     = Err e).
Proof.
  split; [|split].
  - intros user_id filter_source rows. unfold permits.
    rewrite matching_restricted; [reflexivity|].
    intros d Hd.
    apply (match_where_holds cosine_distance query_embedding match_threshold)
      in Hd as (_ & _ & _ & _ & _ & _ & _ & Hu & _).
    apply String.eqb_eq. destruct Hu as [Hu|Hu]; congruence.
  - intros filter_user_id source rows. unfold permits.
    rewrite matching_restricted; [reflexivity|].
    intros d Hd.
    apply (match_where_holds cosine_distance query_embedding match_threshold)
      in Hd as (_ & _ & _ & _ & _ & _ & _ & _ & Hs).
    apply String.eqb_eq. destruct Hs as [Hs|Hs]; congruence.
  - intros filter_user_id filter_source keep e. unfold match_documents.
    split; apply limit_Err_any.
Qed.

(** ** Search: NULL arguments and the count *)

Lemma matching_null (cosine_distance : vector -> vector -> float)
  (query_embedding : option vector) (match_threshold : option float)
  (filter_user_id filter_source : option text)
  (documents : list Documents.row) :
  query_embedding = None \/ match_threshold = None ->
  matching cosine_distance query_embedding match_threshold
    filter_user_id filter_source documents = [].
Proof.
  intros H. unfold matching.
  induction documents as [|d l IH]; simpl; [reflexivity|].
  destruct (Sql.holds _) eqn:E; [|exact IH].
  apply (match_where_holds cosine_distance query_embedding match_threshold)
    in E as (? & ? & ? & _ & Hq & Ht & _).
  destruct H; congruence.
Qed.

(** X3: a search whose query embedding or whose threshold is NULL finds
    nothing: with a count that is NULL or not negative it returns no row,
    whatever the table holds. *)
Theorem match_documents_null_finds_nothing
  (cosine_distance : vector -> vector -> float)
  (query_embedding : option vector) (match_threshold : option float)
  (match_count : option Z) (filter_user_id filter_source : option text)
  (documents : list Documents.row) :
  query_embedding = None \/ match_threshold = None ->
  (match_count = None \/ exists z, match_count = Some z /\ (0 <= z)%Z) ->
  match_documents cosine_distance query_embedding match_threshold match_count
    filter_user_id filter_source documents = Ok [].
Proof.
  intros H Hk. unfold match_documents. rewrite matching_null by exact H.
  simpl. destruct Hk as [->|(z & -> & Hz)]; simpl; [reflexivity|].
  destruct (Z.ltb_spec z 0); [lia|]. now rewrite firstn_nil.
Qed.

Lemma match_documents_null_finds_nothing_witness :
  match_documents exact_cosine_distance None (Some (1 # 2)) (Some 10%Z)
    None None [older_email; newer_email] = Ok [].
Proof.
  apply (match_documents_null_finds_nothing exact_cosine_distance None
           (Some (1 # 2)) (Some 10%Z) None None [older_email; newer_email]).
  - left. reflexivity.
  - right. exists 10%Z. split; [reflexivity | lia].
Defined.

Lemma permits_smaller_count (cosine_distance : vector -> vector -> float)
  (query_embedding : option vector) (match_threshold : option float)
  (filter_user_id filter_source : option text)
  (documents : list Documents.row) (z : Z) (match_count : option Z) :
  (0 <= z)%Z ->
  (match_count = None \/ exists z', match_count = Some z' /\ (z <= z')%Z) ->
  (forall rows',
     permits cosine_distance query_embedding match_threshold match_count
       filter_user_id filter_source documents rows' ->
     permits cosine_distance query_embedding match_threshold (Some z)
       filter_user_id filter_source documents (firstn (Z.to_nat z) rows')) /\
  (forall rows,
     permits cosine_distance query_embedding match_threshold (Some z)
       filter_user_id filter_source documents rows ->
     exists rows',
       permits cosine_distance query_embedding match_threshold match_count
         filter_user_id filter_source documents rows' /\
       rows = firstn (Z.to_nat z) rows').
Proof.
  intros Hz Hcount.
  assert (forall l : list Match.row,
            exists rows', Sql.limit match_count l = Ok rows' /\
                          firstn (Z.to_nat z) rows' = firstn (Z.to_nat z) l)
    as Hcut.
  { intros l. unfold Sql.limit.
    destruct Hcount as [->|(z' & -> & Hz')]; [eauto|].
    destruct (Z.ltb_spec z' 0); [lia|]. eexists. split; [reflexivity|].
    rewrite firstn_firstn. f_equal. lia. }
  assert (forall l : list Match.row,
            Sql.limit (Some z) l = Ok (firstn (Z.to_nat z) l)) as Hz0.
  { intros l. unfold Sql.limit. destruct (Z.ltb_spec z 0); [lia|reflexivity]. }
  split.
  - intros rows' (l & Hperm & Hsort & Hlim).
    exists l. split; [exact Hperm|]. split; [exact Hsort|].
    rewrite Hz0. f_equal.
    destruct (Hcut (map (select cosine_distance query_embedding) l))
      as (rows1 & H1 & H2).
    rewrite Hlim in H1. injection H1 as <-. symmetry. exact H2.
  - intros rows (l & Hperm & Hsort & Hlim).
    destruct (Hcut (map (select cosine_distance query_embedding) l))
      as (rows' & H1 & H2).
    exists rows'. split.
    + exists l. auto.
    + rewrite Hz0 in Hlim. injection Hlim as <-. symmetry. exact H2.
Qed.

(** X4: a negative count is an error even when nothing matches, and no
    result is permitted; with a count of zero the empty result is the only
    one; and a smaller count cuts what a larger count, or no count at all,
    returns: the first rows of every result permitted with the larger count
    are a result permitted with the smaller one, and every result permitted
    with the smaller count is the first rows of one permitted with the larger
    count. *)
Theorem match_documents_count
  (cosine_distance : vector -> vector -> float)
  (query_embedding : option vector) (match_threshold : option float)
  (filter_user_id filter_source : option text)
  (documents : list Documents.row) :
  (forall z, (z < 0)%Z ->
     match_documents cosine_distance query_embedding match_threshold (Some z)
       filter_user_id filter_source documents
     = Err invalid_row_count_in_limit_clause /\
     forall rows,
       ~ permits cosine_distance query_embedding match_threshold (Some z)
           filter_user_id filter_source documents rows) /\
  (forall rows,
     permits cosine_distance query_embedding match_threshold (Some 0%Z)
       filter_user_id filter_source documents rows <-> rows = []) /\
  (forall z match_count,
     (0 <= z)%Z ->
     (match_count = None \/
      exists z', match_count = Some z' /\ (z <= z')%Z) ->
     (forall rows',
        permits cosine_distance query_embedding match_threshold match_count
          filter_user_id filter_source documents rows' ->
        permits cosine_distance query_embedding match_threshold (Some z)
          filter_user_id filter_source documents
          (firstn (Z.to_nat z) rows')) /\
     (forall rows,
        permits cosine_distance query_embedding match_threshold (Some z)
          filter_user_id filter_source documents rows ->
        exists rows',
          permits cosine_distance query_embedding match_threshold match_count
            filter_user_id filter_source documents rows' /\
          rows = firstn (Z.to_nat z) rows')).
Proof.
  split; [|split].
  - intros z Hz. split.
    + unfold match_documents, Sql.limit.
      destruct (Z.ltb_spec z 0); [reflexivity | lia].
    + intros rows (l & _ & _ & Hlim). unfold Sql.limit in Hlim.
      destruct (Z.ltb_spec z 0); [discriminate | lia].
  - intros rows. split.
    + intros (l & _ & _ & Hlim). cbn in Hlim. congruence.
    + intros ->.
      apply (match_documents_permits cosine_distance query_embedding
               match_threshold (Some 0%Z) filter_user_id filter_source).
      reflexivity.
  - intros z match_count Hz Hcount. now apply permits_smaller_count.
Qed.

Lemma match_documents_count_witness :
  permits exact_cosine_distance example_query (Some (-1 # 2)) (Some 1%Z)
    None None [orthogonal_email; unembedded_email; newer_email]
    (firstn (Z.to_nat 1)
       [example_select newer_email; example_select orthogonal_email]).
Proof.
  refine (proj1 (proj2 (proj2 (match_documents_count exact_cosine_distance
                                 example_query (Some (-1 # 2)) None None
                                 [orthogonal_email; unembedded_email;
                                  newer_email]))
                   1%Z (Some 2%Z) _ _) _ _).
  - lia.
  - right. exists 2%Z. split; [reflexivity | lia].
  - apply match_documents_permits. vm_compute. reflexivity.
Defined.

(** ** Search after INSERT and DELETE *)

Lemma insert_document_Ok_embedding (now : timestamptz)
  (v : InsertDocument.values) (db db' : database) (id : uuid) :
  insert_document now v db = Ok (id, db') ->
  exists d,
    documents db' = documents db ++ [d] /\
    Documents.id d = id /\
    InsertDocument.user_id v = Some (Documents.user_id d) /\
    InsertDocument.source v = Some (Documents.source d) /\
    check_dims (InsertDocument.vector_embedding v)
    = Ok (Documents.vector_embedding d).
Proof.
  unfold insert_document, bind.
  destruct (check_dims _) as [emb|]; [|discriminate].
  destruct (InsertDocument.user_id v) as [u|]; [|discriminate].
  destruct (InsertDocument.source v) as [s|]; [|discriminate].
  destruct (InsertDocument.source_id v) as [i|]; [|discriminate].
  destruct (InsertDocument.doc_type v) as [t|]; [|discriminate].
  destruct (InsertDocument.content v) as [c|]; [|discriminate].
  cbn [not_null].
  match goal with |- context [existsb ?f ?l] => destruct (existsb f l) end;
    [discriminate|].
  intros [= <- <-]. eexists. cbn. repeat split; reflexivity.
Qed.

(** X5: a document that has just been inserted with an embedding is found
    by a search whose threshold it passes, whose filters it passes and whose
    count leaves room for it: the search returns a row with the id the
    INSERT gave. *)
Theorem inserted_document_is_found
  (cosine_distance : vector -> vector -> float) (now : timestamptz)
  (v : InsertDocument.values) (db db' : database) (id : uuid)
  (e q : vector) (t : float) (match_count : option Z)
  (filter_user_id filter_source : option text) :
  insert_document now v db = Ok (id, db') ->
  InsertDocument.vector_embedding v = Some e ->
  t < 1 - cosine_distance e q ->
  (filter_user_id = None \/ filter_user_id = InsertDocument.user_id v) ->
  (filter_source = None \/ filter_source = InsertDocument.source v) ->
  (match_count = None \/
   exists z, match_count = Some z /\ (0 <= z)%Z /\
     (List.length (matching cosine_distance (Some q) (Some t)
                     filter_user_id filter_source (documents db'))
      <= Z.to_nat z)%nat) ->
  exists rows r,
    match_documents cosine_distance (Some q) (Some t) match_count
      filter_user_id filter_source (documents db') = Ok rows /\
    In r rows /\ Match.id r = id /\
    Match.similarity r = Some (1 - cosine_distance e q).
Proof.
  intros Hins He Hlt Hu Hs Hk.
  destruct (insert_document_Ok_embedding _ _ _ _ _ Hins)
    as (d & Hdocs & Hid & Hdu & Hds & Hchk).
  assert (In d (documents db')) as Hd.
  { rewrite Hdocs. apply in_or_app. right. left. reflexivity. }
  assert (Documents.vector_embedding d = Some e) as Hemb.
  { rewrite He in Hchk. unfold check_dims in Hchk.
    destruct (Nat.eqb _ _); [|discriminate]. congruence. }
  destruct (match_documents_total cosine_distance (Some q) (Some t) match_count
              filter_user_id filter_source (documents db')) as (rows & H).
  { destruct Hk as [Hk|(z & Hz & Hpos & _)]; eauto. }
  exists rows, (select cosine_distance (Some q) d).
  split; [exact H|]. split.
  - eapply match_documents_complete; try eassumption.
    + exists e, q, t. repeat split; auto.
      * rewrite Hdu in Hu. exact Hu.
      * rewrite Hds in Hs. exact Hs.
    + destruct Hk as [Hk|(z & Hz & _ & Hlen)]; eauto.
  - split; [exact Hid|].
    unfold select, similarity_of, distance. simpl. now rewrite Hemb.
Qed.

Lemma inserted_document_is_found_witness :
  exists rows r,
    match_documents exact_cosine_distance (Some (unit_vector 0))
      (Some (1 # 2)) (Some 5%Z) (Some "alice"%string) None
      (documents (exec 10%Z (InsertDocument embedded_mail) example_database))
    = Ok rows /\
    In r rows /\ Match.id r = 7%N /\
    Match.similarity r
    = Some (1 - exact_cosine_distance (unit_vector 0) (unit_vector 0)).
Proof.
  apply (inserted_document_is_found exact_cosine_distance 10%Z embedded_mail
           example_database
           (exec 10%Z (InsertDocument embedded_mail) example_database)
           7%N (unit_vector 0) (unit_vector 0) (1 # 2)
           (Some 5%Z) (Some "alice"%string) None).
  - vm_compute. reflexivity.
  - reflexivity.
  - vm_compute. reflexivity.
  - right. reflexivity.
  - left. reflexivity.
  - right. exists 5%Z. split; [reflexivity|]. split; [lia|]. vm_compute. lia.
Defined.

Lemma NoDup_map_injective {A K : Type} (key : A -> K) (l : list A) (a b : A) :
  NoDup (map key l) -> In a l -> In b l -> key a = key b -> a = b.
Proof.
  induction l as [|x l IH]; simpl; [tauto|].
  intros Hnd Ha Hb E. inversion Hnd as [|? ? Hx Hl]; subst.
  destruct Ha as [->|Ha], Hb as [->|Hb]; auto.
  - exfalso. apply Hx. rewrite E. now apply in_map.
  - exfalso. apply Hx. rewrite <- E. now apply in_map.
Qed.

(** X6: a document that has been deleted is not found any more: in a table
    whose ids are distinct, as its primary key has them, no row of a search
    over what a DELETE leaves carries the id of a document the DELETE
    selected. *)
Theorem deleted_document_is_not_found
  (cosine_distance : vector -> vector -> float)
  (query_embedding : option vector) (match_threshold : option float)
  (match_count : option Z) (filter_user_id filter_source : option text)
  (where_ : Documents.row -> bool) (db : database) (rows : list Match.row)
  (d : Documents.row) (r : Match.row) :
  NoDup (map Documents.id (documents db)) ->
  In d (documents db) -> where_ d = true ->
  match_documents cosine_distance query_embedding match_threshold match_count
    filter_user_id filter_source (documents (delete_documents where_ db))
  = Ok rows ->
  In r rows -> Match.id r <> Documents.id d.
Proof.
  intros Hnd Hd Hw H Hr E.
  destruct (match_documents_sound _ _ _ _ _ _ _ _ _ H Hr) as (d' & Hd' & -> & _).
  simpl in E, Hd'. apply filter_In in Hd' as [Hd' Hw'].
  assert (d' = d) as ->; [|rewrite Hw in Hw'; discriminate].
  eapply NoDup_map_injective; eassumption.
Qed.

Lemma deleted_document_is_not_found_witness :
  Match.id (example_select older_email) <> Documents.id unembedded_email.
Proof.
  apply (deleted_document_is_not_found exact_cosine_distance example_query
           (Some (1 # 2)) (Some 10%Z) None None
           (fun d => N.eqb (Documents.id d) 4%N) example_database
           [example_select older_email]).
  - apply (distinct_NoDup N.eqb _ N.eqb_eq). reflexivity.
  - right. left. reflexivity.
  - reflexivity.
  - vm_compute. reflexivity.
  - left. reflexivity.
Defined.

(** ** UPDATE under the declared constraints *)

Lemma NoDup_distinct {K : Type} (eqb : K -> K -> bool) (l : list K) :
  (forall a b, eqb a b = true <-> a = b) ->
  NoDup l -> distinct eqb l = true.
Proof.
  intros eqb_eq. induction 1 as [|x l Hx Hl IH]; simpl; [reflexivity|].
  rewrite IH, andb_true_r, negb_true_iff.
  destruct (existsb (eqb x) l) eqn:E; [|reflexivity].
  apply existsb_exists in E as (y & Hy & E). apply eqb_eq in E. congruence.
Qed.

Lemma check_dims_well_formed (e : option vector) :
  (forall v, e = Some v -> well_formed_vector v) <-> check_dims e = Ok e.
Proof.
  unfold check_dims, well_formed_vector. destruct e as [x|].
  - destruct (Nat.eqb_spec (List.length x) vector_dims) as [E|N]; split.
    + reflexivity.
    + intros _ v [= <-]. exact E.
    + intros H. exfalso. apply N, H. reflexivity.
    + discriminate.
  - split; [reflexivity | discriminate].
Qed.

Lemma update_documents_under_constraints (now : timestamptz)
  (where_ : Documents.row -> bool) (set : Documents.row -> Documents.row)
  (db : database) :
  documents_constraints db ->
  (forall d, Documents.id (set d) = Documents.id d /\
             Documents.unique_source_document (set d)
             = Documents.unique_source_document d) ->
  (forall d v, In d (documents db) -> where_ d = true ->
     Documents.vector_embedding (set d) = Some v -> well_formed_vector v) ->
  exists db',
    update_documents now where_ set db = Ok db' /\
    documents db' = map (update_row now where_ set) (documents db) /\
    document_entities db' = document_entities db /\
    processed_episodes db' = processed_episodes db /\
    next_uuid db' = next_uuid db /\
    documents_constraints db'.
Proof.
  intros (Hid & Hkey & Hri & Hdim) Hset Hemb.
  set (docs := map (update_row now where_ set) (documents db)).
  assert (map Documents.id docs = map Documents.id (documents db)) as Eid.
  { unfold docs. rewrite map_map. apply map_ext. intros d.
    unfold update_row. destruct (where_ d); [|reflexivity]. apply Hset. }
  assert (map Documents.unique_source_document docs
          = map Documents.unique_source_document (documents db)) as Ekey.
  { unfold docs. rewrite map_map. apply map_ext. intros d.
    unfold update_row. destruct (where_ d); [|reflexivity].
    destruct (Hset d) as [_ <-]. reflexivity. }
  assert (forall d v, In d docs -> Documents.vector_embedding d = Some v ->
                      well_formed_vector v) as Hdim'.
  { intros d' v Hd' Hv. apply in_map_iff in Hd' as (d & <- & Hd).
    unfold update_row in Hv. destruct (where_ d) eqn:W; eauto. }
  assert (forall l, In l (document_entities db) ->
            exists d, In d docs /\
                      Documents.id d = DocumentEntities.document_id l) as Hri'.
  { intros l Hl. destruct (Hri l Hl) as (d & Hd & E).
    exists (update_row now where_ set d). split; [now apply in_map|].
    rewrite <- E. unfold update_row. destruct (where_ d); [|reflexivity].
    apply Hset. }
  assert (forallb (fun d => match check_dims (Documents.vector_embedding d) with
                            | Ok _ => true
                            | Err _ => false
                            end) docs = true) as B1.
  { apply forallb_forall. intros d Hd.
    assert (check_dims (Documents.vector_embedding d)
            = Ok (Documents.vector_embedding d)) as ->; [|reflexivity].
    apply check_dims_well_formed. eauto. }
  assert (distinct N.eqb (map Documents.id docs) = true) as B2.
  { rewrite Eid. apply (NoDup_distinct N.eqb _ N.eqb_eq Hid). }
  assert (distinct text3_eqb (map Documents.unique_source_document docs) = true)
    as B3.
  { rewrite Ekey. apply (NoDup_distinct text3_eqb _ text3_eqb_eq Hkey). }
  assert (forallb (references_document docs) (document_entities db) = true)
    as B4.
  { apply forallb_forall. intros l Hl. now apply references_document_iff, Hri'. }
  rewrite <- Eid in Hid. rewrite <- Ekey in Hkey.
  eexists. unfold update_documents. subst docs. rewrite B1, B2, B3, B4.
  cbn. repeat split; try reflexivity.
  - exact Hid.
  - exact Hkey.
  - exact Hri'.
  - exact Hdim'.
Qed.

Lemma Forall2_map_same_row {A : Type} (R : A -> A -> Prop) (f : A -> A)
  (l : list A) :
  (forall a, In a l -> R a (f a)) -> Forall2 R l (map f l).
Proof.
  induction l as [|a l IH]; simpl; intros H; constructor; auto.
Qed.

Lemma example_database_constraints : documents_constraints example_database.
Proof.
  repeat split.
  - apply (distinct_NoDup N.eqb _ N.eqb_eq). reflexivity.
  - apply (distinct_NoDup text3_eqb _ text3_eqb_eq). reflexivity.
  - intros l [<-|[]]. exists older_email. split; [left|]; reflexivity.
  - intros d v [<-|[<-|[]]] [= <-]. reflexivity.
Qed.

(** X7: an UPDATE of [documents] whose SET clause leaves the id and the
    (source, source_id, user_id) of a row alone and writes no embedding of a
    wrong dimension succeeds on a table that satisfies its constraints; the
    table it leaves satisfies them again, the other tables are untouched,
    every selected row is the row of the SET clause stamped by the trigger,
    and every other row is as it was. *)
Theorem update_documents_succeeds (now : timestamptz)
  (where_ : Documents.row -> bool) (set : Documents.row -> Documents.row)
  (db : database) :
  documents_constraints db ->
  (forall d, Documents.id (set d) = Documents.id d /\
             Documents.unique_source_document (set d)
             = Documents.unique_source_document d) ->
  (forall d v, In d (documents db) -> where_ d = true ->
     Documents.vector_embedding (set d) = Some v -> well_formed_vector v) ->
  exists db',
    update_documents now where_ set db = Ok db' /\
    Forall2 (fun OLD ROW =>
               if where_ OLD then stamped now (set OLD) ROW else ROW = OLD)
      (documents db) (documents db') /\
    document_entities db' = document_entities db /\
    processed_episodes db' = processed_episodes db /\
    documents_constraints db'.
Proof.
  intros Hc Hset Hemb.
  destruct (update_documents_under_constraints now where_ set db Hc Hset Hemb)
    as (db' & Hup & Hdocs & Hl & Hp & _ & Hc').
  exists db'. repeat split; try assumption; try apply Hc'.
  rewrite Hdocs. apply Forall2_map_same_row. intros OLD _.
  unfold update_row. destruct (where_ OLD); [|reflexivity].
  apply update_updated_at_column_stamped.
Qed.

Lemma update_documents_succeeds_witness :
  exists db',
    update_documents 2000%Z (fun d => N.eqb (Documents.id d) 4%N)
      (set_vector_embedding (Some (unit_vector 1))) example_database = Ok db' /\
    Forall2 (fun OLD ROW =>
               if N.eqb (Documents.id OLD) 4%N
               then stamped 2000%Z
                      (set_vector_embedding (Some (unit_vector 1)) OLD) ROW
               else ROW = OLD)
      (documents example_database) (documents db') /\
    document_entities db' = document_entities example_database /\
    processed_episodes db' = processed_episodes example_database /\
    documents_constraints db'.
Proof.
  apply (update_documents_succeeds 2000%Z (fun d => N.eqb (Documents.id d) 4%N)
           (set_vector_embedding (Some (unit_vector 1))) example_database).
  - exact example_database_constraints.
  - intros d. split; reflexivity.
  - intros d v _ _ [= <-]. reflexivity.
Defined.

(** ** The script that regenerates the embeddings *)

Lemma Forall2_map_l {A B C : Type} (f : A -> B) (R : B -> C -> Prop)
  (l : list A) (l' : list C) :
  Forall2 R (map f l) l' -> Forall2 (fun a c => R (f a) c) l l'.
Proof.
  revert l'. induction l as [|a l IH]; simpl; intros l' H;
    inversion H; subst; constructor; auto.
Qed.

Lemma Forall2_impl_In {A B : Type} (R R' : A -> B -> Prop) (l : list A)
  (l' : list B) :
  (forall a b, In a l -> R a b -> R' a b) ->
  Forall2 R l l' -> Forall2 R' l l'.
Proof.
  intros H F. induction F as [|a b l l' Hab F IH]; constructor.
  - apply H; [now left | exact Hab].
  - apply IH. intros a' b' Ha'. apply H. now right.
Qed.

Lemma reached_incl (data : list selected) (doc : selected) :
  In doc (reached data) -> In doc data.
Proof.
  induction data as [|x data IH]; simpl; [tauto|].
  intros [->|H]; [now left|]. right.
  destruct (null_subject x); [contradiction | auto].
Qed.

Lemma is_reached_false (data : list selected) (d : Documents.row) :
  ~ In (Documents.id d) (map selected_id data) -> is_reached data d = false.
Proof.
  intros H. unfold is_reached.
  destruct (existsb _ _) eqn:E; [|reflexivity].
  apply existsb_exists in E as (doc & Hdoc & E). apply N.eqb_eq in E.
  exfalso. apply H. rewrite E. apply in_map, reached_incl, Hdoc.
Qed.

Section RegenerateFacts.
Variable generate : text -> vector.
Hypothesis generate_well_formed : well_formed_generator generate.

Lemma regenerate_loop_spec (data : list selected) :
  forall (now : timestamptz) (db : database),
  documents_constraints db ->
  NoDup (map selected_id data) ->
  (forall doc d, In doc data -> In d (documents db) ->
     Documents.id d = selected_id doc ->
     Documents.subject d = selected_subject doc /\
     Documents.content d = selected_content doc) ->
  exists db',
    regenerate_loop generate now data db
    = (if existsb null_subject data then Some TypeError else None, db') /\
    documents_constraints db' /\
    document_entities db' = document_entities db /\
    processed_episodes db' = processed_episodes db /\
    Forall2 (fun OLD ROW =>
               if is_reached data OLD then regenerated generate now OLD ROW
               else ROW = OLD)
      (documents db) (documents db').
Proof.
  induction data as [|doc data IH]; intros now db Hc Hnd Hsnap.
  - exists db. simpl. repeat split; try apply Hc.
    rewrite <- (map_id (documents db)) at 2.
    apply Forall2_map_same_row. reflexivity.
  - inversion Hnd as [|? ? Hfresh Hnd']; subst.
    destruct (update_documents_under_constraints now
                (fun d => N.eqb (Documents.id d) (selected_id doc))
                (set_vector_embedding
                   (Some (generate (embedding_text doc)))) db Hc)
      as (db1 & Hup & Hdocs & Hl & Hp & _ & Hc1).
    { intros d. split; reflexivity. }
    { intros d v _ _ [= <-]. apply generate_well_formed. }
    assert (forall OLD, In OLD (documents db) ->
              Documents.id OLD = selected_id doc ->
              regenerated generate now OLD
                (update_row now
                   (fun d => N.eqb (Documents.id d) (selected_id doc))
                   (set_vector_embedding
                      (Some (generate (embedding_text doc)))) OLD)) as Hreg.
    { intros OLD HOLD E. exists now. split; [lia|].
      unfold update_row. rewrite E, N.eqb_refl.
      destruct (Hsnap doc OLD (or_introl eq_refl) HOLD E) as [Hs Hcn].
      unfold embedding_text. simpl. rewrite Hs, Hcn. reflexivity. }
    cbn [regenerate_loop]. rewrite Hup.
    cbn [existsb reached]. unfold null_subject at 1.
    destruct (selected_subject doc) as [s|] eqn:Hsub.
    + destruct (IH (now + 1)%Z db1 Hc1 Hnd') as (db' & Hrun & Hc' & Hl' & Hp' & HF).
      { intros doc' d1 Hdoc' Hd1 E1. rewrite Hdocs in Hd1.
        apply in_map_iff in Hd1 as (d & <- & Hd).
        assert (Documents.id (update_row now
                  (fun d => N.eqb (Documents.id d) (selected_id doc))
                  (set_vector_embedding
                     (Some (generate (embedding_text doc)))) d)
                = Documents.id d) as Eid
          by (unfold update_row; destruct (N.eqb _ _); reflexivity).
        rewrite Eid in E1.
        destruct (Hsnap doc' d (or_intror Hdoc') Hd E1) as [Hs' Hc''].
        unfold update_row. destruct (N.eqb _ _); simpl; auto. }
      exists db'. simpl. rewrite Hrun.
      split; [reflexivity|]. split; [exact Hc'|].
      split; [congruence|]. split; [congruence|].
      rewrite Hdocs in HF. apply Forall2_map_l in HF.
      eapply Forall2_impl_In; [|exact HF].
      intros OLD ROW HOLD HR. cbv beta in HR.
      unfold is_reached. cbn [reached existsb]. unfold null_subject.
      rewrite Hsub. cbn [existsb].
      destruct (N.eqb_spec (Documents.id OLD) (selected_id doc)) as [E|N].
      * cbn [orb]. rewrite is_reached_false in HR.
        -- subst ROW. now apply Hreg.
        -- unfold update_row. rewrite E, N.eqb_refl. simpl.
           rewrite E. exact Hfresh.
      * cbn [orb]. unfold update_row in HR.
        destruct (N.eqb_spec (Documents.id OLD) (selected_id doc));
          [contradiction|].
        fold (is_reached data OLD).
        destruct (is_reached data OLD); [|exact HR].
        destruct HR as (t & Ht & ->). exists t. split; [lia | reflexivity].
    + exists db1. split; [reflexivity|]. split; [exact Hc1|].
      split; [exact Hl|]. split; [exact Hp|].
      rewrite Hdocs. apply Forall2_map_same_row. intros OLD HOLD.
      unfold is_reached. cbn [reached existsb]. unfold null_subject.
      rewrite Hsub. cbn [existsb]. rewrite orb_false_r.
      destruct (N.eqb_spec (Documents.id OLD) (selected_id doc)) as [E|N].
      * now apply Hreg.
      * unfold update_row.
        destruct (N.eqb_spec (Documents.id OLD) (selected_id doc));
          [contradiction | reflexivity].
Qed.

End RegenerateFacts.

Lemma Forall2_In_r {A B : Type} (R : A -> B -> Prop) (l : list A)
  (l' : list B) (b : B) :
  Forall2 R l l' -> In b l' -> exists a, In a l /\ R a b.
Proof.
  induction 1 as [|x y l l' Hxy F IH]; simpl; [tauto|].
  intros [<-|Hb]; [eauto|].
  destruct (IH Hb) as (a & Ha & Hab). eauto.
Qed.

Lemma reached_all (data : list selected) :
  existsb null_subject data = false -> reached data = data.
Proof.
  induction data as [|x data IH]; simpl; [reflexivity|].
  destruct (null_subject x); simpl; [discriminate|].
  intros H. now rewrite IH.
Qed.

Lemma reached_until (l1 l2 : list selected) (x : selected) :
  existsb null_subject l1 = false -> null_subject x = true ->
  reached (l1 ++ x :: l2) = l1 ++ [x] /\
  existsb null_subject (l1 ++ x :: l2) = true.
Proof.
  induction l1 as [|y l1 IH]; simpl.
  - intros _ ->. auto.
  - destruct (null_subject y); simpl; [discriminate|].
    intros H Hx. destruct (IH H Hx) as [-> ->]. auto.
Qed.

Lemma snapshot_member (docs S : list Documents.row) (OLD : Documents.row) :
  NoDup (map Documents.id docs) ->
  In OLD docs -> (forall x, In x S -> In x docs) ->
  existsb (fun doc => N.eqb (Documents.id OLD) (selected_id doc))
    (map snapshot S) = true <-> In OLD S.
Proof.
  intros Hnd HOLD HS. rewrite existsb_exists. split.
  - intros (doc & Hdoc & E). apply in_map_iff in Hdoc as (x & <- & Hx).
    apply N.eqb_eq in E. simpl in E.
    rewrite (NoDup_map_injective Documents.id docs OLD x Hnd HOLD (HS x Hx) E).
    exact Hx.
  - intros H. exists (snapshot OLD). split; [now apply in_map|].
    apply N.eqb_refl.
Qed.

Lemma null_subject_snapshots (l : list Documents.row) :
  (forall d, In d l -> Documents.vector_embedding d = None ->
             Documents.subject d <> None) ->
  existsb null_subject (map snapshot (filter is_null_embedding l)) = false.
Proof.
  intros H. destruct (existsb _ _) eqn:E; [|reflexivity].
  apply existsb_exists in E as (doc & Hdoc & E).
  apply in_map_iff in Hdoc as (d & <- & Hd).
  apply filter_In in Hd as [Hd Hn]. unfold is_null_embedding in Hn.
  unfold null_subject in E. simpl in E.
  destruct (Documents.vector_embedding d) eqn:Ev; [discriminate|].
  specialize (H d Hd Ev). destruct (Documents.subject d); congruence.
Qed.

Lemma regenerated_embedding (generate : text -> vector) (now : timestamptz)
  (OLD ROW : Documents.row) :
  regenerated generate now OLD ROW ->
  Documents.vector_embedding ROW
  = Some (generate (embedding_text (snapshot OLD))).
Proof. intros (t & _ & ->). reflexivity. Qed.

Lemma select_null_embeddings_facts (db : database) :
  documents_constraints db ->
  NoDup (map selected_id (select_null_embeddings db)) /\
  (forall doc d, In doc (select_null_embeddings db) -> In d (documents db) ->
     Documents.id d = selected_id doc ->
     Documents.subject d = selected_subject doc /\
     Documents.content d = selected_content doc).
Proof.
  intros (Hid & _). unfold select_null_embeddings. split.
  - rewrite map_map. simpl. now apply NoDup_map_filter.
  - intros doc d Hdoc Hd E. apply in_map_iff in Hdoc as (x & <- & Hx).
    apply filter_In in Hx as [Hx _]. simpl in *.
    now rewrite (NoDup_map_injective Documents.id _ d x Hid Hd Hx E).
Qed.

(** X8: on a table that satisfies its constraints, with a generator of
    well-formed vectors, and when every document without embedding has a
    subject, [regenerate] runs to its end: it gives every document without
    embedding the embedding of its subject and content, stamped by the
    trigger, leaves the documents that had one, the links and the ledger as
    they were, leaves no document without embedding, and a second run
    changes nothing. *)
Theorem regenerate_completes (generate : text -> vector) (now : timestamptz)
  (db : database) :
  well_formed_generator generate ->
  documents_constraints db ->
  (forall d, In d (documents db) -> Documents.vector_embedding d = None ->
             Documents.subject d <> None) ->
  exists db',
    regenerate generate now db = (None, db') /\
    Forall2 (regenerated_if_null generate now) (documents db) (documents db') /\
    (forall d, In d (documents db') -> Documents.vector_embedding d <> None) /\
    document_entities db' = document_entities db /\
    processed_episodes db' = processed_episodes db /\
    documents_constraints db' /\
    (forall now', regenerate generate now' db' = (None, db')).
Proof.
  intros Hgen Hc Hsub.
  destruct (select_null_embeddings_facts db Hc) as [Hnd Hsnap].
  destruct (regenerate_loop_spec generate Hgen (select_null_embeddings db)
              now db Hc Hnd Hsnap) as (db' & Hrun & Hc' & Hl & Hp & HF).
  pose proof (null_subject_snapshots (documents db) Hsub) as Hnone.
  change (map snapshot (filter is_null_embedding (documents db)))
    with (select_null_embeddings db) in Hnone.
  rewrite Hnone in Hrun.
  assert (Forall2 (regenerated_if_null generate now)
            (documents db) (documents db')) as HF'.
  { eapply Forall2_impl_In; [|exact HF].
    intros OLD ROW HOLD HR. cbv beta in HR.
    unfold is_reached in HR. rewrite (reached_all _ Hnone) in HR.
    unfold regenerated_if_null.
    destruct (snapshot_member (documents db)
                (filter is_null_embedding (documents db)) OLD
                (proj1 Hc) HOLD) as [Hm1 Hm2].
    { intros x Hx. now apply filter_In in Hx. }
    change (select_null_embeddings db)
      with (map snapshot (filter is_null_embedding (documents db))) in HR.
    destruct (Documents.vector_embedding OLD) eqn:Ev.
    - rewrite (not_true_is_false _) in HR; [exact HR|].
      intros Et. apply Hm1, filter_In in Et as [_ Et].
      unfold is_null_embedding in Et. rewrite Ev in Et. discriminate.
    - rewrite Hm2 in HR; [exact HR|].
      apply filter_In. split; [exact HOLD|].
      unfold is_null_embedding. now rewrite Ev. }
  assert (forall d, In d (documents db') ->
                    Documents.vector_embedding d <> None) as Hall.
  { intros d Hd.
    destruct (Forall2_In_r _ _ _ _ HF' Hd) as (OLD & HOLD & HR).
    unfold regenerated_if_null in HR.
    destruct (Documents.vector_embedding OLD) eqn:Ev.
    - subst d. congruence.
    - apply regenerated_embedding in HR. congruence. }
  exists db'. unfold regenerate. repeat split; auto; try apply Hc'.
  intros now'. unfold select_null_embeddings.
  assert (filter is_null_embedding (documents db') = []) as ->; [|reflexivity].
  destruct (filter _ _) as [|x l] eqn:E; [reflexivity|].
  assert (In x (filter is_null_embedding (documents db'))) as Hx
    by (rewrite E; now left).
  apply filter_In in Hx as [Hx Hn]. unfold is_null_embedding in Hn.
  specialize (Hall x Hx). destruct (Documents.vector_embedding x);
    [discriminate | congruence].
Qed.

Lemma constant_generator_well_formed : well_formed_generator constant_generator.
Proof. intros s. reflexivity. Qed.

Lemma titled_database_constraints : documents_constraints titled_database.
Proof.
  repeat split.
  - apply (distinct_NoDup N.eqb _ N.eqb_eq). reflexivity.
  - apply (distinct_NoDup text3_eqb _ text3_eqb_eq). reflexivity.
  - intros l [].
  - intros d v [<-|[]] [=].
Qed.

Lemma regenerate_completes_witness :
  exists db',
    regenerate constant_generator 20%Z titled_database = (None, db') /\
    Forall2 (regenerated_if_null constant_generator 20%Z)
      (documents titled_database) (documents db') /\
    (forall d, In d (documents db') -> Documents.vector_embedding d <> None) /\
    document_entities db' = document_entities titled_database /\
    processed_episodes db' = processed_episodes titled_database /\
    documents_constraints db' /\
    (forall now', regenerate constant_generator now' db' = (None, db')).
Proof.
  apply (regenerate_completes constant_generator 20%Z titled_database).
  - exact constant_generator_well_formed.
  - exact titled_database_constraints.
  - intros d [<-|[]] _. discriminate.
Defined.

Lemma NoDup_app_disjoint {A : Type} (l1 l2 : list A) (x : A) :
  NoDup (l1 ++ l2) -> In x l1 -> In x l2 -> False.
Proof.
  induction l1 as [|y l1 IH]; simpl; [tauto|].
  intros H. inversion H as [|? ? Hy Hl]; subst.
  intros [->|Hx] Hx2; [|eauto].
  apply Hy, in_or_app. now right.
Qed.

Lemma Forall2_eq_r {A : Type} (l l' : list A) :
  Forall2 (fun a b => b = a) l l' -> l' = l.
Proof. induction 1; subst; reflexivity. Qed.

(** X9: the script stops at the first document without embedding whose
    subject is NULL. That document has by then been given the embedding of
    the text that starts with the word None, and the documents before it are
    regenerated; the line that prints the subject then raises [TypeError], and
    the documents after it keep their NULL embedding. *)
Theorem regenerate_stops_at_null_subject (generate : text -> vector)
  (now : timestamptz) (db : database) (pre post : list Documents.row)
  (d : Documents.row) :
  well_formed_generator generate ->
  documents_constraints db ->
  documents db = pre ++ d :: post ->
  Documents.vector_embedding d = None ->
  Documents.subject d = None ->
  (forall x, In x pre -> Documents.vector_embedding x = None ->
             Documents.subject x <> None) ->
  exists db' pre' d',
    regenerate generate now db = (Some TypeError, db') /\
    documents db' = pre' ++ d' :: post /\
    Forall2 (regenerated_if_null generate now) pre pre' /\
    regenerated generate now d d' /\
    Documents.vector_embedding d'
    = Some (generate (String.append "None"
                        (String.append " " (Documents.content d)))).
Proof.
  intros Hgen Hc Hdocs Hemb Hsubj Hpre.
  destruct (select_null_embeddings_facts db Hc) as [Hnd Hsnap].
  destruct (regenerate_loop_spec generate Hgen (select_null_embeddings db)
              now db Hc Hnd Hsnap) as (db' & Hrun & _ & _ & _ & HF).
  assert (select_null_embeddings db
          = map snapshot (filter is_null_embedding pre)
            ++ snapshot d :: map snapshot (filter is_null_embedding post))
    as Hsel.
  { unfold select_null_embeddings. rewrite Hdocs, filter_app. simpl.
    unfold is_null_embedding at 2. rewrite Hemb.
    now rewrite map_app. }
  destruct (reached_until (map snapshot (filter is_null_embedding pre))
              (map snapshot (filter is_null_embedding post)) (snapshot d))
    as [Hreached Hstop].
  { now apply null_subject_snapshots. }
  { unfold null_subject. simpl. now rewrite Hsubj. }
  rewrite Hsel, Hstop in Hrun.
  assert (forall OLD, In OLD (documents db) ->
            is_reached (select_null_embeddings db) OLD = true <->
            In OLD (filter is_null_embedding pre ++ [d])) as Hmem.
  { intros OLD HOLD. unfold is_reached. rewrite Hsel, Hreached.
    change [snapshot d] with (map snapshot [d]). rewrite <- map_app.
    apply (snapshot_member (documents db)); [apply Hc | exact HOLD |].
    intros x Hx. rewrite Hdocs.
    apply in_app_iff in Hx as [Hx|[<-|[]]].
    - apply filter_In in Hx as [Hx _]. apply in_or_app. now left.
    - apply in_or_app. right. now left. }
  rewrite Hdocs in HF.
  apply Forall2_app_inv_l in HF as (pre' & rest' & Fpre & Frest & Hdocs').
  inversion Frest as [|? d' ? post' Hd' Fpost]; subst.
  exists db', pre', d'.
  assert (post' = post) as ->.
  { apply Forall2_eq_r. eapply Forall2_impl_In; [|exact Fpost].
    intros OLD ROW HOLD HR. cbv beta in HR.
    rewrite (not_true_is_false _) in HR; [exact HR|].
    intros Et. apply Hmem in Et.
    - destruct Hc as (Hid & _). rewrite Hdocs in Hid.
      assert (NoDup ((pre ++ [d]) ++ post)) as Hnd'.
      { rewrite <- app_assoc. simpl.
        eapply NoDup_map_inv. exact Hid. }
      eapply (NoDup_app_disjoint _ _ OLD Hnd'); [|exact HOLD].
      apply in_app_iff in Et as [Et|Et].
      + apply filter_In in Et as [Et _]. apply in_or_app. now left.
      + apply in_or_app. now right.
    - rewrite Hdocs. apply in_or_app. right. now right. }
  split; [unfold regenerate; rewrite Hsel; exact Hrun|].
  split; [exact Hdocs'|].
  assert (regenerated generate now d d') as Hreg.
  { assert (In d (documents db)) as Hd
      by (rewrite Hdocs; apply in_or_app; right; now left).
    cbv beta in Hd'. rewrite (proj2 (Hmem d Hd)) in Hd'; [exact Hd'|].
    apply in_or_app. right. now left. }
  split; [|split; [exact Hreg|]].
  - eapply Forall2_impl_In; [|exact Fpre].
    intros OLD ROW HOLD HR. cbv beta in HR. unfold regenerated_if_null.
    assert (In OLD (documents db)) as HOLD'
      by (rewrite Hdocs; apply in_or_app; now left).
    destruct (Documents.vector_embedding OLD) eqn:Ev.
    + rewrite (not_true_is_false _) in HR; [exact HR|].
      intros Et. apply (Hmem OLD HOLD') in Et.
      apply in_app_iff in Et as [Et|[<-|[]]].
      * apply filter_In in Et as [_ Et]. unfold is_null_embedding in Et.
        rewrite Ev in Et. discriminate.
      * congruence.
    + rewrite (proj2 (Hmem OLD HOLD')) in HR; [exact HR|].
      apply in_or_app. left. apply filter_In. split; [exact HOLD|].
      unfold is_null_embedding. now rewrite Ev.
  - rewrite (regenerated_embedding _ _ _ _ Hreg).
    unfold embedding_text, snapshot. simpl. now rewrite Hsubj.
Qed.

Lemma regenerate_stops_at_null_subject_witness :
  exists db' pre' d',
    regenerate constant_generator 2000%Z example_database
    = (Some TypeError, db') /\
    documents db' = pre' ++ d' :: [] /\
    Forall2 (regenerated_if_null constant_generator 2000%Z)
      [older_email] pre' /\
    regenerated constant_generator 2000%Z unembedded_email d' /\
    Documents.vector_embedding d'
    = Some (constant_generator
              (String.append "None"
                 (String.append " " (Documents.content unembedded_email)))).
Proof.
  apply (regenerate_stops_at_null_subject constant_generator 2000%Z
           example_database [older_email] [] unembedded_email).
  - exact constant_generator_well_formed.
  - exact example_database_constraints.
  - reflexivity.
  - reflexivity.
  - reflexivity.
  - intros x [<-|[]] H. discriminate.
Defined.

(** ** Migration 004 *)

Lemma fix_vector_embeddings_constraints (db : database) :
  documents_constraints db -> documents_constraints (fix_vector_embeddings db).
Proof.
  intros (Hid & Hkey & Hri & _). unfold documents_constraints. cbn.
  rewrite !map_map. repeat split; try assumption.
  - intros l Hl. destruct (Hri l Hl) as (d & Hd & E).
    exists (set_vector_embedding None d).
    split; [now apply in_map | exact E].
  - intros d v Hd Hv. apply in_map_iff in Hd as (x & <- & _). discriminate.
Qed.

Lemma filter_cleared (l : list Documents.row) :
  filter is_null_embedding (map (set_vector_embedding None) l)
  = map (set_vector_embedding None) l.
Proof.
  induction l as [|d l IH]; simpl; [reflexivity|]. now rewrite IH.
Qed.

(** X10: after migration 004 every embedding is NULL and nothing else has
    changed, not even [updated_at]; a search then finds nothing, whatever the
    query, until the embeddings are regenerated; and every document is among
    those the regeneration script selects. *)
Theorem fix_vector_embeddings_empties_search
  (cosine_distance : vector -> vector -> float) (db : database) :
  documents (fix_vector_embeddings db)
  = map (set_vector_embedding None) (documents db) /\
  (forall d, In d (documents (fix_vector_embeddings db)) ->
     Documents.vector_embedding d = None) /\
  map Documents.updated_at (documents (fix_vector_embeddings db))
  = map Documents.updated_at (documents db) /\
  map selected_id (select_null_embeddings (fix_vector_embeddings db))
  = map Documents.id (documents db) /\
  (forall query_embedding match_threshold match_count
          filter_user_id filter_source,
     (match_count = None \/ exists z, match_count = Some z /\ (0 <= z)%Z) ->
     match_documents cosine_distance query_embedding match_threshold
       match_count filter_user_id filter_source
       (documents (fix_vector_embeddings db)) = Ok []).
Proof.
  assert (forall d, In d (documents (fix_vector_embeddings db)) ->
            Documents.vector_embedding d = None) as Hnull.
  { intros d Hd. simpl in Hd. apply in_map_iff in Hd as (x & <- & _).
    reflexivity. }
  split; [reflexivity|]. split; [exact Hnull|].
  split; [simpl; now rewrite map_map|]. split.
  - unfold select_null_embeddings. simpl.
    rewrite filter_cleared, !map_map. reflexivity.
  - intros q thr k fu fs Hk. unfold match_documents.
    assert (matching cosine_distance q thr fu fs
              (documents (fix_vector_embeddings db)) = []) as ->.
    { unfold matching.
      induction (documents (fix_vector_embeddings db)) as [|d l IH];
        simpl; [reflexivity|].
      destruct (Sql.holds _) eqn:E.
      - apply (match_where_holds cosine_distance q thr) in E
          as (e & _ & _ & He & _).
        rewrite Hnull in He by now left. discriminate.
      - apply IH. intros x Hx. apply Hnull. now right. }
    simpl. destruct Hk as [->|(z & -> & Hz)]; simpl; [reflexivity|].
    destruct (Z.ltb_spec z 0); [lia|]. now rewrite firstn_nil.
Qed.

Lemma fix_vector_embeddings_empties_search_witness :
  match_documents exact_cosine_distance example_query (Some (-1 # 2))
    (Some 10%Z) None None (documents (fix_vector_embeddings example_database))
  = Ok [].
Proof.
  apply (proj2 (proj2 (proj2 (proj2
           (fix_vector_embeddings_empties_search exact_cosine_distance
              example_database))))).
  right. exists 10%Z. split; [reflexivity | lia].
Defined.

(** X11: migration 004 followed by the regeneration script re-embeds the
    whole table. When the table satisfies its constraints, the generator
    returns well-formed vectors and every document has a subject, the script
    runs to its end and every document comes out with the embedding of its
    subject and content, stamped by the trigger, links and ledger as before. *)
Theorem fix_then_regenerate (generate : text -> vector) (now : timestamptz)
  (db : database) :
  well_formed_generator generate ->
  documents_constraints db ->
  (forall d, In d (documents db) -> Documents.subject d <> None) ->
  exists db',
    regenerate generate now (fix_vector_embeddings db) = (None, db') /\
    Forall2 (regenerated generate now) (documents db) (documents db') /\
    document_entities db' = document_entities db /\
    processed_episodes db' = processed_episodes db.
Proof.
  intros Hgen Hc Hsub.
  pose proof (fix_vector_embeddings_constraints db Hc) as Hc0.
  destruct (select_null_embeddings_facts _ Hc0) as [Hnd Hsnap].
  destruct (regenerate_loop_spec generate Hgen
              (select_null_embeddings (fix_vector_embeddings db))
              now _ Hc0 Hnd Hsnap) as (db' & Hrun & _ & Hl & Hp & HF).
  assert (filter is_null_embedding (documents (fix_vector_embeddings db))
          = documents (fix_vector_embeddings db)) as Hall.
  { simpl. apply filter_cleared. }
  assert (existsb null_subject
            (select_null_embeddings (fix_vector_embeddings db)) = false)
    as Hnone.
  { apply null_subject_snapshots. intros d Hd _. simpl in Hd.
    apply in_map_iff in Hd as (x & <- & Hx). simpl. now apply Hsub. }
  rewrite Hnone in Hrun. exists db'.
  split; [exact Hrun|]. split; [|split; [exact Hl | exact Hp]].
  change (documents (fix_vector_embeddings db))
    with (map (set_vector_embedding None) (documents db)) in HF at 1.
  apply Forall2_map_l in HF.
  eapply Forall2_impl_In; [|exact HF].
  intros OLD ROW HOLD HR. cbv beta in HR.
  assert (is_reached (select_null_embeddings (fix_vector_embeddings db))
            (set_vector_embedding None OLD) = true) as Hm.
  { unfold is_reached. rewrite (reached_all _ Hnone).
    unfold select_null_embeddings. rewrite Hall.
    apply (snapshot_member (documents (fix_vector_embeddings db))).
    - apply Hc0.
    - simpl. now apply in_map.
    - auto.
    - simpl. now apply in_map. }
  rewrite Hm in HR. exact HR.
Qed.

Lemma titled_database_subjects :
  forall d, In d (documents titled_database) -> Documents.subject d <> None.
Proof. intros d [<-|[]]. discriminate. Qed.

Lemma fix_then_regenerate_witness :
  exists db',
    regenerate constant_generator 20%Z (fix_vector_embeddings titled_database)
    = (None, db') /\
    Forall2 (regenerated constant_generator 20%Z)
      (documents titled_database) (documents db') /\
    document_entities db' = document_entities titled_database /\
    processed_episodes db' = processed_episodes titled_database.
Proof.
  apply (fix_then_regenerate constant_generator 20%Z titled_database).
  - exact constant_generator_well_formed.
  - exact titled_database_constraints.
  - exact titled_database_subjects.
Defined.

(** ** Documents of an entity *)

Lemma existsb_eqb_In (x : uuid) (l : list uuid) :
  existsb (N.eqb x) l = true <-> In x l.
Proof.
  rewrite existsb_exists. split.
  - intros (y & Hy & E). apply N.eqb_eq in E. now subst.
  - intros H. exists x. split; [exact H | apply N.eqb_refl].
Qed.

Lemma linked_document_ids_In (entity_uuid : text) (db : database) (i : uuid) :
  In i (linked_document_ids entity_uuid db) <->
  exists l, In l (document_entities db) /\
            DocumentEntities.unique_document_entity l = (i, entity_uuid).
Proof.
  unfold linked_document_ids, DocumentEntities.unique_document_entity.
  rewrite in_map_iff. split.
  - intros (l & <- & Hl). apply filter_In in Hl as [Hl E].
    apply String.eqb_eq in E. exists l. split; [exact Hl | congruence].
  - intros (l & Hl & [= <- <-]). exists l. split; [reflexivity|].
    apply filter_In. split; [exact Hl | apply String.eqb_refl].
Qed.

Lemma linked_document_ids_NoDup (entity_uuid : text) (db : database) :
  links_constraint db -> NoDup (linked_document_ids entity_uuid db).
Proof.
  unfold links_constraint, linked_document_ids.
  induction (document_entities db) as [|l ls IH]; simpl; [constructor|].
  intros H. inversion H as [|? ? Hl Hls]; subst.
  destruct (String.eqb_spec (DocumentEntities.entity_uuid l) entity_uuid)
    as [E|N]; simpl; [|auto].
  constructor; [|auto].
  intros Hin. apply in_map_iff in Hin as (l' & E' & Hl').
  apply filter_In in Hl' as [Hl' E2]. apply String.eqb_eq in E2.
  apply Hl. apply in_map_iff. exists l'. split; [|exact Hl'].
  unfold DocumentEntities.unique_document_entity. congruence.
Qed.

(** X12: the lookup of the documents of an entity resolves every link once.
    On a database that satisfies its constraints, the ids of the documents
    the second query returns are the ids the first query found, each once:
    no link is lost, none dangles, no document comes twice. *)
Theorem documents_of_entity_resolves_links (entity_uuid : text)
  (db : database) :
  documents_constraints db -> links_constraint db ->
  Permutation (map Documents.id (documents_of_entity entity_uuid db))
              (linked_document_ids entity_uuid db) /\
  NoDup (map Documents.id (documents_of_entity entity_uuid db)).
Proof.
  intros (Hid & _ & Hri & _) Hlinks.
  assert (NoDup (map Documents.id (documents_of_entity entity_uuid db))) as Hnd.
  { unfold documents_of_entity, documents_with_ids. now apply NoDup_map_filter. }
  split; [|exact Hnd].
  apply NoDup_Permutation; [exact Hnd | now apply linked_document_ids_NoDup |].
  intros i. unfold documents_of_entity, documents_with_ids.
  rewrite in_map_iff. split.
  - intros (d & <- & Hd). apply filter_In in Hd as [_ Hd].
    now apply existsb_eqb_In.
  - intros Hi. pose proof Hi as Hi'.
    apply linked_document_ids_In in Hi' as (l & Hl & E).
    destruct (Hri l Hl) as (d & Hd & Ed).
    unfold DocumentEntities.unique_document_entity in E.
    injection E as E _. exists d. split; [congruence|].
    apply filter_In. split; [exact Hd|].
    apply existsb_eqb_In. congruence.
Qed.

Lemma example_database_links : links_constraint example_database.
Proof.
  apply (distinct_NoDup uuid_text_eqb _ uuid_text_eqb_eq). reflexivity.
Qed.

Lemma documents_of_entity_resolves_links_witness :
  Permutation
    (map Documents.id (documents_of_entity "entity_acme"%string example_database))
    (linked_document_ids "entity_acme"%string example_database) /\
  NoDup (map Documents.id (documents_of_entity "entity_acme"%string example_database)).
Proof.
  apply (documents_of_entity_resolves_links "entity_acme"%string example_database).
  - exact example_database_constraints.
  - exact example_database_links.
Defined.

(** X13: a link that has just been inserted is found by the lookup: after a
    successful INSERT into [document_entities], the documents of the entity
    include a document with the id the link names. *)
Theorem inserted_link_is_looked_up (now : timestamptz)
  (v : InsertDocumentEntity.values) (db db' : database) (id document_id : uuid)
  (entity_uuid : text) :
  insert_document_entity now v db = Ok (id, db') ->
  InsertDocumentEntity.document_id v = Some document_id ->
  InsertDocumentEntity.entity_uuid v = Some entity_uuid ->
  exists d,
    In d (documents_of_entity entity_uuid db') /\
    Documents.id d = document_id /\
    In document_id (linked_document_ids entity_uuid db').
Proof.
  intros H Hd He.
  apply insert_document_entity_Ok in H
    as (l & Hl & Hdocs & _ & _ & Hld & Hle & _ & _ & _ & Href).
  assert (In document_id (linked_document_ids entity_uuid db')) as Hin.
  { apply linked_document_ids_In. exists l. split.
    - rewrite Hl. apply in_or_app. right. now left.
    - unfold DocumentEntities.unique_document_entity. congruence. }
  apply references_document_iff in Href as (d & Hdin & E).
  exists d. split; [|split; [congruence | exact Hin]].
  unfold documents_of_entity, documents_with_ids. rewrite Hdocs.
  apply filter_In. split; [exact Hdin|].
  apply existsb_eqb_In. congruence.
Qed.

Lemma inserted_link_is_looked_up_witness :
  exists d,
    In d (documents_of_entity "entity_sarah"%string
            (exec 30%Z (InsertDocumentEntity sarah_link) example_database)) /\
    Documents.id d = 4%N /\
    In 4%N (linked_document_ids "entity_sarah"%string
              (exec 30%Z (InsertDocumentEntity sarah_link) example_database)).
Proof.
  apply (inserted_link_is_looked_up 30%Z sarah_link example_database
           (exec 30%Z (InsertDocumentEntity sarah_link) example_database)
           7%N 4%N "entity_sarah"%string); reflexivity.
Defined.

Lemma filter_swap {A : Type} (f g : A -> bool) (l : list A) :
  filter f (filter g l) = filter g (filter f l).
Proof.
  induction l as [|x l IH]; simpl; [reflexivity|].
  destruct (f x) eqn:F, (g x) eqn:G; simpl; rewrite ?F, ?G, IH; reflexivity.
Qed.

(** X14: deleting documents removes them, and only them, from the documents
    of every entity: on a table with distinct ids, the lookup on what a
    DELETE leaves is the lookup before it without the documents the DELETE
    selected. *)
Theorem documents_of_entity_after_delete (entity_uuid : text)
  (where_ : Documents.row -> bool) (db : database) :
  NoDup (map Documents.id (documents db)) ->
  documents_of_entity entity_uuid (delete_documents where_ db)
  = filter (fun d => negb (where_ d)) (documents_of_entity entity_uuid db).
Proof.
  intros Hid. unfold documents_of_entity, documents_with_ids.
  cbn [documents delete_documents].
  rewrite (filter_swap (fun d => negb (where_ d))). apply filter_ext_in.
  intros d Hd. apply filter_In in Hd as [Hd Hw]. apply negb_true_iff in Hw.
  apply eq_true_iff_eq. rewrite !existsb_eqb_In, !linked_document_ids_In.
  split; intros (l & Hl & E); exists l; (split; [|exact E]).
  - now apply delete_documents_links in Hl.
  - apply delete_documents_links. split; [exact Hl|].
    intros d' Hd' Hw' E'.
    unfold DocumentEntities.unique_document_entity in E.
    injection E as E _.
    assert (d' = d); [|congruence].
    eapply NoDup_map_injective; try eassumption. congruence.
Qed.

Lemma documents_of_entity_after_delete_witness :
  documents_of_entity "entity_acme"%string
    (delete_documents (fun d => N.eqb (Documents.id d) 1%N) example_database)
  = filter (fun d => negb (N.eqb (Documents.id d) 1%N))
      (documents_of_entity "entity_acme"%string example_database).
Proof.
  apply (documents_of_entity_after_delete "entity_acme"%string
           (fun d => N.eqb (Documents.id d) 1%N) example_database).
  apply example_database_constraints.
Defined.

(** ** Cleaning duplicate episodes *)

Lemma insert_desc_perm (x : Episodic.node) (l : list Episodic.node) :
  Permutation (x :: l) (Cypher.insert_desc x l).
Proof.
  induction l as [|y l IH]; simpl; [apply Permutation_refl|].
  destruct (Episodic.created_at y <=? Episodic.created_at x)%Z.
  - apply Permutation_refl.
  - eapply perm_trans; [apply perm_swap | now apply perm_skip].
Qed.

Lemma order_desc_perm (l : list Episodic.node) :
  Permutation l (Cypher.order_by_created_at_desc l).
Proof.
  induction l as [|x l IH]; simpl; [constructor|].
  eapply perm_trans; [apply perm_skip, IH | apply insert_desc_perm].
Qed.

Lemma insert_desc_sorted (x : Episodic.node) (l : list Episodic.node) :
  StronglySorted at_least_as_recent l ->
  StronglySorted at_least_as_recent (Cypher.insert_desc x l).
Proof.
  induction 1 as [|y l Hl IH Hy]; simpl; [repeat constructor|].
  destruct (Z.leb_spec (Episodic.created_at y) (Episodic.created_at x)).
  - constructor; [now constructor|]. constructor; [exact H|].
    eapply Forall_impl; [|exact Hy]. unfold at_least_as_recent. intros; lia.
  - constructor; [exact IH|].
    eapply Permutation_Forall; [apply insert_desc_perm|].
    constructor; [unfold at_least_as_recent; lia | exact Hy].
Qed.

Lemma order_desc_sorted (l : list Episodic.node) :
  StronglySorted at_least_as_recent (Cypher.order_by_created_at_desc l).
Proof.
  induction l as [|x l IH]; simpl; [constructor | now apply insert_desc_sorted].
Qed.

Lemma filter_all {A : Type} (f : A -> bool) (l : list A) :
  (forall x, In x l -> f x = true) -> filter f l = l.
Proof.
  induction l as [|x l IH]; simpl; intros H; [reflexivity|].
  rewrite (H x) by now left. f_equal. apply IH. auto.
Qed.

Lemma filter_only {A : Type} (f : A -> bool) (l : list A) (h : A) :
  NoDup l -> In h l -> (forall x, In x l -> f x = true <-> x = h) ->
  filter f l = [h].
Proof.
  induction l as [|y l IH]; simpl; [tauto|].
  intros Hnd Hh Hf. inversion Hnd as [|? ? Hy Hl]; subst.
  destruct Hh as [->|Hh].
  - rewrite (proj2 (Hf h (or_introl eq_refl)) eq_refl). f_equal.
    destruct (filter f l) as [|z zs] eqn:E; [reflexivity|].
    assert (In z (filter f l)) as Hz by (rewrite E; now left).
    apply filter_In in Hz as [Hz Fz].
    apply Hf in Fz; [|now right]. subst. contradiction.
  - destruct (f y) eqn:F.
    + apply Hf in F; [|now left]. subst. contradiction.
    + apply IH; [exact Hl | exact Hh | intros x Hx; apply Hf; now right].
Qed.

Lemma is_among_In (eps l : list Episodic.node) (e : Episodic.node) :
  NoDup (map Episodic.id eps) -> In e eps -> (forall x, In x l -> In x eps) ->
  is_among l (Episodic.id e) = true <-> In e l.
Proof.
  intros Hnd He Hl. unfold is_among. rewrite existsb_exists. split.
  - intros (x & Hx & E). apply N.eqb_eq in E.
    now rewrite (NoDup_map_injective Episodic.id eps e x Hnd He (Hl x Hx)).
  - intros H. exists e. split; [exact H | apply N.eqb_refl].
Qed.

Lemma newest_first_facts (name : text) (g : graph) :
  NoDup (map Episodic.id (episodes g)) ->
  NoDup (episodes_newest_first name g) /\
  (forall e, In e (episodes_newest_first name g) <->
             In e (episodes g) /\ has_name name e = true) /\
  (forall e, In e (duplicates name g) -> In e (episodes_newest_first name g)).
Proof.
  intros Hnd. unfold duplicates, episodes_newest_first.
  split; [|split].
  - eapply Permutation_NoDup; [apply order_desc_perm|].
    apply NoDup_filter. eapply NoDup_map_inv. exact Hnd.
  - intros e. rewrite <- filter_In. split; intros H.
    + eapply Permutation_in; [apply Permutation_sym, order_desc_perm | exact H].
    + eapply Permutation_in; [apply order_desc_perm | exact H].
  - intros e He.
    rewrite <- (firstn_skipn 1
                  (Cypher.order_by_created_at_desc
                     (filter (has_name name) (episodes g)))).
    apply in_or_app. now right.
Qed.

Lemma is_among_duplicates (name : text) (g : graph) (e : Episodic.node) :
  NoDup (map Episodic.id (episodes g)) -> In e (episodes g) ->
  is_among (duplicates name g) (Episodic.id e) = true <->
  In e (duplicates name g).
Proof.
  intros Hnd He.
  destruct (newest_first_facts name g Hnd) as (_ & HinO & HD).
  apply (is_among_In (episodes g)); auto.
  intros x Hx. now apply HD, HinO in Hx.
Qed.

Lemma delete_duplicates_remaining (name : text) (g : graph) :
  NoDup (map Episodic.id (episodes g)) ->
  filter (has_name name) (episodes (snd (delete_duplicates name g)))
  = firstn 1 (episodes_newest_first name g).
Proof.
  intros Hnd.
  destruct (newest_first_facts name g Hnd) as (HndO & HinO & HD).
  pose proof (fun e He => is_among_duplicates name g e Hnd He) as Hamong.
  cbn [snd delete_duplicates episodes].
    destruct (episodes_newest_first name g) as [|h D] eqn:EO.
    - unfold duplicates. rewrite EO. simpl.
      rewrite (filter_all (fun _ => true)) by reflexivity.
      destruct (filter (has_name name) (episodes g)) as [|x xs] eqn:EM;
        [reflexivity|].
      assert (In x []) as []. apply HinO. rewrite <- filter_In, EM. now left.
    - assert (duplicates name g = D) as ED
        by (unfold duplicates; now rewrite EO).
      rewrite ED in *. clear ED. simpl.
      inversion HndO as [|? ? HhD HndD]; subst.
      apply filter_only.
      + apply NoDup_filter. eapply NoDup_map_inv. exact Hnd.
      + apply filter_In. split; [apply HinO; now left|].
        apply negb_true_iff, not_true_is_false. intros Et.
        apply Hamong in Et; [contradiction | apply HinO; now left].
      + intros x Hx. apply filter_In in Hx as [Hx Hkeep].
        apply negb_true_iff in Hkeep. split.
        * intros Hn. assert (In x (h :: D)) as [<-|HxD]
            by (apply HinO; auto); [reflexivity|].
          apply Hamong in HxD; [congruence | exact Hx].
        * intros ->. apply HinO. now left.
Qed.

(** X15: the cleaning query keeps, of the episodes of a name, the most
    recent one and deletes the others. In a graph whose node ids are
    distinct, the episodes of that name that remain are the first of them in
    the order of the query, one if there was any; what remains is at least
    as recent as every episode of the name there was; the episodes of other
    names are untouched; the count returned is the number there was, less
    one; a relationship remains when its episode was not deleted; and a
    second run deletes nothing. *)
Theorem delete_duplicates_keeps_newest (name : text) (g : graph) :
  NoDup (map Episodic.id (episodes g)) ->
  filter (has_name name) (episodes (snd (delete_duplicates name g)))
  = firstn 1 (episodes_newest_first name g) /\
  (forall kept e,
     In kept (filter (has_name name)
                (episodes (snd (delete_duplicates name g)))) ->
     In e (episodes g) -> has_name name e = true ->
     at_least_as_recent kept e) /\
  filter (fun e => negb (has_name name e))
    (episodes (snd (delete_duplicates name g)))
  = filter (fun e => negb (has_name name e)) (episodes g) /\
  fst (delete_duplicates name g)
  = (List.length (filter (has_name name) (episodes g)) - 1)%nat /\
  (forall r, In r (relationships (snd (delete_duplicates name g))) <->
             In r (relationships g) /\
             ~ In (fst r) (map Episodic.id (duplicates name g))) /\
  delete_duplicates name (snd (delete_duplicates name g))
  = (0%nat, snd (delete_duplicates name g)).
Proof.
  intros Hnd.
  destruct (newest_first_facts name g Hnd) as (HndO & HinO & HD).
  assert (forall e, In e (episodes g) ->
            is_among (duplicates name g) (Episodic.id e) = true <->
            In e (duplicates name g)) as Hamong.
  { intros e He. apply (is_among_In (episodes g)); auto.
    intros x Hx. now apply HD, HinO in Hx. }
  pose proof (delete_duplicates_remaining name g Hnd) as H1.
  split; [exact H1|]. split; [|split; [|split; [|split]]].
  - intros kept e Hkept He Hn. rewrite H1 in Hkept.
    pose proof (order_desc_sorted (filter (has_name name) (episodes g))) as Hs.
    fold (episodes_newest_first name g) in Hs.
    assert (In e (episodes_newest_first name g)) as HeO by (apply HinO; auto).
    destruct (episodes_newest_first name g) as [|h D]; [contradiction|].
    simpl in Hkept. destruct Hkept as [<-|[]].
    inversion Hs as [|? ? _ Hh]; subst. rewrite Forall_forall in Hh.
    destruct HeO as [<-|HeD]; [unfold at_least_as_recent; lia | auto].
  - cbn [snd delete_duplicates episodes].
    rewrite filter_swap. apply filter_all.
    intros e He. apply filter_In in He as [He Hn].
    apply negb_true_iff in Hn. apply negb_true_iff, not_true_is_false.
    intros Et. apply Hamong in Et; [|exact He].
    apply HD, HinO in Et as [_ Et]. congruence.
  - cbn [fst delete_duplicates]. unfold duplicates.
    rewrite length_skipn. unfold episodes_newest_first.
    now rewrite <- (Permutation_length (order_desc_perm _)).
  - intros r. cbn [snd delete_duplicates relationships].
    rewrite filter_In, negb_true_iff. unfold is_among.
    split; intros [Hr Hn]; split; auto.
    + intros Hin. apply in_map_iff in Hin as (e & E & He).
      assert (existsb (fun e => N.eqb (Episodic.id e) (fst r))
                (duplicates name g) = true) as Et; [|congruence].
      apply existsb_exists. exists e. split; [exact He|]. now apply N.eqb_eq.
    + apply not_true_is_false. intros Et.
      apply existsb_exists in Et as (e & He & E). apply N.eqb_eq in E.
      apply Hn. rewrite <- E. now apply in_map.
  - unfold delete_duplicates at 1. unfold duplicates at 1 2 3.
    unfold episodes_newest_first at 1 2 3. rewrite H1.
    assert (skipn 1 (Cypher.order_by_created_at_desc
                       (firstn 1 (episodes_newest_first name g))) = []) as ->.
    { destruct (episodes_newest_first name g) as [|h D]; reflexivity. }
    cbn [List.length is_among existsb negb].
    rewrite !(filter_all (fun _ => true)) by reflexivity.
    reflexivity.
Qed.

Lemma example_graph_ids : NoDup (map Episodic.id (episodes example_graph)).
Proof. apply (distinct_NoDup N.eqb _ N.eqb_eq). reflexivity. Qed.

Lemma delete_duplicates_keeps_newest_witness :
  filter (has_name gemini_name)
    (episodes (snd (delete_duplicates gemini_name example_graph)))
  = firstn 1 (episodes_newest_first gemini_name example_graph).
Proof.
  apply (delete_duplicates_keeps_newest gemini_name example_graph).
  exact example_graph_ids.
Defined.

Lemma delete_duplicates_example :
  delete_duplicates gemini_name example_graph
  = (1%nat,
     {| episodes := [initech_episode; gemini_second];
        relationships := [(2%N, "Gemini App"%string);
                          (3%N, "Initech"%string)] |}).
Proof. vm_compute. reflexivity. Qed.

Lemma delete_duplicates_keeps_other (name : text) (g : graph)
  (e : Episodic.node) :
  NoDup (map Episodic.id (episodes g)) ->
  In e (episodes g) -> has_name name e = false ->
  In e (episodes (snd (delete_duplicates name g))).
Proof.
  intros Hnd He Hn. cbn [snd delete_duplicates episodes].
  apply filter_In. split; [exact He|].
  apply negb_true_iff, not_true_is_false. intros Et.
  apply is_among_duplicates in Et; [|exact Hnd | exact He].
  destruct (newest_first_facts name g Hnd) as (_ & HinO & HD).
  apply HD, HinO in Et as [_ Et]. congruence.
Qed.

Lemma delete_duplicates_subset (name : text) (g : graph) (e : Episodic.node) :
  In e (episodes (snd (delete_duplicates name g))) -> In e (episodes g).
Proof.
  cbn [snd delete_duplicates episodes]. intros H.
  now apply filter_In in H.
Qed.

Lemma delete_duplicates_ids (name : text) (g : graph) :
  NoDup (map Episodic.id (episodes g)) ->
  NoDup (map Episodic.id (episodes (snd (delete_duplicates name g)))).
Proof. cbn [snd delete_duplicates episodes]. apply NoDup_map_filter. Qed.

Lemma delete_duplicates_keeps_one (name name' : text) (g : graph)
  (e : Episodic.node) :
  NoDup (map Episodic.id (episodes g)) ->
  In e (episodes g) -> has_name name' e = true ->
  exists e', In e' (episodes (snd (delete_duplicates name g))) /\
             has_name name' e' = true.
Proof.
  intros Hnd He Hn.
  destruct (has_name name e) eqn:E.
  - pose proof (delete_duplicates_remaining name g Hnd) as H1.
    destruct (newest_first_facts name g Hnd) as (_ & HinO & _).
    assert (In e (episodes_newest_first name g)) as HeO by (apply HinO; auto).
    destruct (episodes_newest_first name g) as [|h D]; [contradiction|].
    assert (In h (filter (has_name name)
                    (episodes (snd (delete_duplicates name g))))) as Hh
      by (rewrite H1; now left).
    apply filter_In in Hh as [Hh Hhn]. exists h. split; [exact Hh|].
    unfold has_name in *. apply String.eqb_eq in Hhn, E, Hn.
    apply String.eqb_eq. congruence.
  - exists e. split; [now apply delete_duplicates_keeps_other | exact Hn].
Qed.

Lemma clean_duplicates_cons (name : text) (names : list text) (g : graph) :
  clean_duplicates (name :: names) g
  = (fst (delete_duplicates name g)
       :: fst (clean_duplicates names (snd (delete_duplicates name g))),
     snd (clean_duplicates names (snd (delete_duplicates name g)))).
Proof.
  cbn [clean_duplicates].
  destruct (delete_duplicates name g) as [n g']. cbn [fst snd].
  destruct (clean_duplicates names g') as [c g'']. reflexivity.
Qed.

Lemma clean_duplicates_ids (names : list text) (g : graph) :
  NoDup (map Episodic.id (episodes g)) ->
  NoDup (map Episodic.id (episodes (snd (clean_duplicates names g)))).
Proof.
  revert g. induction names as [|name names IH]; intros g H; [exact H|].
  rewrite clean_duplicates_cons. cbn [snd].
  apply IH, delete_duplicates_ids, H.
Qed.

(** X16: the cleaning script leaves at most one episode of each name it is
    given and never deletes the last one. In a graph whose node ids are
    distinct, after the loop there is at most one episode of every name of
    the list; every name that had an episode still has one; the episodes of
    names that are not in the list are all still there; nothing is added; and
    it prints one count for each name. *)
Theorem clean_duplicates_leaves_one (names : list text) (g : graph) :
  NoDup (map Episodic.id (episodes g)) ->
  (forall name, In name names ->
     (List.length (filter (has_name name)
                     (episodes (snd (clean_duplicates names g)))) <= 1)%nat) /\
  (forall name e, In e (episodes g) -> has_name name e = true ->
     exists e', In e' (episodes (snd (clean_duplicates names g))) /\
                has_name name e' = true) /\
  (forall e, In e (episodes g) ->
     (forall name, In name names -> has_name name e = false) ->
     In e (episodes (snd (clean_duplicates names g)))) /\
  (forall e, In e (episodes (snd (clean_duplicates names g))) ->
     In e (episodes g)) /\
  List.length (fst (clean_duplicates names g)) = List.length names.
Proof.
  revert g. induction names as [|name names IH]; intros g Hnd.
  - simpl. repeat split; auto; try tauto. intros name e He Hn. eauto.
  - rewrite clean_duplicates_cons. cbn [fst snd].
    pose proof (delete_duplicates_ids name g Hnd) as Hnd'.
    destruct (IH (snd (delete_duplicates name g)) Hnd')
      as (Hone & Hlast & Hother & Hsub & Hlen).
    split; [|split; [|split; [|split]]].
    + intros name' [<-|Hin]; [|now apply Hone].
      pose proof (delete_duplicates_remaining name g Hnd) as H1.
      assert (List.length (filter (has_name name)
                (episodes (snd (delete_duplicates name g)))) <= 1)%nat as Hle.
      { rewrite H1. apply firstn_le_length. }
      eapply Nat.le_trans; [|exact Hle].
      apply NoDup_incl_length.
      * apply NoDup_filter. eapply NoDup_map_inv.
        apply clean_duplicates_ids. exact Hnd'.
      * intros e He. apply filter_In in He as [He Hn].
        apply filter_In. split; [apply Hsub, He | exact Hn].
    + intros name' e He Hn.
      destruct (delete_duplicates_keeps_one name name' g e Hnd He Hn)
        as (e1 & He1 & Hn1).
      eapply Hlast; eassumption.
    + intros e He Hnot. apply Hother.
      * apply delete_duplicates_keeps_other; auto. apply Hnot. now left.
      * intros name' Hin. apply Hnot. now right.
    + intros e He. eapply delete_duplicates_subset, Hsub, He.
    + cbn [List.length]. f_equal. exact Hlen.
Qed.

(** ** processed_webhooks *)

Lemma text2_eqb_eq (a b : text * text) : text2_eqb a b = true <-> a = b.
Proof.
  destruct a as [a1 a2], b as [b1 b2]. unfold text2_eqb. cbn [fst snd].
  rewrite andb_true_iff, !String.eqb_eq. split.
  - intros [-> ->]. reflexivity.
  - intros [= -> ->]. auto.
Qed.

Lemma existsb_unique_key (k : text * text) (l : list ProcessedWebhooks.row) :
  existsb (fun w' => text2_eqb (ProcessedWebhooks.unique_key w') k) l = true
  <-> In k (map ProcessedWebhooks.unique_key l).
Proof.
  rewrite existsb_exists, in_map_iff. split.
  - intros (w & Hw & E). apply text2_eqb_eq in E. eauto.
  - intros (w & E & Hw). exists w. split; [exact Hw|]. now apply text2_eqb_eq.
Qed.

Lemma webhooks_constraints_rejected (t : webhooks) :
  webhooks_constraints t ->
  webhooks_constraints
    {| processed_webhooks := processed_webhooks t;
       processed_webhooks_id_seq := (processed_webhooks_id_seq t + 1)%Z |}.
Proof.
  intros (Hid & Hkey & Hseq). repeat split; cbn; auto.
  eapply Forall_impl; [|exact Hseq]. cbn. intros w Hw. lia.
Qed.

Lemma insert_processed_webhook_step (now : timestamptz)
  (v : InsertProcessedWebhook.values) (t : webhooks) :
  webhooks_constraints t ->
  (processed_webhooks_id_seq t <= bigint_max)%Z ->
  webhooks_constraints (snd (insert_processed_webhook now v t)) /\
  processed_webhooks_id_seq (snd (insert_processed_webhook now v t))
  = (processed_webhooks_id_seq t + 1)%Z /\
  (exists new,
     processed_webhooks (snd (insert_processed_webhook now v t))
     = processed_webhooks t ++ new /\
     List.length new
     = (if is_inserted (fst (insert_processed_webhook now v t))
        then 1 else 0)%nat) /\
  (forall k,
     In k (map ProcessedWebhooks.unique_key
             (processed_webhooks (snd (insert_processed_webhook now v t))))
     <-> In k (map ProcessedWebhooks.unique_key (processed_webhooks t)) \/
         requested_event (now, v) = Some k).
Proof.
  intros HC Hseq. unfold insert_processed_webhook, requested_event.
  cbv zeta. cbn [snd ProcessedWebhooks.unique_key ProcessedWebhooks.message_id
    ProcessedWebhooks.user_id].
  assert ((bigint_max <? processed_webhooks_id_seq t)%Z = false) as ->
    by (apply Z.ltb_ge; exact Hseq).
  assert (forall e,
    webhooks_constraints
      {| processed_webhooks := processed_webhooks t;
         processed_webhooks_id_seq := (processed_webhooks_id_seq t + 1)%Z |} /\
    (processed_webhooks_id_seq t + 1 = processed_webhooks_id_seq t + 1)%Z /\
    (exists new, processed_webhooks t = processed_webhooks t ++ new /\
       List.length new = (if is_inserted (Rejected e) then 1 else 0)%nat))
    as Hrej.
  { intros e. split; [now apply webhooks_constraints_rejected|].
    split; [reflexivity|]. exists []. now rewrite app_nil_r. }
  destruct (InsertProcessedWebhook.message_id v) as [m|];
    [destruct (InsertProcessedWebhook.user_id v) as [u|]|].
  - destruct (existsb _ _) eqn:E; cbn [fst snd processed_webhooks
      processed_webhooks_id_seq].
    + destruct (Hrej unique_violation) as (H1 & H2 & H3).
      split; [exact H1|]. split; [exact H2|]. split; [exact H3|].
      intros k. split; [auto|]. intros [H|[= <-]]; [exact H|].
      apply existsb_unique_key in E. exact E.
    + assert (~ In (m, u) (map ProcessedWebhooks.unique_key
                             (processed_webhooks t))) as Hfresh.
      { intros H. apply existsb_unique_key in H.
        exact (eq_true_false_abs _ H E). }
      destruct HC as (Hid & Hkey & Hlt).
      split; [|split; [reflexivity|split]].
      * unfold webhooks_constraints.
        cbn [processed_webhooks processed_webhooks_id_seq].
        rewrite !map_app. cbn [map ProcessedWebhooks.unique_key
          ProcessedWebhooks.id ProcessedWebhooks.message_id
          ProcessedWebhooks.user_id].
        split; [|split].
        -- apply NoDup_app; [exact Hid | repeat constructor; intros [] |].
           intros x Hx [<-|[]]. apply in_map_iff in Hx as (w & Ew & Hw).
           rewrite Forall_forall in Hlt. specialize (Hlt w Hw). lia.
        -- apply NoDup_app; [exact Hkey | repeat constructor; intros [] |].
           intros x Hx [<-|[]]. now apply Hfresh.
        -- apply Forall_app. split.
           ++ eapply Forall_impl; [|exact Hlt]. cbn. intros w Hw. lia.
           ++ constructor; [|constructor]. cbn. lia.
      * eexists. split; [reflexivity|]. reflexivity.
      * intros k. rewrite map_app, in_app_iff. cbn. split.
        -- intros [H|[<-|[]]]; auto.
        -- intros [H|[= <-]]; auto.
  - destruct (Hrej not_null_violation) as (H1 & H2 & H3).
    split; [exact H1|]. split; [exact H2|]. split; [exact H3|].
    intros k. split; [auto|]. now intros [H|[=]].
  - destruct (Hrej not_null_violation) as (H1 & H2 & H3).
    split; [exact H1|]. split; [exact H2|]. split; [exact H3|].
    intros k. split; [auto|]. now intros [H|[=]].
Qed.

Lemma insert_processed_webhooks_cons (now : timestamptz)
  (v : InsertProcessedWebhook.values)
  (requests : list (timestamptz * InsertProcessedWebhook.values))
  (t : webhooks) :
  insert_processed_webhooks ((now, v) :: requests) t
  = (fst (insert_processed_webhook now v t)
       :: fst (insert_processed_webhooks requests
                 (snd (insert_processed_webhook now v t))),
     snd (insert_processed_webhooks requests
            (snd (insert_processed_webhook now v t)))).
Proof.
  cbn [insert_processed_webhooks].
  destruct (insert_processed_webhook now v t) as [a t']. cbn [fst snd].
  destruct (insert_processed_webhooks requests t') as [l t'']. reflexivity.
Qed.

Lemma empty_webhooks_constraints : webhooks_constraints empty_webhooks.
Proof. repeat split; cbn; constructor. Qed.

(** X17: the table of processed webhooks holds one row for each event,
    however often the INSERT for it is repeated. Starting from a table that
    satisfies its constraints, with enough of the sequence left for the
    INSERTs to come, after any list of INSERTs: the constraints hold (ids
    distinct, (message_id, user_id) distinct); an event has a row exactly
    when it had one before or one of the INSERTs named it; the rows there
    were are kept as they were and in place, with one new row for each INSERT
    that was accepted; and every INSERT, also a rejected one, has used one
    value of the sequence. *)
Theorem processed_webhooks_one_row_per_event
  (requests : list (timestamptz * InsertProcessedWebhook.values))
  (t : webhooks) :
  webhooks_constraints t ->
  (processed_webhooks_id_seq t + Z.of_nat (List.length requests)
   <= bigint_max + 1)%Z ->
  webhooks_constraints (snd (insert_processed_webhooks requests t)) /\
  (forall k,
     In k (map ProcessedWebhooks.unique_key
             (processed_webhooks (snd (insert_processed_webhooks requests t))))
     <-> In k (map ProcessedWebhooks.unique_key (processed_webhooks t)) \/
         In (Some k) (map requested_event requests)) /\
  (exists new,
     processed_webhooks (snd (insert_processed_webhooks requests t))
     = processed_webhooks t ++ new /\
     List.length new
     = List.length (filter is_inserted
                      (fst (insert_processed_webhooks requests t)))) /\
  processed_webhooks_id_seq (snd (insert_processed_webhooks requests t))
  = (processed_webhooks_id_seq t + Z.of_nat (List.length requests))%Z /\
  List.length (fst (insert_processed_webhooks requests t))
  = List.length requests.
Proof.
  revert t. induction requests as [|[now v] requests IH]; intros t HC Hseq.
  - cbn [insert_processed_webhooks fst snd map List.length filter].
    split; [exact HC|]. split; [intros k; cbn; tauto|].
    split; [exists []; now rewrite app_nil_r|]. split; [cbn; lia|reflexivity].
  - rewrite insert_processed_webhooks_cons. cbn [fst snd].
    cbn [List.length] in Hseq. rewrite Nat2Z.inj_succ in Hseq.
    assert (processed_webhooks_id_seq t <= bigint_max)%Z as Hs by lia.
    destruct (insert_processed_webhook_step now v t HC Hs)
      as (HC1 & Hseq1 & (new1 & Hnew1 & Hlen1) & Hkey1).
    destruct (IH (snd (insert_processed_webhook now v t)) HC1)
      as (HC2 & Hkey2 & (new2 & Hnew2 & Hlen2) & Hseq2 & Hlen).
    { rewrite Hseq1. lia. }
    split; [exact HC2|]. split; [|split; [|split]].
    + intros k. rewrite Hkey2, Hkey1. cbn [map In]. intuition.
    + exists (new1 ++ new2). rewrite Hnew2, Hnew1, <- app_assoc.
      split; [reflexivity|]. rewrite length_app, Hlen1, Hlen2.
      cbn [filter].
      destruct (is_inserted (fst (insert_processed_webhook now v t)));
        reflexivity.
    + rewrite Hseq2, Hseq1. cbn [List.length]. lia.
    + cbn [List.length]. now rewrite Hlen.
Qed.

Lemma processed_webhooks_one_row_per_event_witness :
  webhooks_constraints (snd (insert_processed_webhooks webhook_deliveries
                               empty_webhooks)) /\
  (forall k,
     In k (map ProcessedWebhooks.unique_key
             (processed_webhooks
                (snd (insert_processed_webhooks webhook_deliveries
                        empty_webhooks))))
     <-> In k (map ProcessedWebhooks.unique_key
                 (processed_webhooks empty_webhooks)) \/
         In (Some k) (map requested_event webhook_deliveries)) /\
  (exists new,
     processed_webhooks (snd (insert_processed_webhooks webhook_deliveries
                                empty_webhooks))
     = processed_webhooks empty_webhooks ++ new /\
     List.length new
     = List.length (filter is_inserted
                      (fst (insert_processed_webhooks webhook_deliveries
                              empty_webhooks)))) /\
  processed_webhooks_id_seq
    (snd (insert_processed_webhooks webhook_deliveries empty_webhooks))
  = (processed_webhooks_id_seq empty_webhooks
     + Z.of_nat (List.length webhook_deliveries))%Z /\
  List.length (fst (insert_processed_webhooks webhook_deliveries
                      empty_webhooks))
  = List.length webhook_deliveries.
Proof.
  apply (processed_webhooks_one_row_per_event webhook_deliveries
           empty_webhooks).
  - exact empty_webhooks_constraints.
  - vm_compute. discriminate.
Defined.

Lemma webhook_deliveries_example :
  insert_processed_webhooks webhook_deliveries empty_webhooks
  = ([Inserted 1%Z; Rejected not_null_violation; Rejected unique_violation;
      Inserted 4%Z],
     {| processed_webhooks :=
          [ProcessedWebhooks.mk 1%Z "18c2"%string "alice"%string (Some 10%Z);
           ProcessedWebhooks.mk 4%Z "18c2"%string "bob"%string (Some 13%Z)];
        processed_webhooks_id_seq := 5%Z |}).
Proof. vm_compute. reflexivity. Qed.

Lemma clean_duplicates_leaves_one_witness :
  (forall name, In name duplicate_names ->
     (List.length (filter (has_name name)
                     (episodes (snd (clean_duplicates duplicate_names
                                       example_graph)))) <= 1)%nat) /\
  (forall name e, In e (episodes example_graph) -> has_name name e = true ->
     exists e', In e' (episodes (snd (clean_duplicates duplicate_names
                                        example_graph))) /\
                has_name name e' = true) /\
  (forall e, In e (episodes example_graph) ->
     (forall name, In name duplicate_names -> has_name name e = false) ->
     In e (episodes (snd (clean_duplicates duplicate_names example_graph)))) /\
  (forall e, In e (episodes (snd (clean_duplicates duplicate_names
                                    example_graph))) ->
     In e (episodes example_graph)) /\
  List.length (fst (clean_duplicates duplicate_names example_graph))
  = List.length duplicate_names.
Proof.
  apply (clean_duplicates_leaves_one duplicate_names example_graph).
  exact example_graph_ids.
Defined.

Lemma clean_duplicates_example :
  clean_duplicates duplicate_names example_graph
  = ([1%nat; 0%nat],
     {| episodes := [initech_episode; gemini_second];
        relationships := [(2%N, "Gemini App"%string);
                          (3%N, "Initech"%string)] |}).
Proof. vm_compute. reflexivity. Qed.

(** ** Deleting the seed emails *)

Lemma delete_documents_constraints (where_ : Documents.row -> bool)
  (db : database) :
  documents_constraints db ->
  documents_constraints (delete_documents where_ db) /\
  (forall l,
     In l (document_entities (delete_documents where_ db)) <->
     In l (document_entities db) /\
     exists d, In d (documents (delete_documents where_ db)) /\
               Documents.id d = DocumentEntities.document_id l).
Proof.
  intros (Hid & Hkey & Hri & Hwf).
  assert (forall l,
     In l (document_entities (delete_documents where_ db)) <->
     In l (document_entities db) /\
     exists d, In d (documents (delete_documents where_ db)) /\
               Documents.id d = DocumentEntities.document_id l) as Hlinks.
  { intros l. rewrite delete_documents_links. cbn [delete_documents documents].
    split.
    - intros [Hl Hkeep]. split; [exact Hl|].
      destruct (Hri l Hl) as (d & Hd & E). exists d. split; [|exact E].
      apply filter_In. split; [exact Hd|]. apply negb_true_iff.
      destruct (where_ d) eqn:W; [|reflexivity].
      exfalso. eapply Hkeep; eassumption.
    - intros [Hl (d & Hd & E)]. split; [exact Hl|].
      apply filter_In in Hd as [Hd Hw]. apply negb_true_iff in Hw.
      intros d2 Hd2 Hw2 E2.
      assert (d2 = d) as ->
        by (eapply (NoDup_map_injective Documents.id); eauto; congruence).
      congruence. }
  split; [|exact Hlinks].
  split; [|split; [|split]].
  - cbn [delete_documents documents]. now apply NoDup_map_filter.
  - cbn [delete_documents documents]. now apply NoDup_map_filter.
  - intros l Hl. apply Hlinks in Hl as [_ H]. exact H.
  - intros d v Hd. cbn [delete_documents documents] in Hd.
    apply filter_In in Hd as [Hd _]. now apply Hwf.
Qed.

Lemma delete_seed_emails_cons (source_id : text) (ids : list text)
  (db : database) :
  delete_seed_emails (source_id :: ids) db
  = delete_seed_emails ids (delete_by_source_id source_id db).
Proof. reflexivity. Qed.

Lemma filter_filter_andb {A : Type} (f g : A -> bool) (l : list A) :
  filter f (filter g l) = filter (fun x => g x && f x) l.
Proof.
  induction l as [|x l IH]; simpl; [reflexivity|].
  destruct (g x); simpl; [destruct (f x)|]; now rewrite IH.
Qed.

Lemma seeded_database_constraints : documents_constraints seeded_database.
Proof.
  repeat split.
  - apply (distinct_NoDup N.eqb _ N.eqb_eq). reflexivity.
  - apply (distinct_NoDup text3_eqb _ text3_eqb_eq). reflexivity.
  - intros l [<-|[<-|[]]].
    + exists seed_email. split; [left|]; reflexivity.
    + exists older_email. split; [right; left|]; reflexivity.
  - intros d v [<-|[<-|[]]] [= <-]. reflexivity.
Qed.

(** X18: the loop that deletes the seed emails removes every document whose
    source_id is in the list, whatever its user and source, and nothing
    else. On tables that satisfy their constraints, after the loop the
    documents are those whose source_id is not in the list, in their order;
    the links that remain are those of the documents that remain; the
    constraints hold again; and the deduplication table is as it was, so the
    deleted messages are still marked as processed. *)
Theorem delete_seed_emails_by_source_id (ids : list text) (db : database) :
  documents_constraints db ->
  documents (delete_seed_emails ids db)
  = filter (fun d => negb (is_listed ids d)) (documents db) /\
  (forall l,
     In l (document_entities (delete_seed_emails ids db)) <->
     In l (document_entities db) /\
     exists d, In d (documents (delete_seed_emails ids db)) /\
               Documents.id d = DocumentEntities.document_id l) /\
  documents_constraints (delete_seed_emails ids db) /\
  processed_episodes (delete_seed_emails ids db) = processed_episodes db.
Proof.
  revert db. induction ids as [|source_id ids IH]; intros db HC.
  - cbn [delete_seed_emails fold_left is_listed existsb negb].
    split; [|split; [|split; [exact HC|reflexivity]]].
    + symmetry. apply filter_all. reflexivity.
    + intros l. split; [|tauto]. intros Hl. split; [exact Hl|].
      destruct HC as (_ & _ & Hri & _). now apply Hri.
  - rewrite delete_seed_emails_cons.
    destruct (delete_documents_constraints
                (fun d => String.eqb (Documents.source_id d) source_id) db HC)
      as (HC1 & Hlinks1).
    fold (delete_by_source_id source_id db) in HC1, Hlinks1.
    destruct (IH (delete_by_source_id source_id db) HC1)
      as (Hdocs & Hlinks & HC2 & Hpe).
    split; [|split; [|split; [exact HC2|]]].
    + rewrite Hdocs. unfold delete_by_source_id.
      cbn [delete_documents documents]. rewrite filter_filter_andb.
      apply filter_ext. intros d. cbn [is_listed existsb].
      now rewrite negb_orb.
    + intros l. rewrite Hlinks, Hlinks1. split.
      * intros [[Hl _] H]. auto.
      * intros [Hl (d & Hd & E)]. split; [split; [exact Hl|]|eauto].
        exists d. split; [|exact E]. rewrite Hdocs in Hd.
        now apply filter_In in Hd as [Hd _].
    + rewrite Hpe. reflexivity.
Qed.

Lemma delete_seed_emails_by_source_id_witness :
  documents (delete_seed_emails test_ids seeded_database)
  = filter (fun d => negb (is_listed test_ids d)) (documents seeded_database) /\
  (forall l,
     In l (document_entities (delete_seed_emails test_ids seeded_database)) <->
     In l (document_entities seeded_database) /\
     exists d, In d (documents (delete_seed_emails test_ids seeded_database)) /\
               Documents.id d = DocumentEntities.document_id l) /\
  documents_constraints (delete_seed_emails test_ids seeded_database) /\
  processed_episodes (delete_seed_emails test_ids seeded_database)
  = processed_episodes seeded_database.
Proof.
  apply (delete_seed_emails_by_source_id test_ids seeded_database).
  exact seeded_database_constraints.
Defined.

Lemma delete_seed_emails_example :
  delete_seed_emails test_ids seeded_database
  = {| documents := [older_email];
       document_entities := [acme_link];
       processed_episodes := [];
       next_uuid := 10%N |}.
Proof. vm_compute. reflexivity. Qed.
